(** * Agon legacy firmware update utility: a shallow embedding of [src/main.c]

    The eZ80 program reads [MOS.bin] from the SD card into RAM, checks it,
    asks for confirmation and then erases, programs and verifies the
    on-chip flash, retrying the whole cycle up to three times.

    Every C function of [main.c] is one definition of the same name in a
    state monad over a [world] record.  Every hardware access and every
    [printf] appends one entry to the log of the world, stamped with the
    interrupt mask in force when it was issued.  Machine integers are [Z]
    with the wrap-around written out. *)

From Stdlib Require Import ZArith List String Ascii Bool Lia.
Import ListNotations.
Local Open Scope Z_scope.

(** ** Machine integers of the eZ80 C compiler *)

Definition u8 (x : Z) : Z := x mod 2 ^ 8.
Definition u24 (x : Z) : Z := x mod 2 ^ 24.

(** [for (i = 0; i < n; i++)]: the values the counter takes. *)
Definition range (n : Z) : list Z := map Z.of_nat (seq 0 (Z.to_nat n)).

(** ** Constants of [flash.h]

    The geometry that [flash.h] defines is a parameter of the
    development; the constants are taken to fit their C types. *)

Record layout : Type := Layout {
  PAGESIZE : Z;      (* bytes in one flash page *)
  FLASHPAGES : Z;    (* pages in the flash *)
  FLASHSTART : Z;    (* address of the first flash byte *)
  FLASHSIZE : Z;     (* bytes in the flash *)
  BUFFER1 : Z        (* address of the RAM buffer that receives the file *)
}.

(** The eZ80F92 of the Agon: 128 pages of 1 KB at address 0, the "128KB
    embedded flash" and "8x16KB blocks" that [main.c] speaks of, and a
    buffer in external RAM. *)
Definition agon : layout :=
  {| PAGESIZE := 1024; FLASHPAGES := 128; FLASHSTART := 0;
     FLASHSIZE := 131072; BUFFER1 := 327680 |}.

(** ** The flash array as a device

    What the array does on an erase, on a programming store and on a
    load is the hardware's business; the program is modelled over any
    device.  Each operation sees the protection register. *)

Record device (F : Type) : Type := Device {
  (* erase the page selected in FLASH_PAGE and poll FLASH_PGCTL until
     bit 1 reads back clear; [None] when it never does *)
  dev_erase : Z -> Z -> F -> option F;
  (* one byte stored to a flash address *)
  dev_program : Z -> Z -> Z -> F -> F;
  (* one byte loaded from a flash address *)
  dev_read : F -> Z -> Z
}.
Arguments dev_erase {F} _ _ _ _.
Arguments dev_program {F} _ _ _ _ _.
Arguments dev_read {F} _ _ _.

(** ** Log entries *)

Inductive reg : Type := FLASH_PROT | FLASH_FDIV | FLASH_PAGE | FLASH_PGCTL.

(** Format strings are the text between the quotes of the C literal,
    escapes unexpanded. *)
Inductive event : Type :=
| Printf (fmt : string) (args : list Z)
| PrintfS (fmt : string) (arg : string)
| Putch (c : Z)
| Getch (c : Z)
| Di
| EnableFlashKeyRegister
| LockFlashKeyRegister
| Out (r : reg) (v : Z)
| Fastmemcpy (dst src len : Z)
| Crc32 (addr len : Z).

Record entry : Type := At { irq_on : bool; op : event }.

(** ** The world *)

Record world (F : Type) : Type := World {
  irq : bool;                          (* interrupts enabled *)
  key_open : bool;                     (* flash key register unlocked *)
  prot : Z;                            (* FLASH_PROT *)
  fdiv : Z;                            (* FLASH_FDIV *)
  page : Z;                            (* FLASH_PAGE *)
  flash : F;                           (* the flash array *)
  ram : Z -> Z;                        (* memory outside the flash *)
  mosfilename : string;                (* char mosfilename[256] *)
  moscrc : Z;                          (* uint32_t moscrc *)
  filesize : Z;                        (* uint24_t filesize *)
  crc : Z;                             (* accumulator of the crc32 unit *)
  card : string -> option (list Z);    (* files on the SD card *)
  openfile : list Z;                   (* unread bytes of the open file *)
  keys : list Z;                       (* keys the user is going to press *)
  log : list entry
}.
Arguments irq {F} _.
Arguments key_open {F} _.
Arguments prot {F} _.
Arguments fdiv {F} _.
Arguments page {F} _.
Arguments flash {F} _.
Arguments ram {F} _ _.
Arguments mosfilename {F} _.
Arguments moscrc {F} _.
Arguments filesize {F} _.
Arguments crc {F} _.
Arguments card {F} _ _.
Arguments openfile {F} _.
Arguments keys {F} _.
Arguments log {F} _.

Definition set_irq {F : Type} (x : bool) (w : world F) : world F :=
  {| irq := x; key_open := key_open w; prot := prot w; fdiv := fdiv w;
     page := page w; flash := flash w; ram := ram w;
     mosfilename := mosfilename w; moscrc := moscrc w;
     filesize := filesize w; crc := crc w; card := card w;
     openfile := openfile w; keys := keys w; log := log w |}.

Definition set_key_open {F : Type} (x : bool) (w : world F) : world F :=
  {| irq := irq w; key_open := x; prot := prot w; fdiv := fdiv w;
     page := page w; flash := flash w; ram := ram w;
     mosfilename := mosfilename w; moscrc := moscrc w;
     filesize := filesize w; crc := crc w; card := card w;
     openfile := openfile w; keys := keys w; log := log w |}.

Definition set_prot {F : Type} (x : Z) (w : world F) : world F :=
  {| irq := irq w; key_open := key_open w; prot := x; fdiv := fdiv w;
     page := page w; flash := flash w; ram := ram w;
     mosfilename := mosfilename w; moscrc := moscrc w;
     filesize := filesize w; crc := crc w; card := card w;
     openfile := openfile w; keys := keys w; log := log w |}.

Definition set_fdiv {F : Type} (x : Z) (w : world F) : world F :=
  {| irq := irq w; key_open := key_open w; prot := prot w; fdiv := x;
     page := page w; flash := flash w; ram := ram w;
     mosfilename := mosfilename w; moscrc := moscrc w;
     filesize := filesize w; crc := crc w; card := card w;
     openfile := openfile w; keys := keys w; log := log w |}.

Definition set_page {F : Type} (x : Z) (w : world F) : world F :=
  {| irq := irq w; key_open := key_open w; prot := prot w; fdiv := fdiv w;
     page := x; flash := flash w; ram := ram w; mosfilename := mosfilename w;
     moscrc := moscrc w; filesize := filesize w; crc := crc w;
     card := card w; openfile := openfile w; keys := keys w; log := log w |}.

Definition set_flash {F : Type} (x : F) (w : world F) : world F :=
  {| irq := irq w; key_open := key_open w; prot := prot w; fdiv := fdiv w;
     page := page w; flash := x; ram := ram w; mosfilename := mosfilename w;
     moscrc := moscrc w; filesize := filesize w; crc := crc w;
     card := card w; openfile := openfile w; keys := keys w; log := log w |}.

Definition set_ram {F : Type} (x : Z -> Z) (w : world F) : world F :=
  {| irq := irq w; key_open := key_open w; prot := prot w; fdiv := fdiv w;
     page := page w; flash := flash w; ram := x;
     mosfilename := mosfilename w; moscrc := moscrc w;
     filesize := filesize w; crc := crc w; card := card w;
     openfile := openfile w; keys := keys w; log := log w |}.

Definition set_mosfilename {F : Type} (x : string) (w : world F) : world F :=
  {| irq := irq w; key_open := key_open w; prot := prot w; fdiv := fdiv w;
     page := page w; flash := flash w; ram := ram w; mosfilename := x;
     moscrc := moscrc w; filesize := filesize w; crc := crc w;
     card := card w; openfile := openfile w; keys := keys w; log := log w |}.

Definition set_moscrc {F : Type} (x : Z) (w : world F) : world F :=
  {| irq := irq w; key_open := key_open w; prot := prot w; fdiv := fdiv w;
     page := page w; flash := flash w; ram := ram w;
     mosfilename := mosfilename w; moscrc := x; filesize := filesize w;
     crc := crc w; card := card w; openfile := openfile w; keys := keys w;
     log := log w |}.

Definition set_filesize {F : Type} (x : Z) (w : world F) : world F :=
  {| irq := irq w; key_open := key_open w; prot := prot w; fdiv := fdiv w;
     page := page w; flash := flash w; ram := ram w;
     mosfilename := mosfilename w; moscrc := moscrc w; filesize := x;
     crc := crc w; card := card w; openfile := openfile w; keys := keys w;
     log := log w |}.

Definition set_crc {F : Type} (x : Z) (w : world F) : world F :=
  {| irq := irq w; key_open := key_open w; prot := prot w; fdiv := fdiv w;
     page := page w; flash := flash w; ram := ram w;
     mosfilename := mosfilename w; moscrc := moscrc w;
     filesize := filesize w; crc := x; card := card w;
     openfile := openfile w; keys := keys w; log := log w |}.

Definition set_openfile {F : Type} (x : list Z) (w : world F) : world F :=
  {| irq := irq w; key_open := key_open w; prot := prot w; fdiv := fdiv w;
     page := page w; flash := flash w; ram := ram w;
     mosfilename := mosfilename w; moscrc := moscrc w;
     filesize := filesize w; crc := crc w; card := card w; openfile := x;
     keys := keys w; log := log w |}.

Definition set_keys {F : Type} (x : list Z) (w : world F) : world F :=
  {| irq := irq w; key_open := key_open w; prot := prot w; fdiv := fdiv w;
     page := page w; flash := flash w; ram := ram w;
     mosfilename := mosfilename w; moscrc := moscrc w;
     filesize := filesize w; crc := crc w; card := card w;
     openfile := openfile w; keys := x; log := log w |}.

Definition set_log {F : Type} (x : list entry) (w : world F) : world F :=
  {| irq := irq w; key_open := key_open w; prot := prot w; fdiv := fdiv w;
     page := page w; flash := flash w; ram := ram w;
     mosfilename := mosfilename w; moscrc := moscrc w;
     filesize := filesize w; crc := crc w; card := card w;
     openfile := openfile w; keys := keys w; log := x |}.

(** ** The monad: state, log, and the ways of never returning *)

Inductive hang : Type :=
| AwaitReset     (* [while(1);] at the end of [main] *)
| AwaitKey       (* [getch()] with no key coming *)
| EraseStall.    (* FLASH_PGCTL never reads back clear *)

Inductive result (F A : Type) : Type :=
| Ret (a : A) (w : world F)
| Hung (h : hang) (w : world F).
Arguments Ret {F A} _ _.
Arguments Hung {F A} _ _.

Definition M (F A : Type) : Type := world F -> result F A.

Definition ret {F A : Type} (a : A) : M F A := fun w => Ret a w.

Definition bind {F A B : Type} (m : M F A) (k : A -> M F B) : M F B :=
  fun w => match m w with
           | Ret a w' => k a w'
           | Hung h w' => Hung h w'
           end.

Definition stop {F A : Type} (h : hang) : M F A := fun w => Hung h w.

Definition gets {F A : Type} (f : world F -> A) : M F A := fun w => Ret (f w) w.

Definition modify {F : Type} (f : world F -> world F) : M F unit :=
  fun w => Ret tt (f w).

Declare Scope prog_scope.
Delimit Scope prog_scope with prog.
Notation "x <- m ;; k" := (bind m (fun x => k))
  (at level 61, m at next level, right associativity) : prog_scope.
Notation "m ;; k" := (bind m (fun _ => k))
  (at level 61, right associativity) : prog_scope.
Local Open Scope prog_scope.

(** The world a run ends in, returned or not. *)
Definition final {F A : Type} (r : result F A) : world F :=
  match r with Ret _ w => w | Hung _ w => w end.

Fixpoint for_each {F : Type} (l : list Z) (body : Z -> M F unit) : M F unit :=
  match l with
  | [] => ret tt
  | i :: rest => body i ;; for_each rest body
  end.

Definition emit {F : Type} (e : event) : M F unit :=
  fun w => Ret tt (set_log (log w ++ [At (irq w) e]) w).

Definition printf {F : Type} (fmt : string) (args : list Z) : M F unit :=
  emit (Printf fmt args).

(** [putch] polls [UART0_LSR] until the transmitter is empty and then
    writes the character.  The UART is outside the program: its wait is
    taken to end, here and in every [printf]: the model has no run
    that stops in console output, and what is proved of a run holds
    on condition that the console takes every character. *)
Definition putch {F : Type} (c : Z) : M F unit := emit (Putch c).

(** ** Checksum unit ([crc32.h])

    Modelled from the spec: the implementation of [crc32_initialize],
    [crc32] and [crc32_finalize] is missing from the sources.  Section 4.1
    asks for the reflected 32-bit checksum, seed [0xFFFFFFFF], polynomial
    [0xEDB88320], final value XORed with [0xFFFFFFFF], table-driven. *)

Definition crc32_seed : Z := 0xFFFFFFFF.
Definition crc32_poly : Z := 0xEDB88320.

(** One bit of the reflected division. *)
Definition crc32_shift (c : Z) : Z :=
  if Z.testbit c 0 then Z.lxor (Z.shiftr c 1) crc32_poly else Z.shiftr c 1.

Definition crc32_shift8 (c : Z) : Z :=
  crc32_shift (crc32_shift (crc32_shift (crc32_shift
    (crc32_shift (crc32_shift (crc32_shift (crc32_shift c))))))).

(** The 256-entry lookup table. *)
Definition crc32_table : list Z :=
  Eval vm_compute in map crc32_shift8 (range 256).

(** [update]: one byte folded into the accumulator through the table. *)
Definition crc32_byte (acc b : Z) : Z :=
  Z.lxor (nth (Z.to_nat (Z.land (Z.lxor acc b) 0xFF)) crc32_table 0)
         (Z.shiftr acc 8).

(** The same checksum bit by bit, without the table: the textbook
    definition the table-driven unit is compared with. *)
Definition crc32_bitwise (bytes : list Z) : Z :=
  Z.lxor (fold_left (fun acc b => crc32_shift8 (Z.lxor acc b)) bytes crc32_seed)
         0xFFFFFFFF.

(** ** Hardware primitives ([ez80.h], [flash.h]) and [main.c] *)

(** The double quote of the C literals. *)
Definition dq : string := String (ascii_of_nat 34) EmptyString.

(** [tolower] of [ctype.h]. *)
Definition tolower (c : Z) : Z :=
  if (65 <=? c) && (c <=? 90) then c + 32 else c.

Definition mos_magicnumbers : list Z := [0xF3; 0xED; 0x7D; 0x5B; 0xC3].
Definition MOS_MAGICLENGTH : Z := 5.

(** [mem] is a byte load; [filestart[n]] is the byte at [filestart + n]
    in the 24-bit address space. *)
Definition containsMosHeader (mem : Z -> Z) (filestart : Z) : bool :=
  fold_left
    (fun (match_ : bool) (n : Z) =>
       if negb (nth (Z.to_nat n) mos_magicnumbers 0 =? mem (u24 (filestart + n)))
       then false else match_)
    (range MOS_MAGICLENGTH) true.

Section Program.
Context {F : Type}.
Variable dev : device F.
Variable L : layout.

(** *** Memory: the flash is mapped at [FLASHSTART], the rest is RAM *)

Definition in_flash (a : Z) : bool :=
  (FLASHSTART L <=? a) && (a <? FLASHSTART L + FLASHSIZE L).

Definition load (w : world F) (a : Z) : Z :=
  if in_flash (u24 a) then u8 (dev_read dev (flash w) (u24 a))
  else u8 (ram w (u24 a)).

Definition store (a v : Z) : M F unit :=
  modify (fun w =>
    if in_flash (u24 a)
    then set_flash (dev_program dev (prot w) (u24 a) (u8 v) (flash w)) w
    else set_ram (fun x => if x =? u24 a then u8 v else ram w x) w).

(** *** [di()] *)
Definition di : M F unit :=
  emit Di ;; modify (set_irq false).

(** *** [enableFlashKeyRegister()], [lockFlashKeyRegister()]

    Modelled from the spec: [flash.asm] is missing.  Section 4.2: the
    unlock sequence opens the key register for one write to a
    protection-control register, after which the hardware locks it
    again; the lock call closes it. *)
Definition enableFlashKeyRegister : M F unit :=
  emit EnableFlashKeyRegister ;; modify (set_key_open true).

Definition lockFlashKeyRegister : M F unit :=
  emit LockFlashKeyRegister ;; modify (set_key_open false).

(** *** [FLASH_PROT = v;] and [FLASH_FDIV = v;]: guarded by the key *)
Definition out_prot (v : Z) : M F unit :=
  emit (Out FLASH_PROT (u8 v)) ;;
  modify (fun w => if key_open w
                   then set_key_open false (set_prot (u8 v) w) else w).

Definition out_fdiv (v : Z) : M F unit :=
  emit (Out FLASH_FDIV (u8 v)) ;;
  modify (fun w => if key_open w
                   then set_key_open false (set_fdiv (u8 v) w) else w).

(** *** [FLASH_PAGE = v;] *)
Definition out_page (v : Z) : M F unit :=
  emit (Out FLASH_PAGE (u8 v)) ;; modify (set_page (u8 v)).

(** *** [FLASH_PGCTL = 0x02; do value = FLASH_PGCTL; while (value & 0x02);] *)
Definition erase_and_poll : M F unit :=
  emit (Out FLASH_PGCTL 0x02) ;;
  (fun w => match dev_erase dev (prot w) (page w) (flash w) with
            | Some f => Ret tt (set_flash f w)
            | None => Hung EraseStall w
            end).

(** *** [fastmemcpy(dst, src, len)]

    Modelled from the spec: the assembly routine is missing.  Section
    4.2, [writePage]: copies [len] bytes to [dst], lowest address
    first. *)
Definition fastmemcpy (dst src len : Z) : M F unit :=
  emit (Fastmemcpy dst src len) ;;
  for_each (range len)
           (fun i => b <- gets (fun w => load w (src + i)) ;; store (dst + i) b).

(** *** [crc32_initialize()], [crc32(ptr, len)], [crc32_finalize()] *)
Definition crc32_initialize : M F unit := modify (set_crc crc32_seed).

Definition crc32 (ptr len : Z) : M F unit :=
  emit (Crc32 ptr len) ;;
  modify (fun w =>
    set_crc (fold_left crc32_byte (map (fun i => load w (ptr + i)) (range len))
                       (crc w)) w).

Definition crc32_finalize : M F Z :=
  gets (fun w => Z.lxor (crc w) 0xFFFFFFFF).

(** *** [mos_fopen], [mos_fclose]: one file open at a time; handle 0 is
    the failure to open *)
Definition mos_fopen (name : string) : M F Z :=
  fun w => match card w name with
           | Some bytes => Ret 1 (set_openfile bytes w)
           | None => Ret 0 (set_openfile [] w)
           end.

Definition mos_fclose (file : Z) : M F unit := modify (set_openfile []).

(** *** [print_version] *)
Definition print_version : M F unit :=
  printf "Agon legacy firmware update utility\n\r\n\r" [].

(** *** [getResponse] *)
Fixpoint getResponse_loop (pending : list Z) (response : Z) : M F Z :=
  if negb (response =? 121) && negb (response =? 110) then
    match pending with
    | [] => stop AwaitKey
    | c :: rest =>
        emit (Getch c) ;; modify (set_keys rest) ;;
        getResponse_loop rest (u8 (tolower c))
    end
  else ret response.

Definition getResponse : M F bool :=
  printf "Flash firmware (y/n)?" [] ;;
  pending <- gets keys ;;
  response <- getResponse_loop pending 0 ;;
  (if response =? 110 then printf "\r\nUser abort\n\r\n\r" []
   else printf "\r\n\r\n" []) ;;
  ret (response =? 121).

(** *** [update_mos] *)

(** Lines 106-116: erase every page of the flash. *)
Definition erase_pages : M F unit :=
  for_each (range (FLASHPAGES L))
           (fun counter => out_page counter ;; erase_and_poll).

(** Lines 120-126. *)
Definition pagemax_of (filesize : Z) : Z :=
  if negb (filesize mod PAGESIZE L =? 0)
  then u24 (filesize / PAGESIZE L + 1) else filesize / PAGESIZE L.

Definition lastpagebytes_of (filesize : Z) : Z :=
  if negb (filesize mod PAGESIZE L =? 0)
  then filesize mod PAGESIZE L else PAGESIZE L.

(** Lines 129-142: the counter runs over [counters]. *)
Fixpoint write_pages (counters : list Z) (pagemax lastpagebytes : Z)
         (addressto addressfrom : Z) : M F unit :=
  match counters with
  | [] => ret tt
  | counter :: rest =>
      printf "\rWriting flash page %03d/%03d" [u24 (counter + 1); pagemax] ;;
      (if counter =? u24 (pagemax - 1)
       then fastmemcpy addressto addressfrom lastpagebytes
       else fastmemcpy addressto addressfrom (PAGESIZE L)) ;;
      write_pages rest pagemax lastpagebytes
                  (u24 (addressto + PAGESIZE L)) (u24 (addressfrom + PAGESIZE L))
  end.

(** Lines 94-155: the body of the [while] loop; its value is [success]. *)
Definition attempt_body (attempt : Z) : M F bool :=
  (if 0 <? attempt then printf "Retry attempt #%d\r\n" [attempt] else ret tt) ;;
  printf "Erasing flash... " [] ;;
  enableFlashKeyRegister ;;
  out_prot 0 ;;
  enableFlashKeyRegister ;;
  out_fdiv 0x5F ;;
  erase_pages ;;
  printf "\r\n" [] ;;
  size <- gets filesize ;;
  write_pages (range (pagemax_of size)) (pagemax_of size) (lastpagebytes_of size)
              (u24 (FLASHSTART L)) (u24 (BUFFER1 L)) ;;
  lockFlashKeyRegister ;;
  printf "\r\nChecking CRC... " [] ;;
  crc32_initialize ;;
  crc32 (FLASHSTART L) size ;;
  crcresult <- crc32_finalize ;;
  expected <- gets moscrc ;;
  if crcresult =? expected
  then printf "OK\r\n" [] ;; ret true
  else printf "ERROR\r\n" [] ;; ret false.

(** [while((!success) && (attempt < 3))].  [budget] bounds the number of
    iterations for the recursion; [update_mos] starts it at the 3
    iterations the condition allows. *)
Fixpoint attempts (budget : nat) (success : bool) (attempt : Z) : M F bool :=
  match budget with
  | O => ret success
  | S budget' =>
      if negb success && (attempt <? 3)
      then success' <- attempt_body attempt ;;
           attempts budget' success' (attempt + 1)
      else ret success
  end.

(** Lines 88-90. *)
Definition update_mos_prologue : M F unit :=
  printf "Programming MOS firmware to ez80 flash...\r\n\r\n" [] ;;
  di.

Definition update_mos : M F bool :=
  update_mos_prologue ;;
  success <- attempts 3 false 0 ;;
  printf "\r\n" [] ;;
  ret success.

(** *** [filesExist] *)
Definition filesExist : M F bool :=
  name <- gets mosfilename ;;
  file <- mos_fopen name ;;
  filesexist <-
    (if file =? 0
     then emit (PrintfS ("Error opening MOS firmware \" ++ dq ++ "%s\" ++ dq
                         ++ "\n\r") name) ;; ret false
     else ret true) ;;
  mos_fclose file ;;
  ret filesexist.

(** *** [validFirmware] *)
Definition validFirmware : M F bool :=
  name <- gets mosfilename ;;
  header <- gets (fun w => containsMosHeader (load w) (BUFFER1 L)) ;;
  validfirmware <-
    (if negb header
     then emit (PrintfS ("\" ++ dq ++ "%s\" ++ dq
                         ++ " does not contain valid MOS ez80 startup code\r\n")
                        name) ;; ret false
     else ret true) ;;
  size <- gets filesize ;;
  if FLASHSIZE L <? size
  then emit (PrintfS ("\" ++ dq ++ "%s\" ++ dq
                      ++ " too large for 128KB embedded flash\r\n") name) ;;
       ret false
  else ret validfirmware.

(** *** [showCRC32], [calculateCRC32] *)
Definition showCRC32 : M F unit :=
  value <- gets moscrc ;;
  printf "MOS CRC 0x%04lX\r\n" [value] ;;
  printf "\r\n" [].

Definition calculateCRC32 : M F unit :=
  modify (set_moscrc 0) ;;
  printf "\r\nCalculating CRC...\r\n" [] ;;
  crc32_initialize ;;
  size <- gets filesize ;;
  crc32 (BUFFER1 L) size ;;
  value <- crc32_finalize ;;
  modify (set_moscrc value) ;;
  printf "\r\n\r\n" [].

(** *** [readMemory]: the loop runs over the unread bytes of the file *)
Fixpoint readMemory_loop (unread : list Z) (ptr size : Z) : M F Z :=
  match unread with
  | [] => ret size
  | byte :: rest =>
      modify (set_openfile rest) ;;
      store ptr byte ;;
      (if u24 (size + 1) mod 2048 =? 0 then printf "." [] else ret tt) ;;
      readMemory_loop rest (u24 (ptr + 1)) (u24 (size + 1))
  end.

Definition readMemory (filename : string) : M F Z :=
  printf ("Reading \" ++ dq ++ "MOS.bin\" ++ dq ++ " to memory") [] ;;
  name <- gets mosfilename ;;
  file <- mos_fopen name ;;
  unread <- gets openfile ;;
  size <- readMemory_loop unread (BUFFER1 L) 0 ;;
  mos_fclose file ;;
  ret size.

(** *** [main] *)
Definition EXIT_FILENOTFOUND : Z := 4.
Definition EXIT_INVALIDPARAMETER : Z := 19.
Definition DEFAULT_MOSFIRMWARE : string := "MOS.bin".

(** Lines 235-255: everything before the flash is touched.  The value
    is the exit status of an early [return], or [None] when [main]
    goes on to [update_mos]. *)
Definition preflight : M F (option Z) :=
  modify (set_mosfilename DEFAULT_MOSFIRMWARE) ;;
  exist <- filesExist ;;
  if negb exist then ret (Some EXIT_FILENOTFOUND) else
  valid <- validFirmware ;;
  if negb valid then ret (Some EXIT_INVALIDPARAMETER) else
  putch 12 ;;
  print_version ;;
  name <- gets mosfilename ;;
  size <- readMemory name ;;
  modify (set_filesize size) ;;
  if size =? 0
  then printf "\r\nError reading from SD card\r\n" [] ;; ret (Some 0)
  else
  calculateCRC32 ;;
  showCRC32 ;;
  go <- getResponse ;;
  if negb go then ret (Some 0) else ret None.

(** Lines 257-263 follow the early returns. *)
Definition main : M F Z :=
  early <- preflight ;;
  match early with
  | Some status => ret status
  | None =>
      flashed <- update_mos ;;
      if flashed
      then printf "Done\r\n\r\n" [] ;;
           printf "Please don't forget to update the VDP\r\n" [] ;;
           printf "It is OK to reset or shut down the system now " [] ;;
           stop AwaitReset
      else ret 0
  end.

End Program.

(** ** Simulated devices and machines to run the program on *)

(** Bit [i] of FLASH_PROT protects the [i]-th eighth of the flash. *)
Definition protected (L : layout) (prot a : Z) : bool :=
  Z.testbit prot ((a - FLASHSTART L) / (FLASHSIZE L / 8)).

(** A flash that works: an erase sets the bytes of an unprotected page to
    [0xFF], a store can only clear bits of an unprotected byte. *)
Definition ideal (L : layout) : device (Z -> Z) :=
  {| dev_erase := fun prot page f =>
       Some (fun a =>
               if negb (protected L prot a)
                  && ((a - FLASHSTART L) / PAGESIZE L =? page)
               then 0xFF else f a);
     dev_program := fun prot a b f =>
       if protected L prot a then f
       else fun x => if x =? a then Z.land (f a) b else f x;
     dev_read := fun f a => f a |}.

(** A flash whose stores are lost until it has been erased [n] times
    (counted at page 0). *)
Definition flaky (L : layout) : device (nat * (Z -> Z)) :=
  {| dev_erase := fun prot page s =>
       match dev_erase (ideal L) prot page (snd s) with
       | Some f => Some (if page =? 0 then pred (fst s) else fst s, f)
       | None => None
       end;
     dev_program := fun prot a b s =>
       match fst s with
       | O => (O, dev_program (ideal L) prot a b (snd s))
       | S _ => s
       end;
     dev_read := fun s a => snd s a |}.

(** A flash whose page [p] never finishes erasing. *)
Definition stuck (L : layout) (p : Z) : device (Z -> Z) :=
  {| dev_erase := fun prot page f =>
       if page =? p then None else dev_erase (ideal L) prot page f;
     dev_program := dev_program (ideal L);
     dev_read := dev_read (ideal L) |}.

(** The machine when the utility is started: interrupts on, flash
    protected, globals as initialised in [main.c]. *)
Definition boot {F : Type} (f : F) (memory : Z -> Z)
           (sd : string -> option (list Z)) (typed : list Z) : world F :=
  {| irq := true; key_open := false; prot := 0xFF; fdiv := 1; page := 0;
     flash := f; ram := memory; mosfilename := EmptyString; moscrc := 0;
     filesize := 0; crc := 0; card := sd; openfile := []; keys := typed;
     log := [] |}.

(** An SD card holding [MOS.bin] with the given bytes, and one without. *)
Definition sd_with (bytes : list Z) : string -> option (list Z) :=
  fun name => if String.eqb name "MOS.bin" then Some bytes else None.
Definition sd_empty : string -> option (list Z) := fun _ => None.

(** Memory images: all zero, and one that holds [bytes] at [BUFFER1],
    as an earlier load leaves them. *)
Definition blank : Z -> Z := fun _ => 0.
Definition holding (L : layout) (bytes : list Z) : Z -> Z :=
  fun a => if BUFFER1 L <=? a then nth (Z.to_nat (a - BUFFER1 L)) bytes 0 else 0.

(** A small firmware image with the MOS header, and one without. *)
Definition firmware : list Z := [0xF3; 0xED; 0x7D; 0x5B; 0xC3; 0x00; 0x01; 0x40].
Definition garbage : list Z := [0x47; 0x49; 0x46; 0x38; 0x39; 0x61; 0x10; 0x00].

(** The operations of the log that touch the flash controller or array. *)
Definition flash_op (e : event) : bool :=
  match e with
  | EnableFlashKeyRegister | LockFlashKeyRegister | Out _ _ | Fastmemcpy _ _ _ => true
  | _ => false
  end.

Definition ops {F : Type} (w : world F) : list event := map op (log w).

(** The ASCII digits "123456789". *)
Definition digits : list Z := [49; 50; 51; 52; 53; 54; 55; 56; 57].

(** The Agon with [firmware] on the card and still in memory, the user
    answering "y", at the moment [main] calls [update_mos]: on a flash
    that works, and on one that loses the stores of its first [n - 1]
    attempts. *)
Definition confirmed : world (Z -> Z) :=
  final (preflight (ideal agon) agon
           (boot (fun _ => 0) (holding agon firmware) (sd_with firmware) [121])).

Definition confirmed_flaky (n : nat) : world (nat * (Z -> Z)) :=
  final (preflight (flaky agon) agon
           (boot (n, fun _ => 0) (holding agon firmware) (sd_with firmware) [121])).

(** A toy geometry, 8 pages of 4 bytes, and an image one byte larger
    than its flash. *)
Definition tiny : layout :=
  {| PAGESIZE := 4; FLASHPAGES := 8; FLASHSTART := 0; FLASHSIZE := 32;
     BUFFER1 := 64 |}.
Definition oversized : list Z := firmware ++ repeat 0xAA 25.

(** The machine at the start of [main], an earlier load of [firmware]
    still in memory, with the given file on the card. *)
Definition started (L : layout) (file : option (list Z)) : world (Z -> Z) :=
  boot (fun _ => 0) (holding L firmware)
       (match file with Some bytes => sd_with bytes | None => sd_empty end)
       [121].

(** ** Vocabulary of the traces *)

(** Accesses to the flash controller and array, and the checksum pass:
    the steps of an erase-program-verify cycle. *)
Definition cycle_op (e : event) : bool :=
  match e with
  | Crc32 _ _ => true
  | _ => flash_op e
  end.

(** The erase phase of one cycle: every page of the flash, in order. *)
Definition erase_events (L : layout) : list event :=
  flat_map (fun counter => [Out FLASH_PAGE (u8 counter); Out FLASH_PGCTL 0x02])
           (range (FLASHPAGES L)).

(** The log of [write_pages]. *)
Fixpoint write_events (L : layout) (counters : list Z) (pagemax lastpagebytes : Z)
         (addressto addressfrom : Z) : list event :=
  match counters with
  | [] => []
  | counter :: rest =>
      Printf "\rWriting flash page %03d/%03d" [u24 (counter + 1); pagemax]
      :: Fastmemcpy addressto addressfrom
           (if counter =? u24 (pagemax - 1) then lastpagebytes else PAGESIZE L)
      :: write_events L rest pagemax lastpagebytes
           (u24 (addressto + PAGESIZE L)) (u24 (addressfrom + PAGESIZE L))
  end.

(** The log of one whole attempt on an image of [size] bytes whose
    verification ends with [verdict]. *)
Definition attempt_events (L : layout) (attempt size : Z) (verdict : bool)
  : list event :=
  (if 0 <? attempt then [Printf "Retry attempt #%d\r\n" [attempt]] else [])
  ++ [Printf "Erasing flash... " []; EnableFlashKeyRegister; Out FLASH_PROT 0;
      EnableFlashKeyRegister; Out FLASH_FDIV 0x5F]
  ++ erase_events L
  ++ [Printf "\r\n" []]
  ++ write_events L (range (pagemax_of L size)) (pagemax_of L size)
       (lastpagebytes_of L size) (u24 (FLASHSTART L)) (u24 (BUFFER1 L))
  ++ [LockFlashKeyRegister; Printf "\r\nChecking CRC... " [];
      Crc32 (FLASHSTART L) size;
      Printf (if verdict then "OK\r\n" else "ERROR\r\n") []].

(** The page writes of one programming phase, page by page: page [i]
    goes to [FLASHSTART + i * PAGESIZE] from [BUFFER1 + i * PAGESIZE]. *)
Definition page_writes (L : layout) (size : Z) : list event :=
  map (fun i => Fastmemcpy (u24 (FLASHSTART L + i * PAGESIZE L))
                           (u24 (BUFFER1 L + i * PAGESIZE L))
                           (if i =? u24 (pagemax_of L size - 1)
                            then lastpagebytes_of L size else PAGESIZE L))
      (range (pagemax_of L size)).

(** One full erase-program-verify cycle, as the hardware sees it:
    unprotect, set the erase timing, erase every page, write every page
    of the image; then lock the key register and run the checksum over
    the flash. *)
Definition erase_and_program (L : layout) (size : Z) : list event :=
  [EnableFlashKeyRegister; Out FLASH_PROT 0; EnableFlashKeyRegister;
   Out FLASH_FDIV 0x5F]
  ++ erase_events L
  ++ page_writes L size.

Definition full_cycle (L : layout) (size : Z) : list event :=
  erase_and_program L size
  ++ [LockFlashKeyRegister; Crc32 (FLASHSTART L) size].

Definition copy_length (e : event) : Z :=
  match e with Fastmemcpy _ _ len => len | _ => 0 end.

Definition sumZ (l : list Z) : Z := fold_right Z.add 0 l.

(** The verdict of attempt [n + 1] when the attempts from number
    [attempt] on are run back to back from [w]; [None] when the erase
    stalls on the way. *)
Fixpoint verdict_from {F : Type} (dev : device F) (L : layout) (n : nat)
         (attempt : Z) (w : world F) : option bool :=
  match attempt_body dev L attempt w with
  | Ret ok w' =>
      match n with
      | O => Some ok
      | S n' => verdict_from dev L n' (attempt + 1) w'
      end
  | Hung _ _ => None
  end.

(** The verdict the device gives on attempt [k] (counted from 1) of the
    flash operation started in [w]. *)
Definition verdict {F : Type} (dev : device F) (L : layout) (k : nat)
           (w : world F) : option bool :=
  verdict_from dev L (pred k) 0 (final (update_mos_prologue w)).

(** Verification first succeeds on attempt [k]. *)
Definition first_success {F : Type} (dev : device F) (L : layout) (k : nat)
           (w : world F) : Prop :=
  (forall j, (1 <= j < k)%nat -> verdict dev L j w = Some false)
  /\ verdict dev L k w = Some true.

(** Ceiling of clock frequency times pulse width, the frequency in Hz
    and the width in tenths of a microsecond. *)
Definition erase_timing_divisor (hz tenths_of_us : Z) : Z :=
  (hz * tenths_of_us + (10000000 - 1)) / 10000000.

(** The bytes the checksum pass over [len] bytes at [ptr] reads. *)
Definition loaded {F : Type} (dev : device F) (L : layout) (w : world F)
           (ptr len : Z) : list Z :=
  map (fun i => load dev L w (ptr + i)) (range len).

(** What no step of the flash operation changes, and what the erase,
    programming and checksum loops leave alone besides. *)
Definition steady {F : Type} (w w' : world F) : Prop :=
  irq w' = irq w /\ key_open w' = key_open w /\ prot w' = prot w
  /\ fdiv w' = fdiv w /\ filesize w' = filesize w /\ moscrc w' = moscrc w.

(** [m] returns [a] from [w] in [w'], having logged [evs] and changed
    nothing that is [steady]. *)
Definition yields {F A : Type} (m : M F A) (w : world F) (a : A)
           (evs : list event) (w' : world F) : Prop :=
  m w = Ret a w' /\ steady w w' /\ log w' = log w ++ map (At (irq w)) evs.

(** Every entry was logged with interrupts disabled. *)
Definition all_masked (entries : list entry) : Prop :=
  Forall (fun e => irq_on e = false) entries.

(** [m], started with interrupts disabled, keeps them disabled to its
    end, whether it returns or not. *)
Definition masked {F A : Type} (m : M F A) : Prop :=
  forall w, irq w = false ->
            irq (final (m w)) = false
            /\ exists entries, log (final (m w)) = log w ++ entries
                               /\ all_masked entries.

(** [w'] is reached from [w] by steps of the flash operation that logged
    [evs] and left the key register, FLASH_PROT and FLASH_FDIV at [ko],
    [p] and [fd]. *)
Definition reaches {F : Type} (w' w : world F) (ko : bool) (p fd : Z)
           (evs : list event) : Prop :=
  irq w' = irq w /\ filesize w' = filesize w /\ moscrc w' = moscrc w
  /\ key_open w' = ko /\ prot w' = p /\ fdiv w' = fd
  /\ log w' = log w ++ map (At (irq w)) evs.

(** The log of the [while] loop whose attempts, numbered from [attempt],
    end with the given verdicts. *)
Fixpoint loop_events (L : layout) (size attempt : Z) (verdicts : list bool)
  : list event :=
  match verdicts with
  | [] => []
  | v :: rest =>
      attempt_events L attempt size v ++ loop_events L size (attempt + 1) rest
  end.

(** The verdicts of a loop that ran [k] attempts and returned [b]: all
    but the last attempt failed. *)
Definition verdicts_of (k : nat) (b : bool) : list bool :=
  repeat false (pred k) ++ [b].

Definition is_copy (e : event) : bool :=
  match e with Fastmemcpy _ _ _ => true | _ => false end.

(** What a run of [update_mos] that makes [k] attempts and returns [b]
    adds to the log, [mask] being the interrupt state it was called in. *)
Definition update_mos_log (L : layout) (size : Z) (mask : bool) (k : nat)
           (b : bool) : list entry :=
  [At mask (Printf "Programming MOS firmware to ez80 flash...\r\n\r\n" []);
   At mask Di]
  ++ map (At false) (loop_events L size 0 (verdicts_of k b) ++ [Printf "\r\n" []]).

Definition is_fdiv_write (e : event) : bool :=
  match e with Out FLASH_FDIV _ => true | _ => false end.


(** The readings of the spec that the code does not bear out, each as a
    statement about one run. *)

(** "Interrupts are re-enabled when the operation terminates." *)
Definition reenabled_on_return {F : Type} (dev : device F) (L : layout)
           (w : world F) : Prop :=
  forall b w', update_mos dev L w = Ret b w' -> irq w' = true.

(** "The divisor written is the ceiling of [hz] times [tenths_of_us]." *)
Definition divisor_is_ceiling {F : Type} (dev : device F) (L : layout)
           (hz tenths_of_us : Z) (w : world F) : Prop :=
  forall b w', update_mos dev L w = Ret b w' ->
               fdiv w' = erase_timing_divisor hz tenths_of_us.

(** No flash mutation between [w] and [w']: the array, the protection
    and timing registers and the key register are as they were, and no
    access to the flash controller or array was logged. *)
Definition untouched {F : Type} (w w' : world F) : Prop :=
  flash w' = flash w /\ prot w' = prot w /\ fdiv w' = fdiv w
  /\ key_open w' = key_open w
  /\ exists added,
      log w' = log w ++ added
      /\ forallb (fun e => negb (flash_op (op e))) added = true.

(** "A fail-fast outcome returns a non-zero status." *)
Definition exits_nonzero {F : Type} (dev : device F) (L : layout)
           (w : world F) : Prop :=
  forall status w', main dev L w = Ret status w' -> status <> 0.

(** [FLASH_PROT = 0]: the step that opens an attempt. *)
Definition is_unprotect (e : event) : bool :=
  match e with Out FLASH_PROT _ => true | _ => false end.

Definition count_ops (P : event -> bool) (entries : list entry) : nat :=
  List.length (filter (fun e => P (op e)) entries).

(** [m] logs at most [n] steps that satisfy [P], whether it returns or
    not. *)
Definition adds {F A : Type} (P : event -> bool) (n : nat) (m : M F A) : Prop :=
  forall w, exists added,
      log (final (m w)) = log w ++ added /\ (count_ops P added <= n)%nat.

(** ** The round trip on a flash that works *)

(** A geometry the 24-bit machine can hold, with an 8-bit page register,
    and an image of [size] bytes in a buffer outside the flash. *)
Definition sane (L : layout) (size : Z) : Prop :=
  0 < PAGESIZE L
  /\ 0 <= FLASHPAGES L <= 256
  /\ FLASHSIZE L = FLASHPAGES L * PAGESIZE L
  /\ 0 <= FLASHSTART L
  /\ FLASHSTART L + FLASHSIZE L <= 2 ^ 24
  /\ 0 <= BUFFER1 L
  /\ BUFFER1 L + size <= 2 ^ 24
  /\ (BUFFER1 L + size <= FLASHSTART L \/ FLASHSTART L + FLASHSIZE L <= BUFFER1 L)
  /\ 0 < size <= FLASHSIZE L.

(** The first [t] bytes of the flash hold the image that the memory [r]
    has at [BUFFER1]; the rest of the flash is still erased. *)
Definition programmed (L : layout) (r : Z -> Z) (t : Z) (w : world (Z -> Z))
  : Prop :=
  ram w = r /\ prot w = 0
  /\ (forall j, 0 <= j < t -> flash w (FLASHSTART L + j) = u8 (r (BUFFER1 L + j)))
  /\ (forall j, t <= j < FLASHSIZE L -> flash w (FLASHSTART L + j) = 0xFF).

(** ** What the programming phase asks of the device *)

(** [dev] with a record of the stores asked of it: every byte that
    reaches the flash is noted, with its address, in the order of
    arrival, and handed on to [dev]. *)
Definition traced {F : Type} (dev : device F) : device (F * list (Z * Z)) :=
  {| dev_erase := fun prot page s =>
       match dev_erase dev prot page (fst s) with
       | Some f => Some (f, snd s)
       | None => None
       end;
     dev_program := fun prot a b s =>
       (dev_program dev prot a b (fst s), snd s ++ [(a, b)]);
     dev_read := fun s a => dev_read dev (fst s) a |}.

Definition stores {F : Type} (w : world (F * list (Z * Z))) : list (Z * Z) :=
  snd (flash w).

(** The first [t] bytes of the image that the memory [r] has at
    [BUFFER1], each with its place in the flash, lowest address first. *)
Definition image_stores (L : layout) (r : Z -> Z) (t : Z) : list (Z * Z) :=
  map (fun j => (FLASHSTART L + j, u8 (r (BUFFER1 L + j)))) (range t).

(** ** Vocabulary of the further properties *)

(** The answer [getResponse] reads off a key: the [uint8_t] that
    [tolower] leaves. *)
Definition answer (c : Z) : Z := u8 (tolower c).

(** A key ends the wait when it answers 'y' or 'n'; it says yes when it
    answers 'y'. *)
Definition decisive (c : Z) : bool := (answer c =? 121) || (answer c =? 110).
Definition says_yes (c : Z) : bool := answer c =? 121.

(** Nothing of the machine moved between [w] and [w']: registers,
    globals, memory and flash are as they were. *)
Definition unchanged {F : Type} (w w' : world F) : Prop :=
  steady w w' /\ ram w' = ram w /\ flash w' = flash w.

(** [m] stops short of returning only in the poll loop of an erase: the
    erase command is the last thing logged, and the device has left the
    erase of the page selected pending. *)
Definition stalls_only {F A : Type} (dev : device F) (m : M F A) : Prop :=
  forall w h w',
    m w = Hung h w' ->
    h = EraseStall
    /\ dev_erase dev (prot w') (page w') (flash w') = None
    /\ exists before, log w' = before ++ [At (irq w') (Out FLASH_PGCTL 0x02)].

(** [m] returns from every state. *)
Definition returns {F A : Type} (m : M F A) : Prop :=
  forall w, exists a w', m w = Ret a w'.

(** A file of [n] bytes fits the buffer: it lies between [BUFFER1] and
    the end of the 24-bit address space, clear of the flash. *)
Definition buffer_holds (L : layout) (n : Z) : Prop :=
  0 <= BUFFER1 L /\ n < 2 ^ 24 /\ BUFFER1 L + n <= 2 ^ 24
  /\ forall i, 0 <= i < n -> in_flash L (BUFFER1 L + i) = false.

(** What [main] logs on its way to the prompt, for a file of [n] bytes
    whose checksum is [value]: the console output, and the checksum
    pass over the buffer. *)
Definition preamble (L : layout) (n value : Z) : list event :=
  [Putch 12;
   Printf "Agon legacy firmware update utility\n\r\n\r" [];
   Printf ("Reading \" ++ dq ++ "MOS.bin\" ++ dq ++ " to memory") []]
  ++ repeat (Printf "." []) (Z.to_nat (n / 2048))
  ++ [Printf "\r\nCalculating CRC...\r\n" [];
      Crc32 (BUFFER1 L) n;
      Printf "\r\n\r\n" [];
      Printf "MOS CRC 0x%04lX\r\n" [value];
      Printf "\r\n" []].

(** What the flash operation has no business with: memory outside the
    flash, the globals of [main.c], the card and the keyboard. *)
Definition bystanders {F : Type} (w : world F) :=
  (ram w, mosfilename w, moscrc w, filesize w, card w, openfile w, keys w).

(** [m], started with a [filesize] that satisfies [P], leaves the
    bystanders as they were, whether it returns or not. *)
Definition spares {F A : Type} (P : Z -> Prop) (m : M F A) : Prop :=
  forall w, P (filesize w) -> bystanders (final (m w)) = bystanders w.

(** * Proofs *)

(** ** [containsMosHeader] *)

(** C8.  [containsMosHeader] answers true exactly when the five bytes at
    [filestart] are F3 ED 7D 5B C3, and its answer depends on those five
    bytes only: two memories that agree on them get the same answer. *)
Theorem containsMosHeader_spec :
  forall (mem : Z -> Z) (filestart : Z),
    (containsMosHeader mem filestart = true <->
       map (fun n => mem (u24 (filestart + n))) [0; 1; 2; 3; 4]
       = [0xF3; 0xED; 0x7D; 0x5B; 0xC3])
    /\ (forall mem' : Z -> Z,
          (forall n, 0 <= n < 5 ->
                     mem' (u24 (filestart + n)) = mem (u24 (filestart + n))) ->
          containsMosHeader mem' filestart = containsMosHeader mem filestart).
Proof.
  intros mem p.
  assert (E : forall m, containsMosHeader m p =
            ((0xF3 =? m (u24 (p + 0))) && (0xED =? m (u24 (p + 1)))
             && (0x7D =? m (u24 (p + 2))) && (0x5B =? m (u24 (p + 3)))
             && (0xC3 =? m (u24 (p + 4))))%bool).
  { intro m. unfold containsMosHeader.
    change (range MOS_MAGICLENGTH) with [0; 1; 2; 3; 4].
    cbn [fold_left]. unfold mos_magicnumbers.
    change (Z.to_nat 0) with 0%nat. change (Z.to_nat 1) with 1%nat.
    change (Z.to_nat 2) with 2%nat. change (Z.to_nat 3) with 3%nat.
    change (Z.to_nat 4) with 4%nat. cbn [nth].
    destruct (0xF3 =? m (u24 (p + 0))), (0xED =? m (u24 (p + 1))),
      (0x7D =? m (u24 (p + 2))), (0x5B =? m (u24 (p + 3))),
      (0xC3 =? m (u24 (p + 4))); reflexivity. }
  split.
  - rewrite E, !andb_true_iff, !Z.eqb_eq. split.
    + intros [[[[e0 e1] e2] e3] e4]. cbn [map]. congruence.
    + cbn [map]. intro H. injection H as e0 e1 e2 e3 e4. repeat split; congruence.
  - intros mem' Hagree. rewrite !E, !Hagree by lia. reflexivity.
Qed.

Lemma containsMosHeader_spec_witness :
  containsMosHeader (holding agon firmware) (BUFFER1 agon) = true
  /\ containsMosHeader
       (fun a => if a =? BUFFER1 agon + 5 then 0xAA else holding agon firmware a)
       (BUFFER1 agon)
     = containsMosHeader (holding agon firmware) (BUFFER1 agon).
Proof.
  split.
  - apply (proj1 (containsMosHeader_spec (holding agon firmware) (BUFFER1 agon))).
    vm_compute. reflexivity.
  - apply (proj2 (containsMosHeader_spec (holding agon firmware) (BUFFER1 agon))).
    intros n Hn.
    assert (E : n = 0 \/ n = 1 \/ n = 2 \/ n = 3 \/ n = 4) by lia.
    destruct E as [-> | [-> | [-> | [-> | ->]]]]; vm_compute; reflexivity.
Defined.

(** ** The checksum unit *)

Lemma range_nth (n : Z) (i : nat) :
  (i < Z.to_nat n)%nat -> nth i (range n) 0 = Z.of_nat i.
Proof.
  intro H. unfold range.
  change 0 with (Z.of_nat 0) at 1. rewrite map_nth, seq_nth by exact H.
  reflexivity.
Qed.

Lemma range_length (n : Z) : List.length (range n) = Z.to_nat n.
Proof. unfold range. rewrite length_map, length_seq. reflexivity. Qed.

Lemma In_range (n i : Z) : In i (range n) <-> 0 <= i < n.
Proof.
  unfold range. rewrite in_map_iff. split.
  - intros [k [<- Hk]]. apply in_seq in Hk. lia.
  - intros H. exists (Z.to_nat i). split; [lia | apply in_seq; lia].
Qed.

Lemma crc32_table_nth (i : Z) :
  0 <= i < 256 -> nth (Z.to_nat i) crc32_table 0 = crc32_shift8 i.
Proof.
  intro H.
  change crc32_table with (map crc32_shift8 (range 256)).
  change 0 with (crc32_shift8 0) at 1.
  rewrite map_nth, range_nth by (change (Z.to_nat 256) with 256%nat; lia).
  f_equal. lia.
Qed.

Lemma crc32_shift_lxor (a b : Z) :
  crc32_shift (Z.lxor a b) = Z.lxor (crc32_shift a) (crc32_shift b).
Proof.
  unfold crc32_shift. rewrite Z.lxor_spec, Z.shiftr_lxor.
  generalize (Z.shiftr a 1) (Z.shiftr b 1) crc32_poly. intros x y p.
  destruct (Z.testbit a 0), (Z.testbit b 0); cbn [xorb];
    apply Z.bits_inj'; intros n _; rewrite ?Z.lxor_spec;
    destruct (Z.testbit x n), (Z.testbit y n), (Z.testbit p n); reflexivity.
Qed.

Lemma crc32_shift8_lxor (a b : Z) :
  crc32_shift8 (Z.lxor a b) = Z.lxor (crc32_shift8 a) (crc32_shift8 b).
Proof. unfold crc32_shift8. rewrite !crc32_shift_lxor. reflexivity. Qed.

Lemma crc32_shift_shiftl (y k : Z) :
  0 <= k -> crc32_shift (Z.shiftl y (k + 1)) = Z.shiftl y k.
Proof.
  intro Hk. unfold crc32_shift.
  rewrite Z.shiftl_spec_low by lia.
  rewrite Z.shiftr_shiftl_l by lia. f_equal. lia.
Qed.

Lemma crc32_shift8_shiftl (y : Z) : crc32_shift8 (Z.shiftl y 8) = y.
Proof.
  unfold crc32_shift8.
  change 8 with (7 + 1). rewrite crc32_shift_shiftl by lia.
  change 7 with (6 + 1). rewrite crc32_shift_shiftl by lia.
  change 6 with (5 + 1). rewrite crc32_shift_shiftl by lia.
  change 5 with (4 + 1). rewrite crc32_shift_shiftl by lia.
  change 4 with (3 + 1). rewrite crc32_shift_shiftl by lia.
  change 3 with (2 + 1). rewrite crc32_shift_shiftl by lia.
  change 2 with (1 + 1). rewrite crc32_shift_shiftl by lia.
  change 1 with (0 + 1). rewrite crc32_shift_shiftl by lia.
  apply Z.shiftl_0_r.
Qed.

Lemma split_low_byte (x : Z) :
  x = Z.lxor (Z.land x 0xFF) (Z.shiftl (Z.shiftr x 8) 8).
Proof.
  apply Z.bits_inj'. intros n Hn.
  rewrite Z.lxor_spec.
  change 0xFF with (Z.ones 8).
  destruct (Z.lt_ge_cases n 8) as [Hlt | Hge].
  - rewrite Z.land_spec, Z.ones_spec_low, Z.shiftl_spec_low by lia.
    rewrite andb_true_r, xorb_false_r. reflexivity.
  - rewrite Z.land_spec, Z.ones_spec_high, Z.shiftl_spec, Z.shiftr_spec by lia.
    rewrite andb_false_r, xorb_false_l. f_equal. lia.
Qed.

Lemma land_byte_range (x : Z) : 0 <= Z.land x 0xFF < 256.
Proof.
  change 0xFF with (Z.ones 8). rewrite Z.land_ones by lia.
  apply Z.mod_pos_bound. reflexivity.
Qed.

(** The table step is the eight bit steps. *)
Lemma crc32_byte_bitwise (acc b : Z) :
  0 <= b < 256 -> crc32_byte acc b = crc32_shift8 (Z.lxor acc b).
Proof.
  intro Hb. unfold crc32_byte.
  rewrite crc32_table_nth by apply land_byte_range.
  rewrite (split_low_byte (Z.lxor acc b)) at 2.
  rewrite crc32_shift8_lxor, crc32_shift8_shiftl.
  f_equal. rewrite Z.shiftr_lxor.
  replace (Z.shiftr b 8) with 0; [symmetry; apply Z.lxor_0_r |].
  symmetry. apply Z.shiftr_eq_0; [lia |].
  destruct (Z.eq_dec b 0) as [-> | Hnz]; [reflexivity |].
  apply Z.log2_lt_pow2; lia.
Qed.

Lemma u8_range (x : Z) : 0 <= u8 x < 256.
Proof. unfold u8. apply Z.mod_pos_bound. reflexivity. Qed.

Lemma crc32_fold_bitwise (bytes : list Z) :
  Forall (fun b => 0 <= b < 256) bytes ->
  forall acc,
    fold_left crc32_byte bytes acc
    = fold_left (fun a b => crc32_shift8 (Z.lxor a b)) bytes acc.
Proof.
  induction 1 as [| b bytes Hb _ IH]; intro acc; cbn [fold_left].
  - reflexivity.
  - rewrite crc32_byte_bitwise by exact Hb. apply IH.
Qed.

Lemma loaded_bytes {F : Type} (dev : device F) (L : layout) (w : world F)
      (ptr len : Z) :
  Forall (fun b => 0 <= b < 256) (loaded dev L w ptr len).
Proof.
  unfold loaded. apply Forall_forall. intros b Hb.
  apply in_map_iff in Hb. destruct Hb as [i [<- _]].
  unfold load. destruct (in_flash L (u24 (ptr + i))); apply u8_range.
Qed.

Lemma calculateCRC32_ret {F : Type} (dev : device F) (L : layout) (w : world F) :
  exists w',
    calculateCRC32 dev L w = Ret tt w'
    /\ ram w' = ram w /\ flash w' = flash w /\ filesize w' = filesize w
    /\ moscrc w' = crc32_bitwise (loaded dev L w (BUFFER1 L) (filesize w)).
Proof.
  unfold calculateCRC32, crc32, crc32_initialize, crc32_finalize, printf,
    emit, modify, gets, bind.
  cbn [set_moscrc set_log set_crc log irq crc filesize moscrc].
  eexists. split; [reflexivity |].
  cbn [ram flash filesize moscrc set_moscrc set_log].
  split; [reflexivity | split; [reflexivity | split; [reflexivity |]]].
  unfold crc32_bitwise. f_equal.
  apply (crc32_fold_bitwise _ (loaded_bytes dev L w (BUFFER1 L) (filesize w))).
Qed.

(** C6.  [calculateCRC32] leaves in [moscrc] the reflected CRC-32 of the
    [filesize] bytes at [BUFFER1]: seed [0xFFFFFFFF], polynomial
    [0xEDB88320], final XOR with [0xFFFFFFFF]; the table-driven unit
    agrees with the bit-by-bit definition on every input.  On the nine
    ASCII digits "123456789" the value is [0xCBF43926]. *)
Theorem calculateCRC32_standard :
  (forall (F : Type) (dev : device F) (L : layout) (w : world F),
      exists w',
        calculateCRC32 dev L w = Ret tt w'
        /\ moscrc w' = crc32_bitwise (loaded dev L w (BUFFER1 L) (filesize w)))
  /\ crc32_seed = 0xFFFFFFFF
  /\ crc32_poly = 0xEDB88320
  /\ crc32_bitwise digits = 0xCBF43926
  /\ (exists w',
        calculateCRC32 (ideal agon) agon
          (set_filesize 9 (boot (fun _ => 0) (holding agon digits) sd_empty []))
        = Ret tt w'
        /\ moscrc w' = 0xCBF43926).
Proof.
  split; [| split; [reflexivity | split; [reflexivity | split]]].
  - intros F dev L w.
    destruct (calculateCRC32_ret dev L w) as (w' & E & _ & _ & _ & V).
    exists w'. split; assumption.
  - vm_compute. reflexivity.
  - destruct (calculateCRC32_ret (ideal agon) agon
                (set_filesize 9 (boot (fun _ => 0) (holding agon digits) sd_empty [])))
      as (w' & E & _ & _ & _ & V).
    exists w'. split; [exact E |]. rewrite V. vm_compute. reflexivity.
Qed.

(** ** Running the monad *)

Section Running.
Context {F : Type}.
Variable dev : device F.
Variable L : layout.

Lemma steady_refl (w : world F) : steady w w.
Proof. repeat split. Qed.

Lemma steady_trans (w1 w2 w3 : world F) :
  steady w1 w2 -> steady w2 w3 -> steady w1 w3.
Proof. unfold steady. intuition congruence. Qed.

Lemma bind_ret_inv {A B : Type} (m : M F A) (k : A -> M F B) w b w' :
  bind m k w = Ret b w' -> exists a w1, m w = Ret a w1 /\ k a w1 = Ret b w'.
Proof.
  unfold bind. destruct (m w) as [a w1 | h w1]; [| discriminate].
  intro H. exists a, w1. split; [reflexivity | exact H].
Qed.

Lemma yields_ret {A : Type} (a : A) (w : world F) : yields (ret a) w a [] w.
Proof.
  split; [reflexivity | split; [apply steady_refl |]].
  cbn [map]. symmetry. apply app_nil_r.
Qed.

Lemma yields_bind {A B : Type} (m : M F A) (k : A -> M F B) w a e1 w1 b e2 w2 :
  yields m w a e1 w1 -> yields (k a) w1 b e2 w2 ->
  yields (bind m k) w b (e1 ++ e2) w2.
Proof.
  intros (Hm & Hs1 & Hl1) (Hk & Hs2 & Hl2). split; [| split].
  - unfold bind. rewrite Hm. exact Hk.
  - eapply steady_trans; eassumption.
  - rewrite Hl2, Hl1, map_app, app_assoc.
    destruct Hs1 as [-> _]. reflexivity.
Qed.

Lemma yields_emit (e : event) (w : world F) :
  yields (emit e) w tt [e] (set_log (log w ++ [At (irq w) e]) w).
Proof. repeat split. Qed.

Lemma yields_printf fmt args (w : world F) :
  yields (printf fmt args) w tt [Printf fmt args]
         (set_log (log w ++ [At (irq w) (Printf fmt args)]) w).
Proof. apply yields_emit. Qed.

Lemma yields_store (a v : Z) (w : world F) :
  exists w', yields (store dev L a v) w tt [] w'.
Proof.
  unfold store, modify. eexists. split; [reflexivity |].
  destruct (in_flash L (u24 a)); cbn; repeat split; symmetry; apply app_nil_r.
Qed.

Lemma yields_copy (dst src : Z) (l : list Z) :
  forall w, exists w',
    yields (for_each l (fun i => b <- gets (fun w => load dev L w (src + i)) ;;
                                 store dev L (dst + i) b)) w tt [] w'.
Proof.
  induction l as [| i l IH]; intro w; cbn [for_each].
  - exists w. apply yields_ret.
  - destruct (yields_store (dst + i) (load dev L w (src + i)) w) as [w1 H1].
    destruct (IH w1) as [w2 H2]. exists w2.
    change (@nil event) with (@nil event ++ []).
    eapply yields_bind; [| exact H2].
    destruct H1 as (E & S & Lg). split; [| split; assumption].
    unfold bind, gets. exact E.
Qed.

Lemma yields_fastmemcpy (dst src len : Z) (w : world F) :
  exists w', yields (fastmemcpy dev L dst src len) w tt
                    [Fastmemcpy dst src len] w'.
Proof.
  unfold fastmemcpy.
  destruct (yields_copy dst src (range len)
              (set_log (log w ++ [At (irq w) (Fastmemcpy dst src len)]) w))
    as [w' H].
  exists w'. change [Fastmemcpy dst src len] with ([Fastmemcpy dst src len] ++ []).
  eapply yields_bind; [apply yields_emit | exact H].
Qed.

Lemma yields_write_pages (pagemax lastpagebytes : Z) (counters : list Z) :
  forall addressto addressfrom w, exists w',
    yields (write_pages dev L counters pagemax lastpagebytes addressto addressfrom)
           w tt
           (write_events L counters pagemax lastpagebytes addressto addressfrom)
           w'.
Proof.
  induction counters as [| counter rest IH]; intros ato afrom w;
    cbn [write_pages write_events].
  - exists w. apply yields_ret.
  - set (len := if counter =? u24 (pagemax - 1) then lastpagebytes else PAGESIZE L).
    pose proof (yields_printf "\rWriting flash page %03d/%03d"
                  [u24 (counter + 1); pagemax] w) as H0.
    destruct (yields_fastmemcpy ato afrom len
                (set_log (log w ++ [At (irq w)
                   (Printf "\rWriting flash page %03d/%03d"
                           [u24 (counter + 1); pagemax])]) w)) as [w1 H1].
    destruct (IH (u24 (ato + PAGESIZE L)) (u24 (afrom + PAGESIZE L)) w1)
      as [w2 H2].
    exists w2.
    change (?a :: ?b :: ?t) with ([a] ++ [b] ++ t).
    eapply yields_bind; [exact H0 |].
    eapply yields_bind; [| exact H2].
    subst len. destruct (counter =? u24 (pagemax - 1)); exact H1.
Qed.

Lemma yields_erase_pages (counters : list Z) :
  forall w w',
    for_each counters (fun counter => out_page counter ;; erase_and_poll dev) w
    = Ret tt w' ->
    yields (for_each counters
              (fun counter => out_page counter ;; erase_and_poll dev))
           w tt
           (flat_map (fun counter => [Out FLASH_PAGE (u8 counter);
                                      Out FLASH_PGCTL 0x02]) counters)
           w'.
Proof.
  induction counters as [| counter rest IH]; intros w w' H;
    cbn [for_each flat_map] in *.
  - inversion H. subst. apply yields_ret.
  - apply bind_ret_inv in H. destruct H as ([] & w1 & H1 & H2).
    eapply yields_bind; [| apply IH; exact H2].
    split; [exact H1 |].
    revert H1. unfold out_page, erase_and_poll, bind, emit, modify. cbn.
    destruct (dev_erase dev (prot w) (u8 counter) (flash w)) as [f |];
      [| discriminate].
    intro E. inversion E. subst w1. cbn. rewrite <- app_assoc.
    repeat split.
Qed.

End Running.

(** ** One attempt *)

Section Attempt.
Context {F : Type}.
Variable dev : device F.
Variable L : layout.

Lemma yields_det {A : Type} (m : M F A) w a e w2 a' w2' :
  yields m w a e w2 -> m w = Ret a' w2' -> yields m w a' e w2'.
Proof.
  intros (E & S & Lg) E'. rewrite E in E'. inversion E'. subst.
  split; [exact E | split; assumption].
Qed.

Lemma reaches_start (w : world F) : reaches w w (key_open w) (prot w) (fdiv w) [].
Proof. unfold reaches. cbn [map]. rewrite app_nil_r. repeat split. Qed.

Lemma reaches_yields {A : Type} (m : M F A) w0 w1 ko p fd evs a e w2 :
  reaches w1 w0 ko p fd evs -> yields m w1 a e w2 ->
  reaches w2 w0 ko p fd (evs ++ e).
Proof.
  unfold reaches, yields, steady.
  intros (I & Sz & C & K & P & D & Lg) (_ & (I' & K' & P' & D' & Sz' & C') & Lg').
  repeat split; try congruence.
  rewrite Lg', Lg, I, map_app, app_assoc. reflexivity.
Qed.

Lemma reaches_enable (w0 w1 : world F) ko p fd evs w2 :
  reaches w1 w0 ko p fd evs -> enableFlashKeyRegister w1 = Ret tt w2 ->
  reaches w2 w0 true p fd (evs ++ [EnableFlashKeyRegister]).
Proof.
  unfold reaches. intros (I & Sz & C & K & P & D & Lg) E.
  inversion E. subst w2. cbn [irq filesize moscrc key_open prot fdiv log
                             set_key_open set_log].
  repeat split; try assumption.
  rewrite Lg, I, map_app, app_assoc. reflexivity.
Qed.

Lemma reaches_lock (w0 w1 : world F) ko p fd evs w2 :
  reaches w1 w0 ko p fd evs -> lockFlashKeyRegister w1 = Ret tt w2 ->
  reaches w2 w0 false p fd (evs ++ [LockFlashKeyRegister]).
Proof.
  unfold reaches. intros (I & Sz & C & K & P & D & Lg) E.
  inversion E. subst w2. cbn [irq filesize moscrc key_open prot fdiv log
                             set_key_open set_log].
  repeat split; try assumption.
  rewrite Lg, I, map_app, app_assoc. reflexivity.
Qed.

Lemma reaches_out_prot (w0 w1 : world F) p fd evs v w2 :
  reaches w1 w0 true p fd evs -> out_prot v w1 = Ret tt w2 ->
  reaches w2 w0 false (u8 v) fd (evs ++ [Out FLASH_PROT (u8 v)]).
Proof.
  unfold reaches. intros (I & Sz & C & K & P & D & Lg) E.
  unfold out_prot, bind, emit, modify in E.
  cbn [key_open set_log] in E. rewrite K in E.
  inversion E. subst w2. cbn [irq filesize moscrc key_open prot fdiv log
                             set_key_open set_prot set_log].
  repeat split; try assumption.
  rewrite Lg, I, map_app, app_assoc. reflexivity.
Qed.

Lemma reaches_out_fdiv (w0 w1 : world F) p fd evs v w2 :
  reaches w1 w0 true p fd evs -> out_fdiv v w1 = Ret tt w2 ->
  reaches w2 w0 false p (u8 v) (evs ++ [Out FLASH_FDIV (u8 v)]).
Proof.
  unfold reaches. intros (I & Sz & C & K & P & D & Lg) E.
  unfold out_fdiv, bind, emit, modify in E.
  cbn [key_open set_log] in E. rewrite K in E.
  inversion E. subst w2. cbn [irq filesize moscrc key_open prot fdiv log
                             set_key_open set_fdiv set_log].
  repeat split; try assumption.
  rewrite Lg, I, map_app, app_assoc. reflexivity.
Qed.

Lemma yields_crc32_initialize (w : world F) :
  yields crc32_initialize w tt [] (set_crc crc32_seed w).
Proof.
  split; [reflexivity | split; [repeat split |]].
  cbn [log set_crc map]. symmetry. apply app_nil_r.
Qed.

Lemma yields_crc32 (ptr len : Z) (w : world F) :
  exists w', yields (crc32 dev L ptr len) w tt [Crc32 ptr len] w'.
Proof.
  unfold crc32, bind, emit, modify. eexists. split; [reflexivity |].
  split; repeat split.
Qed.

Lemma reaches_eq (w' w : world F) ko p fd evs evs' :
  reaches w' w ko p fd evs -> evs = evs' -> reaches w' w ko p fd evs'.
Proof. intros R <-. exact R. Qed.

(** One iteration of the loop: where it ends when it returns. *)
Lemma attempt_body_ret (attempt : Z) (w : world F) (ok : bool) (w' : world F) :
  attempt_body dev L attempt w = Ret ok w' ->
  reaches w' w false 0 0x5F (attempt_events L attempt (filesize w) ok).
Proof.
  intro H. unfold attempt_body in H.
  pose proof (reaches_start w) as R.
  apply bind_ret_inv in H. destruct H as ([] & w0 & H0 & H).
  assert (R0 : reaches w0 w (key_open w) (prot w) (fdiv w)
                 ([] ++ if 0 <? attempt
                        then [Printf "Retry attempt #%d\r\n" [attempt]] else [])).
  { destruct (0 <? attempt).
    - eapply reaches_yields; [exact R |].
      eapply yields_det; [apply yields_printf | exact H0].
    - eapply reaches_yields; [exact R |].
      eapply yields_det; [apply yields_ret | exact H0]. }
  clear R H0.
  apply bind_ret_inv in H. destruct H as ([] & w1 & H1 & H).
  pose proof (reaches_yields _ _ _ _ _ _ _ _ _ _ R0
                (yields_det _ _ _ _ _ _ _ (yields_printf _ _ _) H1)) as R1.
  clear R0 H1.
  apply bind_ret_inv in H. destruct H as ([] & w2 & H2 & H).
  pose proof (reaches_enable _ _ _ _ _ _ _ R1 H2) as R2. clear R1 H2.
  apply bind_ret_inv in H. destruct H as ([] & w3 & H3 & H).
  pose proof (reaches_out_prot _ _ _ _ _ _ _ R2 H3) as R3. clear R2 H3.
  apply bind_ret_inv in H. destruct H as ([] & w4 & H4 & H).
  pose proof (reaches_enable _ _ _ _ _ _ _ R3 H4) as R4. clear R3 H4.
  apply bind_ret_inv in H. destruct H as ([] & w5 & H5 & H).
  pose proof (reaches_out_fdiv _ _ _ _ _ _ _ R4 H5) as R5. clear R4 H5.
  apply bind_ret_inv in H. destruct H as ([] & w6 & H6 & H).
  pose proof (reaches_yields _ _ _ _ _ _ _ _ _ _ R5
                (yields_erase_pages dev _ _ _ H6)) as R6.
  clear R5 H6.
  apply bind_ret_inv in H. destruct H as ([] & w7 & H7 & H).
  pose proof (reaches_yields _ _ _ _ _ _ _ _ _ _ R6
                (yields_det _ _ _ _ _ _ _ (yields_printf _ _ _) H7)) as R7.
  clear R6 H7.
  apply bind_ret_inv in H. destruct H as (size & w8 & H8 & H).
  inversion H8. subst w8 size. clear H8.
  assert (Esize : filesize w7 = filesize w) by apply R7.
  rewrite Esize in H.
  apply bind_ret_inv in H. destruct H as ([] & w9 & H9 & H).
  destruct (yields_write_pages dev L (pagemax_of L (filesize w))
              (lastpagebytes_of L (filesize w)) (range (pagemax_of L (filesize w)))
              (u24 (FLASHSTART L)) (u24 (BUFFER1 L)) w7) as [w9' Y9].
  pose proof (reaches_yields _ _ _ _ _ _ _ _ _ _ R7
                (yields_det _ _ _ _ _ _ _ Y9 H9)) as R9.
  clear R7 H9 Y9.
  apply bind_ret_inv in H. destruct H as ([] & w10 & H10 & H).
  pose proof (reaches_lock _ _ _ _ _ _ _ R9 H10) as R10. clear R9 H10.
  apply bind_ret_inv in H. destruct H as ([] & w11 & H11 & H).
  pose proof (reaches_yields _ _ _ _ _ _ _ _ _ _ R10
                (yields_det _ _ _ _ _ _ _ (yields_printf _ _ _) H11)) as R11.
  clear R10 H11.
  apply bind_ret_inv in H. destruct H as ([] & w12 & H12 & H).
  pose proof (reaches_yields _ _ _ _ _ _ _ _ _ _ R11
                (yields_det _ _ _ _ _ _ _ (yields_crc32_initialize _) H12)) as R12.
  clear R11 H12.
  apply bind_ret_inv in H. destruct H as ([] & w13 & H13 & H).
  destruct (yields_crc32 (FLASHSTART L) (filesize w) w12) as [w13' Y13].
  pose proof (reaches_yields _ _ _ _ _ _ _ _ _ _ R12
                (yields_det _ _ _ _ _ _ _ Y13 H13)) as R13.
  clear R12 H13 Y13.
  apply bind_ret_inv in H. destruct H as (crcresult & w14 & H14 & H).
  inversion H14. subst w14. clear H14.
  apply bind_ret_inv in H. destruct H as (expected & w15 & H15 & H).
  inversion H15. subst w15. clear H15.
  destruct (crcresult =? expected);
    apply bind_ret_inv in H; destruct H as ([] & w16 & H16 & H);
    inversion H; subst ok w16; clear H;
    pose proof (reaches_yields _ _ _ _ _ _ _ _ _ _ R13
                  (yields_det _ _ _ _ _ _ _ (yields_printf _ _ _) H16)) as R';
    (eapply reaches_eq; [exact R' |]);
    unfold attempt_events, erase_events; cbn [app];
    repeat rewrite <- app_assoc; rewrite ?app_nil_r; reflexivity.
Qed.
End Attempt.

(** ** The retry loop *)

Section Loop.
Context {F : Type}.
Variable dev : device F.
Variable L : layout.

Lemma reaches_trans (w0 w1 w2 : world F) ko p fd e1 ko' p' fd' e2 :
  reaches w1 w0 ko p fd e1 -> reaches w2 w1 ko' p' fd' e2 ->
  reaches w2 w0 ko' p' fd' (e1 ++ e2).
Proof.
  unfold reaches.
  intros (I & Sz & C & K & P & D & Lg) (I' & Sz' & C' & K' & P' & D' & Lg').
  repeat split; try congruence.
  rewrite Lg', Lg, I, map_app, app_assoc. reflexivity.
Qed.

Lemma attempts_done (budget : nat) (attempt : Z) (w : world F) :
  attempts dev L budget true attempt w = Ret true w.
Proof. destruct budget; reflexivity. Qed.

(** The recursion bound never cuts the loop short: once it covers the
    attempts the condition [attempt < 3] leaves, a larger one changes
    nothing. *)
Lemma attempts_budget_enough (budget extra : nat) :
  forall (success : bool) (attempt : Z) (w : world F),
    3 - attempt <= Z.of_nat budget ->
    attempts dev L (budget + extra) success attempt w
    = attempts dev L budget success attempt w.
Proof.
  induction budget as [| budget IH]; intros success attempt w Hb.
  - cbn [Nat.add attempts]. destruct extra; [reflexivity |].
    cbn [attempts].
    replace (attempt <? 3) with false by (symmetry; apply Z.ltb_ge; lia).
    rewrite andb_false_r. reflexivity.
  - cbn [Nat.add attempts].
    destruct (negb success && (attempt <? 3)); [| reflexivity].
    unfold bind. destruct (attempt_body dev L attempt w) as [ok w1 | h w1];
      [| reflexivity].
    apply IH. lia.
Qed.

Lemma attempts_step (budget : nat) (attempt : Z) (w : world F) :
  attempt < 3 ->
  attempts dev L (S budget) false attempt w
  = bind (attempt_body dev L attempt)
         (fun ok => attempts dev L budget ok (attempt + 1)) w.
Proof.
  intro H. cbn [attempts].
  replace (attempt <? 3) with true by (symmetry; apply Z.ltb_lt; lia).
  reflexivity.
Qed.

(** The loop, entered with [success] false and [budget] attempts left. *)
Lemma attempts_ret (budget : nat) :
  forall (attempt : Z) (w : world F) (b : bool) (w' : world F),
    Z.of_nat (S budget) = 3 - attempt ->
    attempts dev L (S budget) false attempt w = Ret b w' ->
    exists k : nat,
      (1 <= k <= S budget)%nat
      /\ (b = false -> k = S budget)
      /\ reaches w' w false 0 0x5F
                 (loop_events L (filesize w) attempt (verdicts_of k b)).
Proof.
  induction budget as [| budget IH]; intros attempt w b w' Hb H;
    rewrite attempts_step in H by lia;
    apply bind_ret_inv in H; destruct H as (ok & w1 & H1 & H);
    apply attempt_body_ret in H1.
  - exists 1%nat. cbn [attempts] in H. inversion H. subst ok w1. clear H.
    split; [lia | split; [reflexivity |]].
    cbn [verdicts_of pred repeat app loop_events]. rewrite app_nil_r. exact H1.
  - destruct ok.
    + rewrite attempts_done in H. inversion H. subst b w1. clear H.
      exists 1%nat. split; [lia | split; [discriminate |]].
      cbn [verdicts_of pred repeat app loop_events]. rewrite app_nil_r. exact H1.
    + apply IH in H; [| lia]. destruct H as (k & Hk & Hlast & R).
      exists (S k). split; [lia | split; [intro E; rewrite (Hlast E); reflexivity |]].
      assert (Esize : filesize w1 = filesize w) by apply H1.
      rewrite Esize in R.
      replace (verdicts_of (S k) b) with (false :: verdicts_of k b).
      * cbn [loop_events]. eapply reaches_trans; eassumption.
      * unfold verdicts_of. destruct k as [| k]; [lia |]. reflexivity.
Qed.

End Loop.

(** ** [update_mos] *)

Section Update.
Context {F : Type}.
Variable dev : device F.
Variable L : layout.

Lemma update_mos_prologue_ret (w : world F) :
  update_mos_prologue w
  = Ret tt (set_irq false
              (set_log (log w ++ [At (irq w)
                          (Printf "Programming MOS firmware to ez80 flash...\r\n\r\n" []);
                                  At (irq w) Di]) w)).
Proof.
  unfold update_mos_prologue, di, printf, emit, modify, bind.
  cbn [log irq set_log]. rewrite <- app_assoc. reflexivity.
Qed.

(** [update_mos], when it returns: between one and three attempts, all
    but the last failed, the last failed only if it was the third. *)
Lemma update_mos_ret (w : world F) (b : bool) (w' : world F) :
  update_mos dev L w = Ret b w' ->
  exists k : nat,
    (1 <= k <= 3)%nat
    /\ (b = false -> k = 3%nat)
    /\ irq w' = false /\ filesize w' = filesize w /\ moscrc w' = moscrc w
    /\ key_open w' = false /\ prot w' = 0 /\ fdiv w' = 0x5F
    /\ log w' = log w ++ update_mos_log L (filesize w) (irq w) k b.
Proof.
  intro H. unfold update_mos in H.
  apply bind_ret_inv in H. destruct H as ([] & w1 & H1 & H).
  rewrite update_mos_prologue_ret in H1. injection H1 as E1.
  apply bind_ret_inv in H. destruct H as (b' & w2 & H2 & H).
  apply attempts_ret in H2; [| reflexivity].
  destruct H2 as (k & Hk & Hlast & R).
  apply bind_ret_inv in H. destruct H as ([] & w3 & H3 & H).
  inversion H. subst b' w3. clear H.
  pose proof (reaches_yields _ _ _ _ _ _ _ _ _ _ R
                (yields_det _ _ _ _ _ _ _ (yields_printf _ _ _) H3)) as R'.
  clear R H3. subst w1.
  destruct R' as (I & Sz & C & K & P & D & Lg).
  cbn [irq filesize moscrc log set_irq set_log] in *.
  exists k. repeat split; try assumption; try lia.
  rewrite Lg. unfold update_mos_log. rewrite <- app_assoc. reflexivity.
Qed.

End Update.

(** ** Interrupts *)

Section Masked.
Context {F : Type}.
Variable dev : device F.
Variable L : layout.

Lemma all_masked_app (l1 l2 : list entry) :
  all_masked l1 -> all_masked l2 -> all_masked (l1 ++ l2).
Proof. unfold all_masked. intros. apply Forall_app. split; assumption. Qed.

Lemma masked_ret {A : Type} (a : A) : masked (@ret F A a).
Proof.
  intros w Hw. cbn [ret final]. split; [exact Hw |].
  exists []. split; [symmetry; apply app_nil_r | constructor].
Qed.

Lemma masked_stop {A : Type} (h : hang) : masked (@stop F A h).
Proof.
  intros w Hw. cbn [stop final]. split; [exact Hw |].
  exists []. split; [symmetry; apply app_nil_r | constructor].
Qed.

Lemma masked_bind {A B : Type} (m : M F A) (k : A -> M F B) :
  masked m -> (forall a, masked (k a)) -> masked (bind m k).
Proof.
  intros Hm Hk w Hw. unfold bind.
  destruct (Hm w Hw) as (I1 & l1 & E1 & M1).
  destruct (m w) as [a w1 | h w1]; cbn [final] in *.
  - destruct (Hk a w1 I1) as (I2 & l2 & E2 & M2).
    split; [exact I2 |]. exists (l1 ++ l2).
    split; [rewrite E2, E1, app_assoc; reflexivity | apply all_masked_app; assumption].
  - split; [exact I1 |]. exists l1. split; assumption.
Qed.

Lemma masked_emit (e : event) : masked (@emit F e).
Proof.
  intros w Hw. cbn [emit final irq log set_log]. split; [exact Hw |].
  exists [At (irq w) e]. split; [reflexivity |].
  constructor; [exact Hw | constructor].
Qed.

(** A step that neither logs nor touches the interrupt mask. *)
Lemma masked_silent {A : Type} (m : M F A) :
  (forall w, irq (final (m w)) = irq w /\ log (final (m w)) = log w) ->
  masked m.
Proof.
  intros H w Hw. destruct (H w) as [I Lg]. split; [congruence |].
  exists []. split; [rewrite Lg; symmetry; apply app_nil_r | constructor].
Qed.

Lemma masked_for_each (l : list Z) (body : Z -> M F unit) :
  (forall i, masked (body i)) -> masked (for_each l body).
Proof.
  intro Hb. induction l as [| i l IH]; cbn [for_each].
  - apply masked_ret.
  - apply masked_bind; [apply Hb | intros _; exact IH].
Qed.

Lemma masked_store (a v : Z) : masked (store dev L a v).
Proof.
  apply masked_silent. intro w. unfold store, modify. cbn [final].
  destruct (in_flash L (u24 a)); split; reflexivity.
Qed.

Lemma masked_fastmemcpy (dst src len : Z) : masked (fastmemcpy dev L dst src len).
Proof.
  unfold fastmemcpy. apply masked_bind; [apply masked_emit | intros _].
  apply masked_for_each. intro i.
  apply masked_bind; [| intro b; apply masked_store].
  apply masked_silent. intro w. split; reflexivity.
Qed.

Lemma masked_write_pages (pagemax lastpagebytes : Z) (counters : list Z) :
  forall addressto addressfrom,
    masked (write_pages dev L counters pagemax lastpagebytes addressto addressfrom).
Proof.
  induction counters as [| counter rest IH]; intros ato afrom; cbn [write_pages].
  - apply masked_ret.
  - apply masked_bind; [apply masked_emit | intros _].
    apply masked_bind; [| intros _; apply IH].
    destruct (counter =? u24 (pagemax - 1)); apply masked_fastmemcpy.
Qed.

Lemma masked_erase_pages : masked (erase_pages dev L).
Proof.
  unfold erase_pages. apply masked_for_each. intro counter.
  apply masked_bind; [| intros _].
  - unfold out_page. apply masked_bind; [apply masked_emit | intros _].
    apply masked_silent. intro w. split; reflexivity.
  - unfold erase_and_poll. apply masked_bind; [apply masked_emit | intros _].
    apply masked_silent. intro w.
    destruct (dev_erase dev (prot w) (page w) (flash w)); split; reflexivity.
Qed.

Lemma masked_attempt_body (attempt : Z) : masked (attempt_body dev L attempt).
Proof.
  unfold attempt_body.
  apply masked_bind;
    [destruct (0 <? attempt); [apply masked_emit | apply masked_ret] | intros _].
  apply masked_bind; [apply masked_emit | intros _].
  apply masked_bind; [| intros _].
  { unfold enableFlashKeyRegister.
    apply masked_bind; [apply masked_emit | intros _].
    apply masked_silent. intro w. split; reflexivity. }
  apply masked_bind; [| intros _].
  { unfold out_prot. apply masked_bind; [apply masked_emit | intros _].
    apply masked_silent. intro w. unfold modify. cbn [final].
    destruct (key_open w); split; reflexivity. }
  apply masked_bind; [| intros _].
  { unfold enableFlashKeyRegister.
    apply masked_bind; [apply masked_emit | intros _].
    apply masked_silent. intro w. split; reflexivity. }
  apply masked_bind; [| intros _].
  { unfold out_fdiv. apply masked_bind; [apply masked_emit | intros _].
    apply masked_silent. intro w. unfold modify. cbn [final].
    destruct (key_open w); split; reflexivity. }
  apply masked_bind; [apply masked_erase_pages | intros _].
  apply masked_bind; [apply masked_emit | intros _].
  apply masked_bind; [apply masked_silent; intro w; split; reflexivity | intro size].
  apply masked_bind; [apply masked_write_pages | intros _].
  apply masked_bind; [| intros _].
  { unfold lockFlashKeyRegister.
    apply masked_bind; [apply masked_emit | intros _].
    apply masked_silent. intro w. split; reflexivity. }
  apply masked_bind; [apply masked_emit | intros _].
  apply masked_bind; [apply masked_silent; intro w; split; reflexivity | intros _].
  apply masked_bind; [| intros _].
  { unfold crc32. apply masked_bind; [apply masked_emit | intros _].
    apply masked_silent. intro w. split; reflexivity. }
  apply masked_bind; [apply masked_silent; intro w; split; reflexivity | intro r].
  apply masked_bind; [apply masked_silent; intro w; split; reflexivity | intro e].
  destruct (r =? e);
    (apply masked_bind; [apply masked_emit | intros _; apply masked_ret]).
Qed.

Lemma masked_attempts (budget : nat) :
  forall (success : bool) (attempt : Z), masked (attempts dev L budget success attempt).
Proof.
  induction budget as [| budget IH]; intros success attempt; cbn [attempts].
  - apply masked_ret.
  - destruct (negb success && (attempt <? 3)); [| apply masked_ret].
    apply masked_bind; [apply masked_attempt_body | intro ok; apply IH].
Qed.

(** From [di()] on, everything [update_mos] does is done with interrupts
    disabled, and they are still disabled where the run ends. *)
Lemma update_mos_masked (w : world F) :
  irq (final (update_mos dev L w)) = false
  /\ exists entries,
      log (final (update_mos dev L w))
      = log w
        ++ [At (irq w) (Printf "Programming MOS firmware to ez80 flash...\r\n\r\n" []);
            At (irq w) Di]
        ++ entries
      /\ all_masked entries.
Proof.
  pose (w1 := set_irq false
                (set_log (log w ++ [At (irq w)
                   (Printf "Programming MOS firmware to ez80 flash...\r\n\r\n" []);
                                    At (irq w) Di]) w)).
  assert (E : update_mos dev L w
              = (success <- attempts dev L 3 false 0 ;;
                 printf "\r\n" [] ;; ret success) w1).
  { unfold update_mos. unfold bind at 1. rewrite update_mos_prologue_ret.
    reflexivity. }
  rewrite E. clear E.
  assert (Mk : masked (success <- attempts dev L 3 false 0 ;;
                       printf "\r\n" [] ;; ret success)).
  { apply masked_bind; [apply masked_attempts | intro b].
    apply masked_bind; [apply masked_emit | intros _; apply masked_ret]. }
  destruct (Mk w1 eq_refl) as (I & entries & Lg & Hm).
  split; [exact I |]. exists entries. split; [| exact Hm].
  rewrite Lg. subst w1. cbn [log set_irq set_log]. rewrite <- app_assoc. reflexivity.
Qed.

End Masked.

(** ** Cycles *)

Section Cycles.
Context {F : Type}.
Variable dev : device F.
Variable L : layout.

Lemma u24_add_l (a b : Z) : u24 (u24 a + b) = u24 (a + b).
Proof. unfold u24. apply Zplus_mod_idemp_l. Qed.

Lemma filter_write_events (pagemax lastpagebytes A B : Z) (n : nat) :
  forall s : nat,
    filter cycle_op
      (write_events L (map Z.of_nat (seq s n)) pagemax lastpagebytes
         (u24 (A + Z.of_nat s * PAGESIZE L)) (u24 (B + Z.of_nat s * PAGESIZE L)))
    = map (fun i => Fastmemcpy (u24 (A + i * PAGESIZE L)) (u24 (B + i * PAGESIZE L))
                      (if i =? u24 (pagemax - 1)
                       then lastpagebytes else PAGESIZE L))
          (map Z.of_nat (seq s n)).
Proof.
  induction n as [| n IH]; intro s; cbn [seq map write_events filter cycle_op flash_op].
  - reflexivity.
  - f_equal. rewrite !u24_add_l.
    replace (A + Z.of_nat s * PAGESIZE L + PAGESIZE L)
      with (A + Z.of_nat (S s) * PAGESIZE L) by (rewrite Nat2Z.inj_succ; ring).
    replace (B + Z.of_nat s * PAGESIZE L + PAGESIZE L)
      with (B + Z.of_nat (S s) * PAGESIZE L) by (rewrite Nat2Z.inj_succ; ring).
    apply IH.
Qed.

Lemma filter_page_writes (size : Z) :
  filter cycle_op
    (write_events L (range (pagemax_of L size)) (pagemax_of L size)
       (lastpagebytes_of L size) (u24 (FLASHSTART L)) (u24 (BUFFER1 L)))
  = page_writes L size.
Proof.
  unfold page_writes, range.
  pose proof (filter_write_events (pagemax_of L size) (lastpagebytes_of L size)
                (FLASHSTART L) (BUFFER1 L) (Z.to_nat (pagemax_of L size)) 0) as H.
  cbn [Z.of_nat] in H. rewrite !Z.mul_0_l, !Z.add_0_r in H. exact H.
Qed.

Lemma filter_erase_events : filter cycle_op (erase_events L) = erase_events L.
Proof.
  unfold erase_events. induction (range (FLASHPAGES L)) as [| c l IH];
    cbn [flat_map app filter cycle_op flash_op]; [reflexivity |].
  rewrite IH. reflexivity.
Qed.

Lemma filter_attempt_events (attempt size : Z) (v : bool) :
  filter cycle_op (attempt_events L attempt size v) = full_cycle L size.
Proof.
  unfold attempt_events, full_cycle, erase_and_program.
  rewrite !filter_app, filter_erase_events, filter_page_writes.
  destruct (0 <? attempt); cbn [filter cycle_op flash_op app];
    rewrite <- ?app_assoc; reflexivity.
Qed.

Lemma filter_loop_events (size : Z) (verdicts : list bool) :
  forall attempt,
    filter cycle_op (loop_events L size attempt verdicts)
    = List.concat (repeat (full_cycle L size) (List.length verdicts)).
Proof.
  induction verdicts as [| v vs IH]; intro attempt;
    cbn [loop_events List.length repeat List.concat filter]; [reflexivity |].
  rewrite filter_app, filter_attempt_events, IH. reflexivity.
Qed.

Lemma verdicts_of_length (k : nat) (b : bool) :
  (1 <= k)%nat -> List.length (verdicts_of k b) = k.
Proof.
  intro H. unfold verdicts_of. rewrite length_app, repeat_length.
  cbn [List.length]. lia.
Qed.

Lemma filter_update_mos_log (size : Z) (mask : bool) (k : nat) (b : bool) :
  (1 <= k)%nat ->
  filter cycle_op (map op (update_mos_log L size mask k b))
  = List.concat (repeat (full_cycle L size) k).
Proof.
  intro Hk. unfold update_mos_log.
  rewrite map_app, map_map. cbn [map op]. rewrite map_id.
  cbn [app filter cycle_op flash_op].
  rewrite filter_app, filter_loop_events, verdicts_of_length by exact Hk.
  cbn [filter cycle_op flash_op]. apply app_nil_r.
Qed.

(** The hardware steps of a run of [update_mos] that returns. *)
Lemma update_mos_cycle_ops (w : world F) (b : bool) (w' : world F) :
  update_mos dev L w = Ret b w' ->
  exists k : nat,
    (1 <= k <= 3)%nat
    /\ (b = false -> k = 3%nat)
    /\ filter cycle_op (ops w')
       = filter cycle_op (ops w) ++ List.concat (repeat (full_cycle L (filesize w)) k).
Proof.
  intro H. apply update_mos_ret in H.
  destruct H as (k & Hk & Hlast & _ & _ & _ & _ & _ & _ & Lg).
  exists k. split; [exact Hk | split; [exact Hlast |]].
  unfold ops. rewrite Lg, map_app, filter_app, filter_update_mos_log by lia.
  reflexivity.
Qed.

Lemma verdict_from_0 (attempt : Z) (w : world F) (v : bool) :
  verdict_from dev L 0 attempt w = Some v ->
  exists w1, attempt_body dev L attempt w = Ret v w1.
Proof.
  cbn [verdict_from]. destruct (attempt_body dev L attempt w) as [ok w1 | h w1];
    [| discriminate].
  intro E. injection E as ->. exists w1. reflexivity.
Qed.

Lemma verdict_from_S (n : nat) (attempt : Z) (w : world F) (ok : bool) (w1 : world F) :
  attempt_body dev L attempt w = Ret ok w1 ->
  verdict_from dev L (S n) attempt w = verdict_from dev L n (attempt + 1) w1.
Proof. intro E. cbn [verdict_from]. rewrite E. reflexivity. Qed.

(** When the first success comes on attempt [k], the loop makes [k]
    attempts and returns true. *)
Lemma attempts_first_success (budget : nat) :
  forall (k : nat) (attempt : Z) (w : world F),
    Z.of_nat (S budget) = 3 - attempt ->
    (1 <= k <= S budget)%nat ->
    (forall j, (1 <= j < k)%nat ->
               verdict_from dev L (pred j) attempt w = Some false) ->
    verdict_from dev L (pred k) attempt w = Some true ->
    exists w',
      attempts dev L (S budget) false attempt w = Ret true w'
      /\ reaches w' w false 0 0x5F
                 (loop_events L (filesize w) attempt (verdicts_of k true)).
Proof.
  induction budget as [| budget IH]; intros k attempt w Hb Hk Hfail Hok;
    rewrite attempts_step by lia; unfold bind.
  - assert (k = 1%nat) by lia. subst k. cbn [pred] in Hok.
    apply verdict_from_0 in Hok. destruct Hok as [w1 E]. rewrite E.
    exists w1. split; [reflexivity |].
    apply attempt_body_ret in E.
    cbn [verdicts_of pred repeat app loop_events]. rewrite app_nil_r. exact E.
  - destruct k as [| [| k]]; [lia | |].
    + cbn [pred] in Hok.
      apply verdict_from_0 in Hok. destruct Hok as [w1 E]. rewrite E.
      exists w1. split; [apply attempts_done |].
      apply attempt_body_ret in E.
      cbn [verdicts_of pred repeat app loop_events]. rewrite app_nil_r. exact E.
    + pose proof (Hfail 1%nat ltac:(lia)) as H1. cbn [pred] in H1.
      apply verdict_from_0 in H1. destruct H1 as [w1 E]. rewrite E.
      destruct (IH (S k) (attempt + 1) w1) as (w' & Ew & R).
      * lia.
      * lia.
      * intros j Hj. specialize (Hfail (S j) ltac:(lia)). cbn [pred] in Hfail.
        destruct j as [| j]; [lia |]. cbn [pred].
        rewrite (verdict_from_S _ _ _ _ _ E) in Hfail. exact Hfail.
      * cbn [pred] in Hok |- *. rewrite (verdict_from_S _ _ _ _ _ E) in Hok.
        exact Hok.
      * exists w'. split; [exact Ew |].
        apply attempt_body_ret in E.
        assert (Esize : filesize w1 = filesize w) by apply E.
        rewrite Esize in R.
        change (verdicts_of (S (S k)) true) with (false :: verdicts_of (S k) true).
        cbn [loop_events]. eapply reaches_trans; eassumption.
Qed.

End Cycles.

(** ** Counting the attempts of any run *)

Section Counting.
Context {F : Type}.
Variable dev : device F.
Variable L : layout.
Variable P : event -> bool.

Lemma count_ops_app (l1 l2 : list entry) :
  count_ops P (l1 ++ l2) = (count_ops P l1 + count_ops P l2)%nat.
Proof. unfold count_ops. rewrite filter_app, length_app. reflexivity. Qed.

Lemma adds_ret {A : Type} (a : A) : adds P 0 (@ret F A a).
Proof.
  intro w. exists []. cbn [ret final]. split; [symmetry; apply app_nil_r |].
  apply Nat.le_refl.
Qed.

Lemma adds_silent {A : Type} (m : M F A) :
  (forall w, log (final (m w)) = log w) -> adds P 0 m.
Proof.
  intros H w. exists []. rewrite H. split; [symmetry; apply app_nil_r |].
  apply Nat.le_refl.
Qed.

Lemma adds_bind {A B : Type} (n1 n2 : nat) (m : M F A) (k : A -> M F B) :
  adds P n1 m -> (forall a, adds P n2 (k a)) -> adds P (n1 + n2) (bind m k).
Proof.
  intros Hm Hk w. unfold bind. destruct (Hm w) as (l1 & E1 & C1).
  destruct (m w) as [a w1 | h w1]; cbn [final] in *.
  - destruct (Hk a w1) as (l2 & E2 & C2). exists (l1 ++ l2).
    split; [rewrite E2, E1, app_assoc; reflexivity |].
    rewrite count_ops_app. lia.
  - exists l1. split; [exact E1 | lia].
Qed.

Lemma adds_then {A B : Type} (n : nat) (m : M F A) (k : A -> M F B) :
  adds P 0 m -> (forall a, adds P n (k a)) -> adds P n (bind m k).
Proof. intros Hm Hk. exact (adds_bind 0 n m k Hm Hk). Qed.

Lemma adds_first {A B : Type} (n : nat) (m : M F A) (k : A -> M F B) :
  adds P n m -> (forall a, adds P 0 (k a)) -> adds P n (bind m k).
Proof.
  intros Hm Hk. rewrite <- (Nat.add_0_r n). exact (adds_bind n 0 m k Hm Hk).
Qed.

Lemma adds_emit (e : event) : adds P (if P e then 1 else 0) (@emit F e).
Proof.
  intro w. exists [At (irq w) e]. cbn [emit final log set_log].
  split; [reflexivity |].
  unfold count_ops. cbn [filter op]. destruct (P e); cbn [List.length]; lia.
Qed.

Lemma adds_emit_other (e : event) : P e = false -> adds P 0 (@emit F e).
Proof. intro H. pose proof (adds_emit e) as A. rewrite H in A. exact A. Qed.

Lemma adds_for_each (l : list Z) (body : Z -> M F unit) :
  (forall i, adds P 0 (body i)) -> adds P 0 (for_each l body).
Proof.
  intro Hb. induction l as [| i l IH]; cbn [for_each].
  - apply adds_ret.
  - apply adds_then; [apply Hb | intros _; exact IH].
Qed.

End Counting.

Section CountingAttempts.
Context {F : Type}.
Variable dev : device F.
Variable L : layout.

Lemma adds_fastmemcpy (dst src len : Z) :
  adds is_unprotect 0 (fastmemcpy dev L dst src len).
Proof.
  unfold fastmemcpy. apply adds_then; [apply adds_emit_other; reflexivity | intros _].
  apply adds_for_each. intro i.
  apply adds_then; [apply adds_silent; reflexivity | intro b].
  apply adds_silent. intro w. unfold store, modify. cbn [final].
  destruct (in_flash L (u24 (dst + i))); reflexivity.
Qed.

Lemma adds_write_pages (pagemax lastpagebytes : Z) (counters : list Z) :
  forall addressto addressfrom,
    adds is_unprotect 0
         (write_pages dev L counters pagemax lastpagebytes addressto addressfrom).
Proof.
  induction counters as [| counter rest IH]; intros ato afrom; cbn [write_pages].
  - apply adds_ret.
  - apply adds_then; [apply adds_emit_other; reflexivity | intros _].
    apply adds_then; [| intros _; apply IH].
    destruct (counter =? u24 (pagemax - 1)); apply adds_fastmemcpy.
Qed.

Lemma adds_erase_pages : adds is_unprotect 0 (erase_pages dev L).
Proof.
  unfold erase_pages. apply adds_for_each. intro counter.
  apply adds_then; [| intros _].
  - unfold out_page. apply adds_then; [apply adds_emit_other; reflexivity | intros _].
    apply adds_silent. reflexivity.
  - unfold erase_and_poll.
    apply adds_then; [apply adds_emit_other; reflexivity | intros _].
    apply adds_silent. intro w.
    destruct (dev_erase dev (prot w) (page w) (flash w)); reflexivity.
Qed.

Ltac quiet_step :=
  first
    [ apply adds_emit_other; reflexivity
    | apply adds_silent; reflexivity
    | apply adds_ret ].

(** One attempt unprotects the flash once. *)
Lemma adds_attempt_body (attempt : Z) :
  adds is_unprotect 1 (attempt_body dev L attempt).
Proof.
  unfold attempt_body.
  apply adds_then; [destruct (0 <? attempt); quiet_step | intros _].
  apply adds_then; [quiet_step | intros _].
  apply adds_then; [| intros _].
  { unfold enableFlashKeyRegister. apply adds_then; [quiet_step | intros _].
    quiet_step. }
  apply adds_first; [| intros _].
  { unfold out_prot. apply adds_first; [apply (adds_emit is_unprotect) | intros _].
    apply adds_silent. intro w. unfold modify. cbn [final].
    destruct (key_open w); reflexivity. }
  apply adds_then; [| intros _].
  { unfold enableFlashKeyRegister. apply adds_then; [quiet_step | intros _].
    quiet_step. }
  apply adds_then; [| intros _].
  { unfold out_fdiv. apply adds_then; [quiet_step | intros _].
    apply adds_silent. intro w. unfold modify. cbn [final].
    destruct (key_open w); reflexivity. }
  apply adds_then; [apply adds_erase_pages | intros _].
  apply adds_then; [quiet_step | intros _].
  apply adds_then; [quiet_step | intro size].
  apply adds_then; [apply adds_write_pages | intros _].
  apply adds_then; [| intros _].
  { unfold lockFlashKeyRegister. apply adds_then; [quiet_step | intros _].
    quiet_step. }
  apply adds_then; [quiet_step | intros _].
  apply adds_then; [quiet_step | intros _].
  apply adds_then; [| intros _].
  { unfold crc32. apply adds_then; [quiet_step | intros _]. quiet_step. }
  apply adds_then; [quiet_step | intro r].
  apply adds_then; [quiet_step | intro e].
  destruct (r =? e); (apply adds_then; [quiet_step | intros _; quiet_step]).
Qed.

Lemma adds_attempts (budget : nat) :
  forall (success : bool) (attempt : Z),
    adds is_unprotect budget (attempts dev L budget success attempt).
Proof.
  induction budget as [| budget IH]; intros success attempt; cbn [attempts].
  - apply adds_ret.
  - destruct (negb success && (attempt <? 3)).
    + change (S budget) with (1 + budget)%nat.
      apply adds_bind; [apply adds_attempt_body | intro ok; apply IH].
    + intro w. destruct (adds_ret is_unprotect success w) as (l & E & C).
      exists l. split; [exact E | lia].
Qed.

(** No run of [update_mos], finished or not, opens more than three
    attempts. *)
Lemma adds_update_mos : adds is_unprotect 3 (update_mos dev L).
Proof.
  unfold update_mos.
  apply adds_then.
  { unfold update_mos_prologue. apply adds_then; [quiet_step | intros _].
    unfold di. apply adds_then; [quiet_step | intros _]. quiet_step. }
  intros _. apply adds_first; [apply adds_attempts | intro success].
  apply adds_then; [quiet_step | intros _; quiet_step].
Qed.

End CountingAttempts.

(** ** Properties of [update_mos] *)

Lemma confirmed_returns :
  exists w', update_mos (ideal agon) agon confirmed = Ret true w'.
Proof.
  assert (H : match update_mos (ideal agon) agon confirmed with
              | Ret true _ => True
              | _ => False
              end) by (vm_compute; exact I).
  destruct (update_mos (ideal agon) agon confirmed) as [[|] w' | h w'];
    try contradiction.
  exists w'. reflexivity.
Qed.

Lemma confirmed_flaky_fails :
  exists w', update_mos (flaky agon) agon (confirmed_flaky 9) = Ret false w'.
Proof.
  assert (H : match update_mos (flaky agon) agon (confirmed_flaky 9) with
              | Ret false _ => True
              | _ => False
              end) by (vm_compute; exact I).
  destruct (update_mos (flaky agon) agon (confirmed_flaky 9)) as [[|] w' | h w'];
    try contradiction.
  exists w'. reflexivity.
Qed.

(** A page that never finishes erasing: [update_mos] does not return. *)
Lemma erase_stall_hangs :
  exists w', update_mos (stuck agon 3) agon confirmed = Hung EraseStall w'.
Proof.
  assert (H : match update_mos (stuck agon 3) agon confirmed with
              | Hung EraseStall _ => True
              | _ => False
              end) by (vm_compute; exact I).
  destruct (update_mos (stuck agon 3) agon confirmed) as [b w' | [| |] w'];
    try contradiction.
  exists w'. reflexivity.
Qed.

(** C3, as the code has it.  [update_mos] disables interrupts before the
    first attempt; every step after [di()] - every key-register access,
    erase, page write, lock and checksum pass of every attempt - is made
    with interrupts disabled; and they are still disabled where the run
    ends, on success, after three failed attempts, or stalled.  The
    program never enables them again. *)
Theorem update_mos_interrupts_stay_disabled :
  forall (F : Type) (dev : device F) (L : layout) (w : world F),
    irq (final (update_mos dev L w)) = false
    /\ (exists entries,
          log (final (update_mos dev L w))
          = log w
            ++ [At (irq w)
                   (Printf "Programming MOS firmware to ez80 flash...\r\n\r\n" []);
                At (irq w) Di]
            ++ entries
          /\ all_masked entries)
    /\ (forall b w', update_mos dev L w = Ret b w' -> irq w' = false).
Proof.
  intros F dev L w. destruct (update_mos_masked dev L w) as [I E].
  split; [exact I | split; [exact E |]].
  intros b w' H. rewrite H in I. exact I.
Qed.

Lemma update_mos_interrupts_stay_disabled_witness :
  exists w',
    update_mos (ideal agon) agon confirmed = Ret true w' /\ irq w' = false.
Proof.
  destruct confirmed_returns as [w' E]. exists w'. split; [exact E |].
  exact (proj2 (proj2 (update_mos_interrupts_stay_disabled
                         _ (ideal agon) agon confirmed)) true w' E).
Defined.

(** C3 as stated fails: after a successful flash, and after three failed
    attempts, interrupts are still disabled when [update_mos] returns. *)
Lemma interrupts_not_reenabled :
  ~ reenabled_on_return (ideal agon) agon confirmed
  /\ ~ reenabled_on_return (flaky agon) agon (confirmed_flaky 9).
Proof.
  split; intro H.
  - destruct confirmed_returns as [w' E].
    pose proof (H _ _ E) as On.
    destruct (update_mos_masked (ideal agon) agon confirmed) as [Off _].
    rewrite E in Off. cbn [final] in Off. congruence.
  - destruct confirmed_flaky_fails as [w' E].
    pose proof (H _ _ E) as On.
    destruct (update_mos_masked (flaky agon) agon (confirmed_flaky 9)) as [Off _].
    rewrite E in Off. cbn [final] in Off. congruence.
Qed.

(** When the first success comes on attempt [k], [update_mos] returns
    true after [k] full cycles. *)
Lemma update_mos_first_success {F : Type} (dev : device F) (L : layout)
      (w : world F) (k : nat) :
  (1 <= k <= 3)%nat ->
  first_success dev L k w ->
  exists w',
    update_mos dev L w = Ret true w'
    /\ filter cycle_op (ops w')
       = filter cycle_op (ops w)
         ++ List.concat (repeat (full_cycle L (filesize w)) k).
Proof.
  intros Hk [Hfail Hok]. unfold verdict in Hfail, Hok.
  rewrite update_mos_prologue_ret in Hfail, Hok. cbn [final] in Hfail, Hok.
  set (w1 := set_irq false _) in *.
  destruct (attempts_first_success dev L 2 k 0 w1 eq_refl Hk Hfail Hok)
    as (w2 & E2 & R).
  destruct (yields_printf "\r\n" [] w2) as (E3 & _ & Lg3).
  eexists. split.
  - unfold update_mos. unfold bind. rewrite update_mos_prologue_ret.
    fold w1. rewrite E2. rewrite E3. reflexivity.
  - unfold ops. cbn [log set_log].
    destruct R as (I & Sz & _ & _ & _ & _ & Lg).
    rewrite Lg. subst w1. cbn [log irq filesize set_irq set_log].
    rewrite !map_app, !map_map. cbn [map op]. rewrite map_id.
    rewrite !filter_app, filter_loop_events, verdicts_of_length by lia.
    cbn [filter cycle_op flash_op]. rewrite !app_nil_r. reflexivity.
Qed.

(** C4.  No run of [update_mos], finished or stalled, opens more than
    three attempts.  A run that returns has made between one and three
    erase-program-verify cycles, three if it returns false, each of them
    the full cycle: every page of the flash erased, every page of the
    image written, the key register locked, the checksum run over the
    flash.  On a device
    whose first successful verification is that of attempt [k], [k] in
    1..3, [update_mos] returns true after exactly [k] such cycles. *)
Theorem update_mos_cycles :
  forall (F : Type) (dev : device F) (L : layout) (w : world F),
    (exists added,
        log (final (update_mos dev L w)) = log w ++ added
        /\ (count_ops is_unprotect added <= 3)%nat)
    /\ (forall b w',
        update_mos dev L w = Ret b w' ->
        exists k : nat,
          (1 <= k <= 3)%nat
          /\ (b = false -> k = 3%nat)
          /\ filter cycle_op (ops w')
             = filter cycle_op (ops w)
               ++ List.concat (repeat (full_cycle L (filesize w)) k))
    /\ (forall k : nat,
          (1 <= k <= 3)%nat ->
          first_success dev L k w ->
          exists w',
            update_mos dev L w = Ret true w'
            /\ filter cycle_op (ops w')
               = filter cycle_op (ops w)
                 ++ List.concat (repeat (full_cycle L (filesize w)) k)).
Proof.
  intros F dev L w. split; [apply adds_update_mos | split].
  - intros b w' H. apply update_mos_cycle_ops in H. exact H.
  - intros k Hk Hfirst. exact (update_mos_first_success dev L w k Hk Hfirst).
Qed.

Lemma update_mos_cycles_witness :
  (1 <= 2 <= 3)%nat
  /\ first_success (flaky agon) agon 2 (confirmed_flaky 2)
  /\ (exists w',
         update_mos (flaky agon) agon (confirmed_flaky 2) = Ret true w'
         /\ filter cycle_op (ops w')
            = filter cycle_op (ops (confirmed_flaky 2))
              ++ List.concat
                   (repeat (full_cycle agon (filesize (confirmed_flaky 2))) 2))
  /\ first_success (ideal agon) agon 1 confirmed
  /\ first_success (flaky agon) agon 3 (confirmed_flaky 3).
Proof.
  assert (Hk : (1 <= 2 <= 3)%nat) by lia.
  assert (Hs : first_success (flaky agon) agon 2 (confirmed_flaky 2)).
  { split.
    - intros j Hj. assert (E : j = 1%nat) by lia. rewrite E.
      vm_compute. reflexivity.
    - vm_compute. reflexivity. }
  split; [exact Hk | split; [exact Hs | split; [| split]]].
  - exact (proj2 (proj2 (update_mos_cycles _ (flaky agon) agon (confirmed_flaky 2)))
             2%nat Hk Hs).
  - split.
    + intros j Hj. lia.
    + vm_compute. reflexivity.
  - split.
    + intros j Hj. assert (E : j = 1%nat \/ j = 2%nat) by lia.
      destruct E as [-> | ->]; vm_compute; reflexivity.
    + vm_compute. reflexivity.
Defined.

(** ** The programming phase *)

Lemma filter_sub {A : Type} (f g : A -> bool) (l : list A) :
  (forall x, f x = true -> g x = true) ->
  filter f (filter g l) = filter f l.
Proof.
  intro H. induction l as [| x l IH]; cbn [filter]; [reflexivity |].
  destruct (g x) eqn:G; cbn [filter].
  - rewrite IH. reflexivity.
  - destruct (f x) eqn:Fx; [rewrite (H x Fx) in G; discriminate | exact IH].
Qed.

Lemma is_copy_cycle_op (e : event) : is_copy e = true -> cycle_op e = true.
Proof. destruct e; cbn; congruence. Qed.

Lemma filter_copy_erase_events (L : layout) :
  filter is_copy (erase_events L) = [].
Proof.
  unfold erase_events. induction (range (FLASHPAGES L)) as [| c l IH];
    cbn [flat_map app filter is_copy]; [reflexivity | exact IH].
Qed.

Lemma filter_copy_page_writes (L : layout) (size : Z) :
  filter is_copy (page_writes L size) = page_writes L size.
Proof.
  unfold page_writes. induction (range (pagemax_of L size)) as [| i l IH];
    cbn [map filter is_copy]; [reflexivity |].
  rewrite IH. reflexivity.
Qed.

Lemma filter_copy_full_cycle (L : layout) (size : Z) :
  filter is_copy (full_cycle L size) = page_writes L size.
Proof.
  unfold full_cycle, erase_and_program.
  rewrite !filter_app, filter_copy_erase_events, filter_copy_page_writes.
  cbn [filter is_copy app]. apply app_nil_r.
Qed.

Lemma pagemax_of_ceiling (L : layout) (size : Z) :
  0 < PAGESIZE L -> 0 <= size < 2 ^ 24 ->
  pagemax_of L size = (size + PAGESIZE L - 1) / PAGESIZE L.
Proof.
  intros HP Hs. unfold pagemax_of.
  pose proof (Z.div_mod size (PAGESIZE L) ltac:(lia)) as Hdm.
  pose proof (Z.mod_pos_bound size (PAGESIZE L) HP) as Hr.
  pose proof (Z.div_pos size (PAGESIZE L) ltac:(lia) HP) as Hq.
  destruct (Z.eqb_spec (size mod PAGESIZE L) 0) as [E | NE]; cbn [negb].
  - apply Z.div_unique with (r := PAGESIZE L - 1); [lia |]. lia.
  - assert (Hq' : size / PAGESIZE L + 1 < 2 ^ 24) by nia.
    unfold u24. rewrite Z.mod_small by lia.
    apply Z.div_unique with (r := size mod PAGESIZE L - 1); [lia |]. lia.
Qed.

Lemma pagemax_of_range (L : layout) (size : Z) :
  0 < PAGESIZE L -> 0 < size < 2 ^ 24 -> 1 <= pagemax_of L size < 2 ^ 24.
Proof.
  intros HP Hs. rewrite pagemax_of_ceiling by lia.
  pose proof (Z.div_mod (size + PAGESIZE L - 1) (PAGESIZE L) ltac:(lia)) as Hdm.
  pose proof (Z.mod_pos_bound (size + PAGESIZE L - 1) (PAGESIZE L) HP) as Hr.
  split; nia.
Qed.

Lemma range_snoc (n : Z) : 0 <= n -> range (n + 1) = range n ++ [n].
Proof.
  intro H. unfold range.
  replace (Z.to_nat (n + 1)) with (S (Z.to_nat n)) by lia.
  rewrite seq_S, map_app. cbn [Nat.add map]. f_equal. f_equal. lia.
Qed.

Lemma sum_full_pages (P last n : Z) (l : list Z) :
  (forall i, In i l -> i <> n) ->
  sumZ (map (fun i => if i =? n then last else P) l) = Z.of_nat (List.length l) * P.
Proof.
  induction l as [| i l IH]; intro H; cbn [map sumZ fold_right List.length].
  - reflexivity.
  - fold (sumZ (map (fun i => if i =? n then last else P) l)).
    rewrite IH by (intros j Hj; apply H; right; exact Hj).
    destruct (Z.eqb_spec i n) as [E | _]; [exfalso; apply (H i); [left; reflexivity | exact E] |].
    lia.
Qed.

Lemma sumZ_app (l1 l2 : list Z) : sumZ (l1 ++ l2) = sumZ l1 + sumZ l2.
Proof.
  induction l1 as [| x l1 IH]; cbn [app sumZ fold_right]; [reflexivity |].
  fold (sumZ (l1 ++ l2)). fold (sumZ l1). rewrite IH. lia.
Qed.

Lemma copy_lengths_sum (L : layout) (size : Z) :
  0 < PAGESIZE L -> 0 < size < 2 ^ 24 ->
  sumZ (map copy_length (page_writes L size)) = size.
Proof.
  intros HP Hs. pose proof (pagemax_of_range L size HP Hs) as Hpm.
  unfold page_writes. rewrite map_map. cbn [copy_length].
  unfold u24 at 1. rewrite Z.mod_small by lia.
  replace (range (pagemax_of L size))
    with (range (pagemax_of L size - 1 + 1)) by (f_equal; lia).
  rewrite range_snoc, map_app, sumZ_app by lia.
  rewrite sum_full_pages by (intros i Hi; apply In_range in Hi; lia).
  rewrite range_length. cbn [map sumZ fold_right].
  rewrite Z.eqb_refl, Z2Nat.id by lia.
  pose proof (pagemax_of_ceiling L size HP ltac:(lia)) as Hc.
  unfold lastpagebytes_of. unfold pagemax_of in Hpm |- *.
  pose proof (Z.div_mod size (PAGESIZE L) ltac:(lia)) as Hdm.
  pose proof (Z.mod_pos_bound size (PAGESIZE L) HP) as Hr.
  destruct (Z.eqb_spec (size mod PAGESIZE L) 0) as [E | NE]; cbn [negb] in *.
  - lia.
  - assert (Hq' : size / PAGESIZE L + 1 < 2 ^ 24).
    { pose proof (Z.div_pos size (PAGESIZE L) ltac:(lia) HP). nia. }
    pose proof (Z.div_pos size (PAGESIZE L) ltac:(lia) HP).
    unfold u24. rewrite Z.mod_small by lia. lia.
Qed.

(** ** The erase timing and the key register *)

Lemma is_fdiv_cycle_op (e : event) : is_fdiv_write e = true -> cycle_op e = true.
Proof. destruct e as [| | | | | | | r v | |]; cbn; try congruence. Qed.

Lemma filter_fdiv_erase_events (L : layout) :
  filter is_fdiv_write (erase_events L) = [].
Proof.
  unfold erase_events. induction (range (FLASHPAGES L)) as [| c l IH];
    cbn [flat_map app filter is_fdiv_write]; [reflexivity | exact IH].
Qed.

Lemma filter_fdiv_page_writes (L : layout) (size : Z) :
  filter is_fdiv_write (page_writes L size) = [].
Proof.
  unfold page_writes. induction (range (pagemax_of L size)) as [| i l IH];
    cbn [map filter is_fdiv_write]; [reflexivity | exact IH].
Qed.

Lemma filter_fdiv_full_cycle (L : layout) (size : Z) :
  filter is_fdiv_write (full_cycle L size) = [Out FLASH_FDIV 0x5F].
Proof.
  unfold full_cycle, erase_and_program.
  rewrite !filter_app, filter_fdiv_erase_events, filter_fdiv_page_writes.
  reflexivity.
Qed.

Lemma filter_fdiv_cycles (L : layout) (size : Z) (k : nat) :
  filter is_fdiv_write (List.concat (repeat (full_cycle L size) k))
  = repeat (Out FLASH_FDIV 0x5F) k.
Proof.
  induction k as [| k IH]; cbn [repeat List.concat filter]; [reflexivity |].
  rewrite filter_app, filter_fdiv_full_cycle, IH. reflexivity.
Qed.

(** The clocks whose divisor is 95. *)
Lemma divisor_95_range (hz : Z) :
  erase_timing_divisor hz 51 = 0x5F <-> 18431373 <= hz <= 18627450.
Proof.
  unfold erase_timing_divisor.
  pose proof (Z.div_mod (hz * 51 + (10000000 - 1)) 10000000 ltac:(lia)) as Hdm.
  pose proof (Z.mod_pos_bound (hz * 51 + (10000000 - 1)) 10000000 ltac:(lia)) as Hr.
  split; intro H; lia.
Qed.

(** C7, as the code has it.  Every attempt writes the constant [0x5F]
    (95) to FLASH_FDIV, and that is the register's value when
    [update_mos] returns.  95 is the ceiling of clock frequency times
    5.1 microseconds for the 18.432 MHz clock, and for the clocks from
    18.431373 MHz to 18.627450 MHz only; for 18 MHz the ceiling is 92. *)
Theorem erase_timing_written :
  forall (F : Type) (dev : device F) (L : layout) (w : world F)
         (b : bool) (w' : world F),
    update_mos dev L w = Ret b w' ->
    fdiv w' = 0x5F
    /\ (exists k : nat,
          (1 <= k <= 3)%nat
          /\ filter is_fdiv_write (ops w')
             = filter is_fdiv_write (ops w) ++ repeat (Out FLASH_FDIV 0x5F) k)
    /\ erase_timing_divisor 18432000 51 = 0x5F
    /\ erase_timing_divisor 18000000 51 = 92
    /\ (forall hz, erase_timing_divisor hz 51 = 0x5F
                   <-> 18431373 <= hz <= 18627450).
Proof.
  intros F dev L w b w' H.
  pose proof (update_mos_cycle_ops dev L w b w' H) as (k & Hk & _ & E).
  apply update_mos_ret in H.
  destruct H as (_ & _ & _ & _ & _ & _ & _ & _ & D & _).
  split; [exact D | split; [| split; [reflexivity | split; [reflexivity |]]]];
    [| exact divisor_95_range].
  exists k. split; [exact Hk |].
  rewrite <- (filter_sub is_fdiv_write cycle_op (ops w')) by exact is_fdiv_cycle_op.
  rewrite E, filter_app, filter_fdiv_cycles.
  rewrite (filter_sub is_fdiv_write cycle_op (ops w)) by exact is_fdiv_cycle_op.
  reflexivity.
Qed.

Lemma erase_timing_written_witness :
  exists w',
    update_mos (ideal agon) agon confirmed = Ret true w'
    /\ fdiv w' = 0x5F.
Proof.
  destruct confirmed_returns as [w' E]. exists w'. split; [exact E |].
  exact (proj1 (erase_timing_written _ (ideal agon) agon confirmed true w' E)).
Defined.

(** C7 as stated fails: the value written, 95, is not the ceiling of
    18 MHz times 5.1 microseconds, which is 92. *)
Lemma divisor_not_ceiling_of_18MHz :
  ~ divisor_is_ceiling (ideal agon) agon 18000000 51 confirmed.
Proof.
  intro H. destruct confirmed_returns as [w' E].
  pose proof (H _ _ E) as Hc.
  apply update_mos_ret in E.
  destruct E as (_ & _ & _ & _ & _ & _ & _ & _ & D & _).
  rewrite D in Hc. vm_compute in Hc. discriminate Hc.
Qed.





(** ** [main] *)

Section Main.
Context {F : Type}.
Variable dev : device F.
Variable L : layout.

Ltac run :=
  unfold main, preflight, filesExist, validFirmware, readMemory, print_version,
    mos_fopen, mos_fclose, printf, putch, bind, modify, gets, ret, emit;
  cbn [irq key_open prot fdiv page flash ram mosfilename moscrc filesize crc card
       openfile keys log set_irq set_key_open set_prot set_fdiv set_page set_flash
       set_ram set_mosfilename set_moscrc set_filesize set_crc set_openfile
       set_keys set_log].

Ltac untouched_now :=
  unfold untouched;
  cbn [irq key_open prot fdiv page flash ram log set_irq set_key_open set_prot
       set_fdiv set_page set_flash set_ram set_mosfilename set_moscrc
       set_filesize set_crc set_openfile set_keys set_log];
  repeat (split; [reflexivity |]);
  eexists; split;
    [first [rewrite <- ?app_assoc; reflexivity | symmetry; apply app_nil_r]
    | reflexivity].

(** The validator itself: it passes exactly the buffers that begin with
    the header and are no larger than the flash, and touches nothing. *)
Lemma validFirmware_ret (w : world F) :
  exists w',
    validFirmware dev L w
    = Ret (containsMosHeader (load dev L w) (BUFFER1 L)
           && negb (FLASHSIZE L <? filesize w)) w'
    /\ untouched w w'.
Proof.
  run.
  destruct (containsMosHeader (load dev L w) (BUFFER1 L)); cbn [negb andb]; run;
    destruct (FLASHSIZE L <? filesize w); cbn [negb andb]; run;
    (eexists; split; [reflexivity | untouched_now]).
Qed.

Lemma main_file_not_found (w : world F) :
  card w DEFAULT_MOSFIRMWARE = None ->
  exists w', main dev L w = Ret EXIT_FILENOTFOUND w' /\ untouched w w'.
Proof.
  intro H. run. rewrite H. cbn [Z.eqb negb]. run.
  eexists. split; [reflexivity | untouched_now].
Qed.

Lemma main_invalid_image (w : world F) (bytes : list Z) :
  card w DEFAULT_MOSFIRMWARE = Some bytes ->
  containsMosHeader (load dev L w) (BUFFER1 L) = false
  \/ FLASHSIZE L < filesize w ->
  exists w', main dev L w = Ret EXIT_INVALIDPARAMETER w' /\ untouched w w'.
Proof.
  intros H Hbad. run. rewrite H. cbn [Z.eqb negb]. run.
  match goal with
  | |- context [load dev L ?x] => change (load dev L x) with (load dev L w)
  end.
  destruct (containsMosHeader (load dev L w) (BUFFER1 L)) eqn:Hh; cbn [negb]; run;
    destruct (Z.ltb_spec (FLASHSIZE L) (filesize w)) as [Hlt | Hge];
    cbn [negb]; run;
    try (eexists; split; [reflexivity | untouched_now]).
  destruct Hbad as [Hbad | Hbad]; [discriminate | lia].
Qed.

Lemma main_read_error (w : world F) :
  card w DEFAULT_MOSFIRMWARE = Some [] ->
  containsMosHeader (load dev L w) (BUFFER1 L) = true ->
  filesize w <= FLASHSIZE L ->
  exists w',
    main dev L w = Ret 0 w' /\ untouched w w'
    /\ exists before,
        ops w' = before ++ [Printf "\r\nError reading from SD card\r\n" []].
Proof.
  intros H Hh Hs.
  assert (Hf : (FLASHSIZE L <? filesize w) = false) by (apply Z.ltb_ge; lia).
  run. rewrite H. cbn [Z.eqb negb]. run.
  match goal with
  | |- context [load dev L ?x] => change (load dev L x) with (load dev L w)
  end.
  repeat (progress (run; rewrite ?H, ?Hh, ?Hf; cbn [negb Z.eqb readMemory_loop])).
  eexists. split; [reflexivity | split; [untouched_now |]].
  unfold ops. cbn [log set_log set_filesize set_openfile set_mosfilename].
  rewrite map_app. cbn [map op]. eexists. reflexivity.
Qed.

(** After a successful [update_mos], [main] prints its three messages
    and waits for the reset. *)
Lemma main_after_success (w w1 w2 : world F) :
  preflight dev L w = Ret None w1 ->
  update_mos dev L w1 = Ret true w2 ->
  exists w3,
    main dev L w = Hung AwaitReset w3
    /\ log w3 = log w2
                ++ map (At (irq w2))
                     [Printf "Done\r\n\r\n" [];
                      Printf "Please don't forget to update the VDP\r\n" [];
                      Printf "It is OK to reset or shut down the system now " []].
Proof.
  intros Hp Hu. unfold main. unfold bind at 1. rewrite Hp.
  unfold bind at 1. rewrite Hu.
  unfold printf, emit, stop, bind.
  cbn [irq log set_log].
  eexists. split; [reflexivity |].
  cbn [log set_log map]. rewrite <- !app_assoc. reflexivity.
Qed.

End Main.

(** C2, as the code has it.  A missing file ends [main] with status 4,
    an invalid image (no header at [BUFFER1], or [filesize] above
    [FLASHSIZE], when [validFirmware] runs) with status 19, an empty
    file with the message of the read error and status 0; in all three
    the flash, its registers and its key are untouched. *)
Theorem fail_fast_outcomes :
  forall (F : Type) (dev : device F) (L : layout) (w : world F),
    (card w "MOS.bin" = None ->
     exists w', main dev L w = Ret 4 w' /\ untouched w w')
    /\ (forall bytes,
           card w "MOS.bin" = Some bytes ->
           containsMosHeader (load dev L w) (BUFFER1 L) = false
           \/ FLASHSIZE L < filesize w ->
           exists w', main dev L w = Ret 19 w' /\ untouched w w')
    /\ (card w "MOS.bin" = Some [] ->
        containsMosHeader (load dev L w) (BUFFER1 L) = true ->
        filesize w <= FLASHSIZE L ->
        exists w',
          main dev L w = Ret 0 w' /\ untouched w w'
          /\ exists before,
              ops w' = before ++ [Printf "\r\nError reading from SD card\r\n" []]).
Proof.
  intros F dev L w. split; [| split].
  - apply main_file_not_found.
  - apply main_invalid_image.
  - apply main_read_error.
Qed.

Lemma fail_fast_outcomes_witness :
  (exists w', main (ideal agon) agon (started agon None) = Ret 4 w'
              /\ untouched (started agon None) w')
  /\ (exists w',
         main (ideal agon) agon (boot (fun _ => 0) blank (sd_with firmware) [121])
         = Ret 19 w'
         /\ untouched (boot (fun _ => 0) blank (sd_with firmware) [121]) w')
  /\ (exists w', main (ideal agon) agon (started agon (Some [])) = Ret 0 w'
                 /\ untouched (started agon (Some [])) w').
Proof.
  split; [| split].
  - apply (proj1 (fail_fast_outcomes _ (ideal agon) agon (started agon None))).
    reflexivity.
  - apply (proj1 (proj2 (fail_fast_outcomes _ (ideal agon) agon
                           (boot (fun _ => 0) blank (sd_with firmware) [121])))
             firmware).
    + reflexivity.
    + left. vm_compute. reflexivity.
  - destruct (proj2 (proj2 (fail_fast_outcomes _ (ideal agon) agon
                              (started agon (Some []))))
                eq_refl) as (w' & E & U & _).
    + vm_compute. reflexivity.
    + vm_compute. discriminate.
    + exists w'. split; assumption.
Defined.

(** C2 as stated fails: the run on an empty [MOS.bin] ends with the read
    error and status 0. *)
Lemma read_error_exits_zero :
  ~ exits_nonzero (ideal agon) agon (started agon (Some [])).
Proof.
  intro H.
  destruct (main_read_error (ideal agon) agon (started agon (Some [])))
    as (w' & E & _).
  - reflexivity.
  - vm_compute. reflexivity.
  - vm_compute. discriminate.
  - exact (H 0 w' E eq_refl).
Qed.

(** C10.  When [update_mos] returns true, [main] prints its three
    closing messages and enters [while(1);]: it does not return, with
    any status. *)
Theorem main_awaits_reset_after_success :
  forall (F : Type) (dev : device F) (L : layout) (w w1 w2 : world F),
    preflight dev L w = Ret None w1 ->
    update_mos dev L w1 = Ret true w2 ->
    (exists w3,
        main dev L w = Hung AwaitReset w3
        /\ log w3
           = log w2
             ++ map (At (irq w2))
                  [Printf "Done\r\n\r\n" [];
                   Printf "Please don't forget to update the VDP\r\n" [];
                   Printf "It is OK to reset or shut down the system now " []])
    /\ (forall status w', main dev L w <> Ret status w').
Proof.
  intros F dev L w w1 w2 Hp Hu.
  destruct (main_after_success dev L w w1 w2 Hp Hu) as (w3 & E & Lg).
  split.
  - exists w3. split; assumption.
  - intros status w' H. rewrite E in H. discriminate H.
Qed.

Lemma started_preflight :
  preflight (ideal agon) agon (started agon (Some firmware)) = Ret None confirmed.
Proof.
  assert (H : match preflight (ideal agon) agon (started agon (Some firmware)) with
              | Ret None _ => True
              | _ => False
              end) by (vm_compute; exact I).
  unfold confirmed. fold (started agon (Some firmware)).
  destruct (preflight (ideal agon) agon (started agon (Some firmware)))
    as [[s |] w' | h w']; try contradiction.
  reflexivity.
Qed.

Lemma main_awaits_reset_after_success_witness :
  exists w3, main (ideal agon) agon (started agon (Some firmware)) = Hung AwaitReset w3.
Proof.
  destruct confirmed_returns as [w2 Hu].
  destruct (proj1 (main_awaits_reset_after_success _ (ideal agon) agon
                     (started agon (Some firmware)) confirmed w2
                     started_preflight Hu)) as (w3 & E & _).
  exists w3. exact E.
Defined.

(** C1 on the code.  [main] calls [validFirmware] before [readMemory]:
    the buffer it checks is what an earlier load left at [BUFFER1], and
    [filesize] is still 0.  With a firmware header left in memory, a
    file that has no header is read, confirmed, erased for and written
    to the flash, and verified; so is, on a small geometry, a file
    larger than the flash.  With blank memory, a file that does begin
    with the header is turned down. *)
Theorem main_validates_before_loading :
  containsMosHeader (fun a => nth (Z.to_nat a) garbage 0) 0 = false
  /\ (exists w', main (ideal agon) agon (started agon (Some garbage))
                 = Hung AwaitReset w')
  /\ loaded (ideal agon) agon
            (final (main (ideal agon) agon (started agon (Some garbage)))) 0 8
     = garbage
  /\ FLASHSIZE tiny < Z.of_nat (List.length oversized)
  /\ (exists w', main (ideal tiny) tiny (started tiny (Some oversized))
                 = Hung AwaitReset w')
  /\ containsMosHeader (fun a => nth (Z.to_nat a) firmware 0) 0 = true
  /\ (exists w',
         main (ideal agon) agon (boot (fun _ => 0) blank (sd_with firmware) [121])
         = Ret 19 w').
Proof.
  split; [vm_compute; reflexivity |].
  split.
  { assert (H : match main (ideal agon) agon (started agon (Some garbage)) with
                | Hung AwaitReset _ => True
                | _ => False
                end) by (vm_compute; exact I).
    destruct (main (ideal agon) agon (started agon (Some garbage)))
      as [s w' | [| |] w']; try contradiction.
    exists w'. reflexivity. }
  split; [vm_compute; reflexivity |].
  split; [vm_compute; reflexivity |].
  split.
  { assert (H : match main (ideal tiny) tiny (started tiny (Some oversized)) with
                | Hung AwaitReset _ => True
                | _ => False
                end) by (vm_compute; exact I).
    destruct (main (ideal tiny) tiny (started tiny (Some oversized)))
      as [s w' | [| |] w']; try contradiction.
    exists w'. reflexivity. }
  split; [vm_compute; reflexivity |].
  destruct (main_invalid_image (ideal agon) agon
              (boot (fun _ => 0) blank (sd_with firmware) [121]) firmware)
    as (w' & E & _).
  - reflexivity.
  - left. vm_compute. reflexivity.
  - exists w'. exact E.
Qed.

(** ** The round trip on a flash that works *)

Section RoundTrip.
Variable L : layout.

Lemma bind_Ret {F A B : Type} (m : M F A) (k : A -> M F B) w a w1 :
  m w = Ret a w1 -> bind m k w = k a w1.
Proof. intro E. unfold bind. rewrite E. reflexivity. Qed.

Lemma protected_0 (a : Z) : protected L 0 a = false.
Proof. unfold protected. apply Z.bits_0. Qed.

Lemma u24_small (x : Z) : 0 <= x < 2 ^ 24 -> u24 x = x.
Proof. intro H. unfold u24. apply Z.mod_small. exact H. Qed.

Lemma u8_small (x : Z) : 0 <= x < 256 -> u8 x = x.
Proof. intro H. unfold u8. apply Z.mod_small. exact H. Qed.

Lemma u8_u8 (x : Z) : u8 (u8 x) = u8 x.
Proof. apply u8_small. apply u8_range. Qed.

Lemma land_erased (x : Z) : Z.land 0xFF (u8 x) = u8 x.
Proof.
  rewrite Z.land_comm. change 0xFF with (Z.ones 8).
  rewrite Z.land_ones by lia. apply u8_u8.
Qed.

(** Erasing: what is erased stays erased, and every page named is. *)
Lemma erase_pages_ideal (counters : list Z) :
  forall w : world (Z -> Z),
    prot w = 0 ->
    (forall c, In c counters -> 0 <= c < 256) ->
    exists w',
      for_each counters
               (fun counter => out_page counter ;; erase_and_poll (ideal L)) w
      = Ret tt w'
      /\ ram w' = ram w /\ prot w' = 0
      /\ filesize w' = filesize w /\ moscrc w' = moscrc w
      /\ (forall a, flash w a = 0xFF -> flash w' a = 0xFF)
      /\ (forall a, In ((a - FLASHSTART L) / PAGESIZE L) counters ->
                    flash w' a = 0xFF).
Proof.
  induction counters as [| c rest IH]; intros w Hp Hc; cbn [for_each].
  - exists w. split; [reflexivity |].
    split; [reflexivity | split; [exact Hp | split; [reflexivity |
      split; [reflexivity | split]]]].
    + intros a Ha. exact Ha.
    + intros a [].
  - set (w1 := set_flash
                 (fun a => if negb (protected L (prot w) a)
                              && ((a - FLASHSTART L) / PAGESIZE L =? u8 c)
                           then 0xFF else flash w a)
                 (set_log ((log w ++ [At (irq w) (Out FLASH_PAGE (u8 c))])
                           ++ [At (irq w) (Out FLASH_PGCTL 2)])
                          (set_page (u8 c) w))).
    assert (E1 : (out_page c ;; erase_and_poll (ideal L)) w = Ret tt w1)
      by reflexivity.
    destruct (IH w1) as (w' & E & Hr & Hp' & Hs & Hm & Hkeep & Herased).
    + exact Hp.
    + intros c' Hc'. apply Hc. right. exact Hc'.
    + exists w'. unfold bind at 1. rewrite E1.
      split; [exact E |].
      split; [exact Hr | split; [exact Hp' | split; [exact Hs | split; [exact Hm |]]]].
      assert (Hc0 : u8 c = c) by (apply u8_small; apply Hc; left; reflexivity).
      split.
      * intros a Ha. apply Hkeep. subst w1. cbn [flash set_flash].
        destruct (negb (protected L (prot w) a)
                  && ((a - FLASHSTART L) / PAGESIZE L =? u8 c));
          [reflexivity | exact Ha].
      * intros a [Ha | Ha].
        -- apply Hkeep. subst w1. cbn [flash set_flash].
           rewrite Hp, protected_0, Hc0, Ha, Z.eqb_refl. reflexivity.
        -- apply Herased. exact Ha.
Qed.


Lemma in_flash_flash (size j : Z) :
  sane L size -> 0 <= j < size -> in_flash L (FLASHSTART L + j) = true.
Proof.
  unfold sane, in_flash. intros H Hj.
  apply andb_true_iff. split; [apply Z.leb_le | apply Z.ltb_lt]; lia.
Qed.

Lemma in_flash_buffer (size j : Z) :
  sane L size -> 0 <= j < size -> in_flash L (BUFFER1 L + j) = false.
Proof.
  unfold sane, in_flash. intros H Hj.
  apply andb_false_iff.
  destruct H as (_ & _ & _ & _ & _ & _ & _ & [Hd | Hd] & _).
  - left. apply Z.leb_gt. lia.
  - right. apply Z.ltb_ge. lia.
Qed.

(** One byte of the copy. *)
Lemma copy_byte_ideal (r : Z -> Z) (size t s d : Z) (w : world (Z -> Z)) :
  sane L size -> programmed L r t w -> 0 <= t < size ->
  s = BUFFER1 L + t -> d = FLASHSTART L + t ->
  exists w',
    (b <- gets (fun w => load (ideal L) L w s) ;; store (ideal L) L d b) w
    = Ret tt w'
    /\ programmed L r (t + 1) w'
    /\ filesize w' = filesize w /\ moscrc w' = moscrc w.
Proof.
  intros Hsane (Hr & Hp & Hdone & Hleft) Ht -> ->.
  pose proof Hsane as (HP & HN & HF & HS & HS' & HB & HB' & Hd & Hsz).
  unfold bind, gets, store, modify, load.
  rewrite !u24_small by lia.
  rewrite (in_flash_flash size t Hsane Ht), (in_flash_buffer size t Hsane Ht).
  eexists. split; [reflexivity |].
  cbn [ram prot flash filesize moscrc set_flash]. unfold programmed.
  cbn [ram prot flash set_flash dev_program ideal].
  rewrite Hp, protected_0, Hr.
  split; [| split; reflexivity].
  split; [reflexivity | split; [reflexivity | split]].
  - intros j Hj. destruct (Z.eqb_spec (FLASHSTART L + j) (FLASHSTART L + t)) as [E | NE].
    + assert (j = t) by lia. subst j.
      rewrite (Hleft t) by lia. rewrite u8_u8. apply land_erased.
    + apply Hdone. lia.
  - intros j Hj. destruct (Z.eqb_spec (FLASHSTART L + j) (FLASHSTART L + t)) as [E | NE].
    + lia.
    + apply Hleft. lia.
Qed.

(** [len] bytes of the copy, from offset [t0] on. *)
Lemma copy_ideal (r : Z -> Z) (size t0 s d : Z) (n : nat) :
  sane L size -> 0 <= t0 ->
  s = BUFFER1 L + t0 -> d = FLASHSTART L + t0 ->
  forall (i : nat) (w : world (Z -> Z)),
    programmed L r (t0 + Z.of_nat i) w ->
    t0 + Z.of_nat i + Z.of_nat n <= size ->
    exists w',
      for_each (map Z.of_nat (seq i n))
               (fun i => b <- gets (fun w => load (ideal L) L w (s + i)) ;;
                         store (ideal L) L (d + i) b) w
      = Ret tt w'
      /\ programmed L r (t0 + Z.of_nat i + Z.of_nat n) w'
      /\ filesize w' = filesize w /\ moscrc w' = moscrc w.
Proof.
  intros Hsane Ht0 Hs Hd. induction n as [| n IH]; intros i w Hprog Hn;
    cbn [seq map for_each].
  - exists w. split; [reflexivity |]. rewrite Z.add_0_r.
    split; [exact Hprog | split; reflexivity].
  - destruct (copy_byte_ideal r size (t0 + Z.of_nat i) (s + Z.of_nat i)
                (d + Z.of_nat i) w Hsane Hprog) as (w1 & E1 & P1 & S1 & M1);
      [lia | lia | lia |].
    destruct (IH (S i) w1) as (w2 & E2 & P2 & S2 & M2).
    + replace (t0 + Z.of_nat (S i)) with (t0 + Z.of_nat i + 1) by lia. exact P1.
    + lia.
    + exists w2. unfold bind at 1. rewrite E1.
      split; [exact E2 |].
      replace (t0 + Z.of_nat i + Z.of_nat (S n))
        with (t0 + Z.of_nat (S i) + Z.of_nat n) by lia.
      split; [exact P2 | split; congruence].
Qed.


Lemma fastmemcpy_ideal (r : Z -> Z) (size t len : Z) (w : world (Z -> Z)) :
  sane L size -> programmed L r t w -> 0 <= t -> 0 <= len -> t + len <= size ->
  exists w',
    fastmemcpy (ideal L) L (FLASHSTART L + t) (BUFFER1 L + t) len w = Ret tt w'
    /\ programmed L r (t + len) w'
    /\ filesize w' = filesize w /\ moscrc w' = moscrc w.
Proof.
  intros Hsane Hprog Ht Hlen Hfit. unfold fastmemcpy, range.
  set (w0 := set_log (log w ++ [At (irq w)
                 (Fastmemcpy (FLASHSTART L + t) (BUFFER1 L + t) len)]) w).
  assert (P0 : programmed L r (t + Z.of_nat 0) w0).
  { rewrite Z.add_0_r. exact Hprog. }
  destruct (copy_ideal r size t (BUFFER1 L + t) (FLASHSTART L + t)
              (Z.to_nat len) Hsane Ht eq_refl eq_refl 0%nat w0 P0)
    as (w' & E & P' & S' & M'); [cbn [Z.of_nat]; lia |].
  exists w'. unfold bind at 1. cbn [emit]. fold w0.
  split; [exact E |].
  cbn [Z.of_nat] in P'. rewrite Z.add_0_r, Z2Nat.id in P' by lia.
  split; [exact P' | split; assumption].
Qed.

Lemma page_arith (size : Z) :
  sane L size ->
  size = (pagemax_of L size - 1) * PAGESIZE L + lastpagebytes_of L size
  /\ 1 <= lastpagebytes_of L size <= PAGESIZE L
  /\ 1 <= pagemax_of L size < 2 ^ 24.
Proof.
  intros (HP & HN & HF & HS & HS' & HB & HB' & Hd & Hsz).
  assert (Hs24 : 0 < size < 2 ^ 24) by lia.
  pose proof (pagemax_of_range L size HP Hs24) as Hpm.
  split; [| split; [| exact Hpm]].
  - revert Hpm. unfold pagemax_of, lastpagebytes_of.
    pose proof (Z.div_mod size (PAGESIZE L) ltac:(lia)) as Hdm.
    pose proof (Z.mod_pos_bound size (PAGESIZE L) HP) as Hr.
    pose proof (Z.div_pos size (PAGESIZE L) ltac:(lia) HP) as Hq.
    destruct (Z.eqb_spec (size mod PAGESIZE L) 0) as [E | NE]; cbn [negb];
      intro Hpm.
    + rewrite E in Hdm. rewrite Z.mul_sub_distr_r. lia.
    + assert (Hq' : size / PAGESIZE L + 1 < 2 ^ 24) by nia.
      rewrite u24_small by lia.
      replace (size / PAGESIZE L + 1 - 1) with (size / PAGESIZE L) by lia.
      lia.
  - unfold lastpagebytes_of.
    pose proof (Z.mod_pos_bound size (PAGESIZE L) HP) as Hr.
    destruct (Z.eqb_spec (size mod PAGESIZE L) 0) as [E | NE]; cbn [negb]; lia.
Qed.


(** The programming phase: after the last page the whole image is in
    the flash. *)
Lemma write_pages_ideal (r : Z -> Z) (size : Z) :
  sane L size ->
  forall (n c : nat) (ato afrom : Z) (w : world (Z -> Z)),
    Z.of_nat c + Z.of_nat n = pagemax_of L size ->
    programmed L r (Z.min (Z.of_nat c * PAGESIZE L) size) w ->
    ((0 < n)%nat -> ato = FLASHSTART L + Z.of_nat c * PAGESIZE L
                    /\ afrom = BUFFER1 L + Z.of_nat c * PAGESIZE L) ->
    exists w',
      write_pages (ideal L) L (map Z.of_nat (seq c n)) (pagemax_of L size)
                  (lastpagebytes_of L size) ato afrom w
      = Ret tt w'
      /\ programmed L r size w'
      /\ filesize w' = filesize w /\ moscrc w' = moscrc w.
Proof.
  intro Hsane. pose proof (page_arith size Hsane) as (Hsize & Hlast & Hpm).
  pose proof Hsane as (HP & HN & HF & HS & HS' & HB & HB' & Hd & Hsz).
  set (pm := pagemax_of L size) in *. set (last := lastpagebytes_of L size) in *.
  set (P := PAGESIZE L) in *.
  assert (Hpages : (pm - 1) * P = pm * P - P) by ring.
  induction n as [| n IH]; intros c ato afrom w Hc Hprog Haddr;
    cbn [seq map write_pages].
  - exists w. split; [reflexivity |].
    split; [| split; reflexivity].
    assert (E : Z.of_nat c = pm) by lia. rewrite E in Hprog.
    replace (Z.min (pm * P) size) with size in Hprog by lia.
    exact Hprog.
  - change (PAGESIZE L) with P.
    destruct (Haddr ltac:(lia)) as [-> ->].
    assert (Hnn : 0 <= Z.of_nat c * P) by (apply Z.mul_nonneg_nonneg; lia).
    assert (Hc0 : Z.of_nat c * P <= (pm - 1) * P)
      by (apply Z.mul_le_mono_nonneg_r; lia).
    assert (Hmin : Z.min (Z.of_nat c * P) size = Z.of_nat c * P) by lia.
    rewrite Hmin in Hprog.
    set (w0 := set_log (log w ++ [At (irq w)
                 (Printf "\rWriting flash page %03d/%03d"
                         [u24 (Z.of_nat c + 1); pm])]) w).
    assert (Hprog0 : programmed L r (Z.of_nat c * P) w0) by exact Hprog.
    rewrite (u24_small (pm - 1)) by lia.
    destruct (Z.eqb_spec (Z.of_nat c) (pm - 1)) as [Elast | Nlast].
    + assert (Et : Z.of_nat c * P = (pm - 1) * P) by (rewrite Elast; reflexivity).
      destruct (fastmemcpy_ideal r size (Z.of_nat c * P) last w0 Hsane Hprog0)
        as (w1 & E1 & P1 & S1 & M1); [lia | lia | lia |].
      assert (n = 0%nat) by lia. subst n.
      exists w1. unfold bind. cbn [printf emit]. fold w0. rewrite E1.
      cbn [seq map write_pages ret].
      split; [reflexivity |].
      replace (Z.of_nat c * P + last) with size in P1 by lia.
      split; [exact P1 | split; assumption].
    + assert (Hnext : Z.of_nat (S c) * P = Z.of_nat c * P + P)
        by (rewrite Nat2Z.inj_succ; ring).
      assert (Hc1 : Z.of_nat (S c) * P <= (pm - 1) * P)
        by (apply Z.mul_le_mono_nonneg_r; lia).
      destruct (fastmemcpy_ideal r size (Z.of_nat c * P) P w0 Hsane Hprog0)
        as (w1 & E1 & P1 & S1 & M1); [lia | lia | lia |].
      destruct (IH (S c) (u24 (FLASHSTART L + Z.of_nat c * P + P))
                  (u24 (BUFFER1 L + Z.of_nat c * P + P)) w1)
        as (w2 & E2 & P2 & S2 & M2).
      * lia.
      * replace (Z.min (Z.of_nat (S c) * P) size) with (Z.of_nat c * P + P) by lia.
        exact P1.
      * intros _. rewrite !u24_small by lia. split; lia.
      * exists w2. unfold bind. cbn [printf emit]. fold w0. rewrite E1.
        split; [exact E2 |].
        split; [exact P2 | split].
        -- rewrite S2, S1. reflexivity.
        -- rewrite M2, M1. reflexivity.
Qed.


Lemma image_bytes (r : Z -> Z) (size : Z) :
  Forall (fun b => 0 <= b < 256) (map (fun i => u8 (r (BUFFER1 L + i))) (range size)).
Proof.
  apply Forall_forall. intros b Hb. apply in_map_iff in Hb.
  destruct Hb as [i [<- _]]. apply u8_range.
Qed.

Lemma loaded_buffer (size : Z) (w : world (Z -> Z)) :
  sane L size ->
  loaded (ideal L) L w (BUFFER1 L) size
  = map (fun i => u8 (ram w (BUFFER1 L + i))) (range size).
Proof.
  intro Hsane. pose proof Hsane as (HP & HN & HF & HS & HS' & HB & HB' & Hd & Hsz).
  unfold loaded. apply map_ext_in. intros i Hi. apply In_range in Hi.
  unfold load. rewrite u24_small by lia.
  rewrite (in_flash_buffer size i Hsane Hi). reflexivity.
Qed.

Lemma loaded_flash (r : Z -> Z) (size : Z) (w : world (Z -> Z)) :
  sane L size -> programmed L r size w ->
  loaded (ideal L) L w (FLASHSTART L) size
  = map (fun i => u8 (r (BUFFER1 L + i))) (range size).
Proof.
  intros Hsane (_ & _ & Hdone & _).
  pose proof Hsane as (HP & HN & HF & HS & HS' & HB & HB' & Hd & Hsz).
  unfold loaded. apply map_ext_in. intros i Hi. apply In_range in Hi.
  unfold load. rewrite u24_small by lia.
  rewrite (in_flash_flash size i Hsane Hi).
  cbn [dev_read ideal]. rewrite Hdone by lia. apply u8_u8.
Qed.

(** On a flash that works, an attempt on an image that fits ends with
    the checksum of the flash equal to the checksum of the image. *)
Lemma attempt_core_ideal (size : Z) (r : Z -> Z) (crcvalue : Z) (w0 : world (Z -> Z)) :
  sane L size ->
  filesize w0 = size ->
  moscrc w0 = crcvalue ->
  crcvalue = crc32_bitwise (map (fun i => u8 (r (BUFFER1 L + i))) (range size)) ->
  ram w0 = r ->
  exists w',
    (printf "Erasing flash... " [] ;;
     enableFlashKeyRegister ;;
     out_prot 0 ;;
     enableFlashKeyRegister ;;
     out_fdiv 0x5F ;;
     erase_pages (ideal L) L ;;
     printf "\r\n" [] ;;
     size <- gets filesize ;;
     write_pages (ideal L) L (range (pagemax_of L size)) (pagemax_of L size)
                 (lastpagebytes_of L size) (u24 (FLASHSTART L)) (u24 (BUFFER1 L)) ;;
     lockFlashKeyRegister ;;
     printf "\r\nChecking CRC... " [] ;;
     crc32_initialize ;;
     crc32 (ideal L) L (FLASHSTART L) size ;;
     crcresult <- crc32_finalize ;;
     expected <- gets moscrc ;;
     if crcresult =? expected
     then printf "OK\r\n" [] ;; ret true
     else printf "ERROR\r\n" [] ;; ret false) w0
    = Ret true w'.
Proof.
  intros Hsane Hs0 Hm0 Hcrc Hr0.
  pose proof Hsane as (HP & HN & HF & HS & HS' & HB & HB' & Hd & Hsz).
  erewrite bind_Ret by reflexivity.
  erewrite bind_Ret by reflexivity.
  erewrite bind_Ret by reflexivity.
  erewrite bind_Ret by reflexivity.
  erewrite bind_Ret by reflexivity.
  match goal with
  | |- exists w', bind _ _ ?x = _ => set (w5 := x)
  end.
  assert (P5 : prot w5 = 0) by reflexivity.
  assert (R5 : ram w5 = r) by exact Hr0.
  assert (S5 : filesize w5 = size) by exact Hs0.
  assert (M5 : moscrc w5 = crcvalue) by exact Hm0.
  clearbody w5.
  destruct (erase_pages_ideal (range (FLASHPAGES L)) w5 P5)
    as (w6 & E6 & R6 & P6 & S6 & M6 & _ & Herased).
  { intros c Hc. apply In_range in Hc. lia. }
  rewrite (bind_Ret _ _ _ _ _ E6).
  erewrite bind_Ret by reflexivity.
  erewrite bind_Ret by reflexivity.
  match goal with
  | |- exists w', bind _ _ ?x = _ => set (w7 := x)
  end.
  assert (R7 : ram w7 = r) by (rewrite <- R5, <- R6; reflexivity).
  assert (P7' : prot w7 = 0) by exact P6.
  assert (S7 : filesize w7 = size) by (rewrite <- S5, <- S6; reflexivity).
  assert (M7 : moscrc w7 = crcvalue) by (rewrite <- M5, <- M6; reflexivity).
  assert (F7 : flash w7 = flash w6) by reflexivity.
  clearbody w7. rewrite S7.
  assert (P7 : programmed L r (Z.min (Z.of_nat 0 * PAGESIZE L) size) w7).
  { replace (Z.min (Z.of_nat 0 * PAGESIZE L) size) with 0 by (cbn [Z.of_nat]; lia).
    unfold programmed. rewrite F7.
    split; [exact R7 | split; [exact P7' | split]].
    - intros j Hj. lia.
    - intros j Hj. apply Herased. apply In_range.
      replace (FLASHSTART L + j - FLASHSTART L) with j by lia.
      split; [apply Z.div_pos; lia | apply Z.div_lt_upper_bound; lia]. }
  destruct (write_pages_ideal r size Hsane (Z.to_nat (pagemax_of L size)) 0
              (u24 (FLASHSTART L)) (u24 (BUFFER1 L)) w7)
    as (w8 & E8 & P8 & S8 & M8).
  { pose proof (page_arith size Hsane) as (_ & _ & Hpm). cbn [Z.of_nat]. lia. }
  { exact P7. }
  { intros _. cbn [Z.of_nat]. rewrite !u24_small by lia. lia. }
  fold (range (pagemax_of L size)) in E8.
  rewrite (bind_Ret _ _ _ _ _ E8).
  erewrite bind_Ret by reflexivity.
  erewrite bind_Ret by reflexivity.
  erewrite bind_Ret by reflexivity.
  match goal with
  | |- exists w', bind _ _ ?x = _ => set (w9 := x)
  end.
  assert (P9 : programmed L r size w9) by exact P8.
  assert (M9 : moscrc w9 = crcvalue) by (rewrite <- M7, <- M8; reflexivity).
  assert (C9 : crc w9 = crc32_seed) by reflexivity.
  clearbody w9.
  erewrite bind_Ret by reflexivity.
  erewrite bind_Ret by reflexivity.
  erewrite bind_Ret by reflexivity.
  match goal with
  | |- exists w', (if ?c =? ?m then _ else _) ?x = _ =>
      assert (Eq : c = m)
  end.
  { cbn [moscrc crc set_crc set_log log]. rewrite M9, C9, Hcrc.
    unfold crc32_bitwise. f_equal.
    rewrite <- (crc32_fold_bitwise _ (image_bytes r size)).
    f_equal.
    exact (loaded_flash r size _ Hsane P9). }
  rewrite Eq, Z.eqb_refl.
  erewrite bind_Ret by reflexivity.
  eexists. reflexivity.
Qed.


Lemma attempt_body_ideal (size attempt : Z) (w : world (Z -> Z)) :
  sane L size ->
  filesize w = size ->
  moscrc w = crc32_bitwise (loaded (ideal L) L w (BUFFER1 L) size) ->
  exists w', attempt_body (ideal L) L attempt w = Ret true w'.
Proof.
  intros Hsane Hsize Hcrc.
  rewrite (loaded_buffer size w Hsane) in Hcrc.
  unfold attempt_body.
  destruct (0 <? attempt); erewrite bind_Ret by reflexivity;
    (apply (attempt_core_ideal size (ram w) (moscrc w));
     [exact Hsane | exact Hsize | reflexivity | exact Hcrc | reflexivity]).
Qed.

(** The round trip: on a flash that works, for every image that fits
    and whose checksum is in [moscrc], [update_mos] returns true after
    one cycle. *)
Lemma update_mos_ideal (size : Z) (w : world (Z -> Z)) :
  sane L size ->
  filesize w = size ->
  moscrc w = crc32_bitwise (loaded (ideal L) L w (BUFFER1 L) size) ->
  exists w',
    update_mos (ideal L) L w = Ret true w'
    /\ filter cycle_op (ops w') = filter cycle_op (ops w) ++ full_cycle L size.
Proof.
  intros Hsane Hsize Hcrc.
  assert (Hfirst : first_success (ideal L) L 1 w).
  { split; [intros j Hj; lia |].
    unfold verdict. rewrite update_mos_prologue_ret. cbn [final pred verdict_from].
    match goal with
    | |- match attempt_body _ _ _ ?x with _ => _ end = _ =>
        destruct (attempt_body_ideal size 0 x Hsane Hsize Hcrc) as [w1 E]
    end.
    rewrite E. reflexivity. }
  destruct (update_mos_first_success (ideal L) L w 1%nat ltac:(lia) Hfirst)
    as (w' & E & Hops).
  exists w'. split; [exact E |].
  rewrite Hops, Hsize. cbn [repeat List.concat]. rewrite app_nil_r. reflexivity.
Qed.

End RoundTrip.

(** The Agon's geometry holds every image that fits its flash. *)
Lemma sane_agon (size : Z) : 0 < size <= FLASHSIZE agon -> sane agon size.
Proof.
  unfold sane. cbn [PAGESIZE FLASHPAGES FLASHSTART FLASHSIZE BUFFER1 agon]. lia.
Qed.

(** The checksum pass of [main] followed by the flash operation. *)
Lemma calculateCRC32_then_update_mos (L : layout) (size : Z) (w : world (Z -> Z)) :
  sane L size ->
  filesize w = size ->
  exists w1 w2,
    calculateCRC32 (ideal L) L w = Ret tt w1
    /\ update_mos (ideal L) L w1 = Ret true w2
    /\ filter cycle_op (ops w2) = filter cycle_op (ops w1) ++ full_cycle L size.
Proof.
  intros Hsane Hsize.
  destruct (calculateCRC32_ret (ideal L) L w) as (w1 & E1 & Hr & Hf & Hs & Hm).
  assert (Hcrc : moscrc w1
                 = crc32_bitwise (loaded (ideal L) L w1 (BUFFER1 L) size)).
  { rewrite Hm, Hsize, !(loaded_buffer L size) by exact Hsane.
    rewrite Hr. reflexivity. }
  destruct (update_mos_ideal L size w1 Hsane ltac:(congruence) Hcrc)
    as (w2 & E2 & Hops).
  exists w1, w2. split; [exact E1 | split; [exact E2 | exact Hops]].
Qed.
(** ** The programming phase, at the device *)

Section Traced.
Context {F : Type}.
Variable dev : device F.
Variable L : layout.

(** The erase phase stores nothing. *)
Lemma erase_traced (counters : list Z) :
  forall (w w' : world (F * list (Z * Z))),
    for_each counters
             (fun counter => out_page counter ;; erase_and_poll (traced dev)) w
    = Ret tt w' ->
    ram w' = ram w /\ stores w' = stores w /\ filesize w' = filesize w.
Proof.
  induction counters as [| counter rest IH]; intros w w' H; cbn [for_each] in H.
  - injection H as <-. repeat split.
  - apply bind_ret_inv in H. destruct H as ([] & w1 & H1 & H).
    apply IH in H. destruct H as (R & S & Sz).
    rewrite R, S, Sz. clear R S Sz IH.
    unfold out_page, erase_and_poll, bind, emit, modify in H1.
    cbn [prot page flash log irq set_log set_page dev_erase traced] in H1.
    destruct (dev_erase dev (prot w) (u8 counter) (fst (flash w))) as [f |];
      [| discriminate H1].
    injection H1 as <-. repeat split.
Qed.

(** One byte of the copy: read from the buffer, handed to the device. *)
Lemma copy_byte_traced (r : Z -> Z) (tape : list (Z * Z)) (size t s d : Z)
      (w : world (F * list (Z * Z))) :
  sane L size -> ram w = r -> stores w = tape ++ image_stores L r t ->
  0 <= t < size ->
  s = BUFFER1 L + t -> d = FLASHSTART L + t ->
  exists w',
    (b <- gets (fun w => load (traced dev) L w s) ;; store (traced dev) L d b) w
    = Ret tt w'
    /\ ram w' = r /\ stores w' = tape ++ image_stores L r (t + 1).
Proof.
  intros Hsane Hr Hst Ht -> ->.
  pose proof Hsane as (HP & HN & HF & HS & HS' & HB & HB' & Hd & Hsz).
  unfold bind, gets, store, modify, load.
  rewrite !u24_small by lia.
  rewrite (in_flash_flash L size t Hsane Ht), (in_flash_buffer L size t Hsane Ht).
  eexists. split; [reflexivity |].
  unfold stores in *. cbn [ram flash set_flash dev_program traced snd].
  split; [exact Hr |].
  rewrite Hst, Hr, u8_u8. unfold image_stores.
  rewrite range_snoc, map_app, app_assoc by lia. reflexivity.
Qed.

(** [n] bytes of the copy, from offset [t0 + i] on. *)
Lemma copy_traced (r : Z -> Z) (tape : list (Z * Z)) (size t0 s d : Z) (n : nat) :
  sane L size -> 0 <= t0 ->
  s = BUFFER1 L + t0 -> d = FLASHSTART L + t0 ->
  forall (i : nat) (w : world (F * list (Z * Z))),
    ram w = r -> stores w = tape ++ image_stores L r (t0 + Z.of_nat i) ->
    t0 + Z.of_nat i + Z.of_nat n <= size ->
    exists w',
      for_each (map Z.of_nat (seq i n))
               (fun i => b <- gets (fun w => load (traced dev) L w (s + i)) ;;
                         store (traced dev) L (d + i) b) w
      = Ret tt w'
      /\ ram w' = r
      /\ stores w' = tape ++ image_stores L r (t0 + Z.of_nat i + Z.of_nat n).
Proof.
  intros Hsane Ht0 Hs Hd. induction n as [| n IH]; intros i w Hr Hst Hn;
    cbn [seq map for_each].
  - exists w. split; [reflexivity |]. rewrite Z.add_0_r. split; assumption.
  - destruct (copy_byte_traced r tape size (t0 + Z.of_nat i) (s + Z.of_nat i)
                (d + Z.of_nat i) w Hsane Hr Hst) as (w1 & E1 & R1 & S1);
      [lia | lia | lia |].
    destruct (IH (S i) w1 R1) as (w2 & E2 & R2 & S2).
    + replace (t0 + Z.of_nat (S i)) with (t0 + Z.of_nat i + 1) by lia. exact S1.
    + lia.
    + exists w2. unfold bind at 1. rewrite E1.
      split; [exact E2 | split; [exact R2 |]].
      replace (t0 + Z.of_nat i + Z.of_nat (S n))
        with (t0 + Z.of_nat (S i) + Z.of_nat n) by lia.
      exact S2.
Qed.

Lemma fastmemcpy_traced (r : Z -> Z) (tape : list (Z * Z)) (size t len : Z)
      (w : world (F * list (Z * Z))) :
  sane L size -> ram w = r -> stores w = tape ++ image_stores L r t ->
  0 <= t -> 0 <= len -> t + len <= size ->
  exists w',
    fastmemcpy (traced dev) L (FLASHSTART L + t) (BUFFER1 L + t) len w = Ret tt w'
    /\ ram w' = r /\ stores w' = tape ++ image_stores L r (t + len).
Proof.
  intros Hsane Hr Hst Ht Hlen Hfit. unfold fastmemcpy, range.
  set (w0 := set_log (log w ++ [At (irq w)
                 (Fastmemcpy (FLASHSTART L + t) (BUFFER1 L + t) len)]) w).
  assert (S0 : stores w0 = tape ++ image_stores L r (t + Z.of_nat 0)).
  { rewrite Z.add_0_r. exact Hst. }
  destruct (copy_traced r tape size t (BUFFER1 L + t) (FLASHSTART L + t)
              (Z.to_nat len) Hsane Ht eq_refl eq_refl 0%nat w0 Hr S0)
    as (w' & E & R' & S'); [cbn [Z.of_nat]; lia |].
  exists w'. unfold bind at 1. cbn [emit]. fold w0.
  split; [exact E | split; [exact R' |]].
  cbn [Z.of_nat] in S'. rewrite Z.add_0_r, Z2Nat.id in S' by lia. exact S'.
Qed.

(** The programming phase: page after page, the whole image and no
    more. *)
Lemma write_pages_traced (r : Z -> Z) (tape : list (Z * Z)) (size : Z) :
  sane L size ->
  forall (n c : nat) (ato afrom : Z) (w : world (F * list (Z * Z))),
    Z.of_nat c + Z.of_nat n = pagemax_of L size ->
    ram w = r ->
    stores w = tape ++ image_stores L r (Z.min (Z.of_nat c * PAGESIZE L) size) ->
    ((0 < n)%nat -> ato = FLASHSTART L + Z.of_nat c * PAGESIZE L
                    /\ afrom = BUFFER1 L + Z.of_nat c * PAGESIZE L) ->
    exists w',
      write_pages (traced dev) L (map Z.of_nat (seq c n)) (pagemax_of L size)
                  (lastpagebytes_of L size) ato afrom w
      = Ret tt w'
      /\ ram w' = r /\ stores w' = tape ++ image_stores L r size.
Proof.
  intro Hsane. pose proof (page_arith L size Hsane) as (Hsize & Hlast & Hpm).
  pose proof Hsane as (HP & HN & HF & HS & HS' & HB & HB' & Hd & Hsz).
  set (pm := pagemax_of L size) in *. set (last := lastpagebytes_of L size) in *.
  set (P := PAGESIZE L) in *.
  assert (Hpages : (pm - 1) * P = pm * P - P) by ring.
  induction n as [| n IH]; intros c ato afrom w Hc Hr Hst Haddr;
    cbn [seq map write_pages].
  - exists w. split; [reflexivity | split; [exact Hr |]].
    assert (E : Z.of_nat c = pm) by lia. rewrite E in Hst.
    replace (Z.min (pm * P) size) with size in Hst by lia.
    exact Hst.
  - change (PAGESIZE L) with P.
    destruct (Haddr ltac:(lia)) as [-> ->].
    assert (Hnn : 0 <= Z.of_nat c * P) by (apply Z.mul_nonneg_nonneg; lia).
    assert (Hc0 : Z.of_nat c * P <= (pm - 1) * P)
      by (apply Z.mul_le_mono_nonneg_r; lia).
    assert (Hmin : Z.min (Z.of_nat c * P) size = Z.of_nat c * P) by lia.
    rewrite Hmin in Hst.
    set (w0 := set_log (log w ++ [At (irq w)
                 (Printf "\rWriting flash page %03d/%03d"
                         [u24 (Z.of_nat c + 1); pm])]) w).
    assert (Hr0 : ram w0 = r) by exact Hr.
    assert (Hst0 : stores w0 = tape ++ image_stores L r (Z.of_nat c * P))
      by exact Hst.
    rewrite (u24_small (pm - 1)) by lia.
    destruct (Z.eqb_spec (Z.of_nat c) (pm - 1)) as [Elast | Nlast].
    + assert (Et : Z.of_nat c * P = (pm - 1) * P) by (rewrite Elast; reflexivity).
      destruct (fastmemcpy_traced r tape size (Z.of_nat c * P) last w0 Hsane Hr0 Hst0)
        as (w1 & E1 & R1 & S1); [lia | lia | lia |].
      assert (n = 0%nat) by lia. subst n.
      exists w1. unfold bind. cbn [printf emit]. fold w0. rewrite E1.
      cbn [seq map write_pages ret].
      split; [reflexivity | split; [exact R1 |]].
      replace (Z.of_nat c * P + last) with size in S1 by lia.
      exact S1.
    + assert (Hnext : Z.of_nat (S c) * P = Z.of_nat c * P + P)
        by (rewrite Nat2Z.inj_succ; ring).
      assert (Hc1 : Z.of_nat (S c) * P <= (pm - 1) * P)
        by (apply Z.mul_le_mono_nonneg_r; lia).
      destruct (fastmemcpy_traced r tape size (Z.of_nat c * P) P w0 Hsane Hr0 Hst0)
        as (w1 & E1 & R1 & S1); [lia | lia | lia |].
      destruct (IH (S c) (u24 (FLASHSTART L + Z.of_nat c * P + P))
                  (u24 (BUFFER1 L + Z.of_nat c * P + P)) w1)
        as (w2 & E2 & R2 & S2).
      * lia.
      * exact R1.
      * replace (Z.min (Z.of_nat (S c) * P) size) with (Z.of_nat c * P + P) by lia.
        exact S1.
      * intros _. rewrite !u24_small by lia. split; lia.
      * exists w2. unfold bind. cbn [printf emit]. fold w0. rewrite E1.
        split; [exact E2 | split; [exact R2 | exact S2]].
Qed.

(** A whole attempt: what reaches the device is the image, byte by
    byte, in the order of the addresses. *)
Lemma attempt_body_traced (size attempt : Z) (w : world (F * list (Z * Z)))
      (ok : bool) (w' : world (F * list (Z * Z))) :
  sane L size ->
  filesize w = size ->
  attempt_body (traced dev) L attempt w = Ret ok w' ->
  ram w' = ram w /\ stores w' = stores w ++ image_stores L (ram w) size.
Proof.
  intros Hsane Hsize H.
  pose proof Hsane as (HP & HN & HF & HS & HS' & HB & HB' & Hd & Hsz).
  unfold attempt_body in H.
  apply bind_ret_inv in H. destruct H as ([] & w0 & H0 & H).
  assert (F0 : ram w0 = ram w /\ stores w0 = stores w /\ filesize w0 = size).
  { destruct (0 <? attempt); injection H0 as <-; repeat split; exact Hsize. }
  destruct F0 as (R0 & S0 & Sz0). clear H0.
  do 5 (erewrite bind_Ret in H by reflexivity).
  apply bind_ret_inv in H. destruct H as ([] & w6 & H6 & H).
  apply erase_traced in H6. destruct H6 as (R6 & S6 & Sz6).
  unfold stores in S6.
  cbn [ram flash filesize set_log set_key_open set_prot set_fdiv] in R6, S6, Sz6.
  match type of R6 with
  | context [if ?c then _ else _] => destruct c
  end;
    cbn [ram flash filesize set_log set_key_open set_prot set_fdiv] in R6, S6, Sz6;
    (match type of R6 with
     | context [if ?c then _ else _] => destruct c
     | _ => idtac
     end);
    cbn [ram flash filesize set_log set_key_open set_prot set_fdiv] in R6, S6, Sz6.
  all: do 2 (erewrite bind_Ret in H by reflexivity).
  all: cbn [filesize set_log] in H; rewrite Sz6, Sz0 in H.
  all: match type of H with
       | bind _ _ ?x = _ =>
           destruct (write_pages_traced (ram w) (stores w) size Hsane
                       (Z.to_nat (pagemax_of L size)) 0
                       (u24 (FLASHSTART L)) (u24 (BUFFER1 L)) x)
             as (w8 & E8 & R8 & S8)
       end.
  all: try (pose proof (page_arith L size Hsane) as (_ & _ & Hpm);
            cbn [Z.of_nat]; lia).
  all: try (cbn [ram set_log]; congruence).
  all: try (unfold stores, image_stores; cbn [flash set_log Z.of_nat Z.mul];
            replace (Z.min 0 size) with 0 by lia;
            cbn [range Z.to_nat seq map]; rewrite app_nil_r;
            fold (stores w); rewrite <- S0; exact S6).
  all: try (intros _; cbn [Z.of_nat]; rewrite !u24_small by lia; lia).
  all: fold (range (pagemax_of L size)) in E8.
  all: rewrite (bind_Ret _ _ _ _ _ E8) in H.
  all: unfold lockFlashKeyRegister, printf, crc32_initialize, crc32, crc32_finalize,
         emit, modify, gets, bind in H.
  all: cbn [irq log crc moscrc set_log set_key_open set_crc] in H.
  all: match type of H with
       | (if ?c then _ else _) _ = _ => destruct c
       end; injection H as <- <-; unfold stores in *;
         cbn [ram flash set_log set_crc set_key_open];
         (split; [exact R8 | exact S8]).
Qed.

End Traced.

Lemma range_app (a b : Z) :
  0 <= a -> 0 <= b -> range (a + b) = range a ++ map (fun k => a + k) (range b).
Proof.
  intros Ha Hb. unfold range.
  rewrite Z2Nat.inj_add, seq_app, map_app by lia. f_equal.
  cbn [Nat.add]. rewrite map_map.
  rewrite <- (Nat.add_0_r (Z.to_nat a)) at 1.
  generalize 0%nat as s.
  induction (Z.to_nat b) as [| n IH]; intro s; cbn [seq map].
  - reflexivity.
  - f_equal; [lia |].
    replace (S (Z.to_nat a + s)) with (Z.to_nat a + S s)%nat by lia. apply IH.
Qed.

(** The image, page by page. *)
Lemma image_stores_pages (L : layout) (r : Z -> Z) (size : Z) :
  sane L size ->
  image_stores L r size
  = List.concat
      (map (fun i =>
              map (fun k => (FLASHSTART L + i * PAGESIZE L + k,
                             u8 (r (BUFFER1 L + i * PAGESIZE L + k))))
                  (range (if i =? pagemax_of L size - 1
                          then lastpagebytes_of L size else PAGESIZE L)))
           (range (pagemax_of L size))).
Proof.
  intro Hsane. pose proof (page_arith L size Hsane) as (Hsize & Hlast & Hpm).
  destruct Hsane as (HP & _).
  set (pm := pagemax_of L size) in *. set (last := lastpagebytes_of L size) in *.
  set (P := PAGESIZE L) in *.
  set (f := fun j => (FLASHSTART L + j, u8 (r (BUFFER1 L + j)))).
  set (g := fun i => map (fun k => (FLASHSTART L + i * P + k,
                                    u8 (r (BUFFER1 L + i * P + k))))
                         (range (if i =? pm - 1 then last else P))).
  assert (Hfull : forall m : nat,
             Z.of_nat m <= pm - 1 ->
             List.concat (map g (range (Z.of_nat m))) = map f (range (Z.of_nat m * P))).
  { induction m as [| m IH]; intro Hm.
    - reflexivity.
    - rewrite Nat2Z.inj_succ. unfold Z.succ.
      rewrite range_snoc, map_app, concat_app by lia.
      rewrite IH by lia. cbn [map List.concat]. rewrite app_nil_r.
      rewrite Z.mul_add_distr_r, Z.mul_1_l.
      rewrite range_app, map_app by (try apply Z.mul_nonneg_nonneg; lia).
      f_equal. unfold g.
      replace (Z.of_nat m =? pm - 1) with false by (symmetry; apply Z.eqb_neq; lia).
      rewrite map_map. apply map_ext. intro k. unfold f.
      rewrite !Z.add_assoc. reflexivity. }
  unfold image_stores. fold f.
  replace (range pm) with (range (pm - 1 + 1)) by (f_equal; lia).
  rewrite range_snoc, map_app, concat_app by lia.
  rewrite <- (Z2Nat.id (pm - 1)) at 1 by lia.
  rewrite Hfull by lia. rewrite Z2Nat.id by lia.
  cbn [map List.concat]. rewrite app_nil_r.
  rewrite Hsize at 1.
  rewrite range_app, map_app by (try apply Z.mul_nonneg_nonneg; lia).
  f_equal. unfold g. rewrite Z.eqb_refl, map_map.
  apply map_ext. intro k. unfold f. rewrite !Z.add_assoc. reflexivity.
Qed.

(** C5.  For an image of [size] bytes, [0 < size <= FLASHSIZE]: the page
    count is the ceiling of [size / PAGESIZE]; the last page has
    [size mod PAGESIZE] bytes, or [PAGESIZE] when that is zero; the
    programming phase of an attempt copies page 0, 1, 2, ... in this
    order, page [i] from [BUFFER1 + i * PAGESIZE] to
    [FLASHSTART + i * PAGESIZE], [PAGESIZE] bytes each but the last; and
    the lengths add up to [size].  At the device, for a geometry that
    holds the image: what an attempt stores is the image and nothing
    else, [size] bytes, byte [j] of the buffer at [FLASHSTART + j], in
    the order of the addresses, whatever the device does with them;
    these are the bytes of page 0, then of page 1, and so on, a full
    page each but the last; and on a flash that works, erased and
    unprotected, the programming phase leaves the image in the first
    [size] bytes of the flash and the rest as it was erased. *)
Theorem programming_covers_image :
  forall (F : Type) (dev : device F) (L : layout) (size : Z),
    0 < PAGESIZE L ->
    FLASHSIZE L < 2 ^ 24 ->
    0 < size <= FLASHSIZE L ->
    let pages :=
      map (fun i => Fastmemcpy (u24 (FLASHSTART L + i * PAGESIZE L))
                               (u24 (BUFFER1 L + i * PAGESIZE L))
                               (if i =? pagemax_of L size - 1
                                then lastpagebytes_of L size else PAGESIZE L))
          (range (pagemax_of L size)) in
    pagemax_of L size = (size + PAGESIZE L - 1) / PAGESIZE L
    /\ lastpagebytes_of L size
       = (if size mod PAGESIZE L =? 0 then PAGESIZE L else size mod PAGESIZE L)
    /\ (forall (attempt : Z) (w : world F) (ok : bool) (w' : world F),
           filesize w = size ->
           attempt_body dev L attempt w = Ret ok w' ->
           exists added,
             log w' = log w ++ added
             /\ filter is_copy (map op added) = pages)
    /\ sumZ (map copy_length pages) = size
    /\ (sane L size ->
        (forall (attempt : Z) (w : world (F * list (Z * Z))) (ok : bool)
                (w' : world (F * list (Z * Z))),
            filesize w = size ->
            attempt_body (traced dev) L attempt w = Ret ok w' ->
            exists stored,
              stores w' = stores w ++ stored
              /\ stored
                 = map (fun j => (FLASHSTART L + j, u8 (ram w (BUFFER1 L + j))))
                       (range size)
              /\ stored
                 = List.concat
                     (map (fun i =>
                             map (fun k =>
                                    (FLASHSTART L + i * PAGESIZE L + k,
                                     u8 (ram w (BUFFER1 L + i * PAGESIZE L + k))))
                                 (range (if i =? pagemax_of L size - 1
                                         then lastpagebytes_of L size
                                         else PAGESIZE L)))
                          (range (pagemax_of L size)))
              /\ Z.of_nat (List.length stored) = size
              /\ ram w' = ram w)
        /\ (forall w : world (Z -> Z),
               prot w = 0 ->
               (forall j, 0 <= j < FLASHSIZE L ->
                          flash w (FLASHSTART L + j) = 0xFF) ->
               exists w',
                 write_pages (ideal L) L (range (pagemax_of L size))
                             (pagemax_of L size) (lastpagebytes_of L size)
                             (u24 (FLASHSTART L)) (u24 (BUFFER1 L)) w
                 = Ret tt w'
                 /\ (forall j, 0 <= j < size ->
                               flash w' (FLASHSTART L + j)
                               = u8 (ram w (BUFFER1 L + j)))
                 /\ (forall j, size <= j < FLASHSIZE L ->
                               flash w' (FLASHSTART L + j) = 0xFF))).
Proof.
  intros F dev L size HP HF Hs pages.
  assert (Hs' : 0 < size < 2 ^ 24) by lia.
  pose proof (pagemax_of_range L size HP Hs') as Hpm.
  assert (Epages : page_writes L size = pages).
  { unfold page_writes, pages. unfold u24 at 3. rewrite Z.mod_small by lia.
    reflexivity. }
  split; [apply pagemax_of_ceiling; lia | split; [| split; [| split]]].
  - unfold lastpagebytes_of.
    destruct (size mod PAGESIZE L =? 0); reflexivity.
  - intros attempt w ok w' Hsize H. apply attempt_body_ret in H.
    destruct H as (_ & _ & _ & _ & _ & _ & Lg).
    exists (map (At (irq w)) (attempt_events L attempt (filesize w) ok)).
    split; [exact Lg |].
    rewrite map_map. cbn [op]. rewrite map_id.
    rewrite <- (filter_sub is_copy cycle_op) by exact is_copy_cycle_op.
    rewrite filter_attempt_events, filter_copy_full_cycle, Hsize. exact Epages.
  - rewrite <- Epages. apply copy_lengths_sum; assumption.
  - intro Hsane. split.
    + intros attempt w ok w' Hsize H.
      destruct (attempt_body_traced dev L size attempt w ok w' Hsane Hsize H)
        as (R & S).
      exists (image_stores L (ram w) size).
      split; [exact S | split; [reflexivity |]].
      split; [exact (image_stores_pages L (ram w) size Hsane) |].
      split; [| exact R].
      unfold image_stores. rewrite length_map, range_length. lia.
    + intros w Hp Herased.
      destruct (write_pages_ideal L (ram w) size Hsane
                  (Z.to_nat (pagemax_of L size)) 0
                  (u24 (FLASHSTART L)) (u24 (BUFFER1 L)) w)
        as (w' & E & (_ & _ & Hdone & Hrest) & _).
      * cbn [Z.of_nat]. lia.
      * replace (Z.min (Z.of_nat 0 * PAGESIZE L) size) with 0
          by (cbn [Z.of_nat]; lia).
        split; [reflexivity | split; [exact Hp | split]].
        -- intros j Hj. lia.
        -- exact Herased.
      * intros _. destruct Hsane as (_ & _ & _ & HS & HS' & HB & HB' & _).
        cbn [Z.of_nat]. rewrite !u24_small by lia. lia.
      * exists w'. fold (range (pagemax_of L size)) in E.
        split; [exact E | split; [exact Hdone | exact Hrest]].
Qed.

Lemma programming_covers_image_witness :
  0 < PAGESIZE agon
  /\ FLASHSIZE agon < 2 ^ 24
  /\ 0 < 2500 <= FLASHSIZE agon
  /\ pagemax_of agon 2500 = 3
  /\ lastpagebytes_of agon 2500 = 452
  /\ (exists ok w' added,
         attempt_body (ideal agon) agon 0 (set_filesize 2500 confirmed) = Ret ok w'
         /\ log w' = log (set_filesize 2500 confirmed) ++ added
         /\ filter is_copy (map op added)
            = [Fastmemcpy 0 327680 1024; Fastmemcpy 1024 328704 1024;
               Fastmemcpy 2048 329728 452])
  /\ sumZ (map copy_length
             [Fastmemcpy 0 327680 1024; Fastmemcpy 1024 328704 1024;
              Fastmemcpy 2048 329728 452]) = 2500
  /\ sane agon 2500
  /\ (exists ok w',
         attempt_body (traced (ideal agon)) agon 0
           (set_filesize 2500
              (boot (fun _ => 0, []) (holding agon firmware) (sd_with firmware)
                    [121]))
         = Ret ok w'
         /\ Z.of_nat (List.length (stores w')) = 2500
         /\ firstn 3 (stores w') = [(0, 0xF3); (1, 0xED); (2, 0x7D)]).
Proof.
  assert (HP : 0 < PAGESIZE agon) by reflexivity.
  assert (HF : FLASHSIZE agon < 2 ^ 24) by reflexivity.
  assert (Hs : 0 < 2500 <= FLASHSIZE agon) by (cbn; lia).
  assert (Hsane : sane agon 2500) by (apply sane_agon; exact Hs).
  pose proof (programming_covers_image (Z -> Z) (ideal agon) agon 2500 HP HF Hs)
    as (Hpm & Hlast & Hlog & Hsum & Heffect).
  destruct (Heffect Hsane) as (Hstores & _).
  split; [exact HP | split; [exact HF | split; [exact Hs |]]].
  split; [rewrite Hpm; reflexivity | split; [rewrite Hlast; reflexivity |]].
  split; [| split; [exact Hsum | split; [exact Hsane |]]].
  - assert (H : match attempt_body (ideal agon) agon 0
                        (set_filesize 2500 confirmed) with
                | Ret _ _ => True
                | Hung _ _ => False
                end) by (vm_compute; exact I).
    destruct (attempt_body (ideal agon) agon 0 (set_filesize 2500 confirmed))
      as [ok w' | h w'] eqn:E; [| contradiction].
    destruct (Hlog 0 (set_filesize 2500 confirmed) ok w' eq_refl E)
      as (added & Lg & Hc).
    exists ok, w', added. split; [reflexivity | split; [exact Lg |]].
    rewrite Hc. vm_compute. reflexivity.
  - set (w0 := set_filesize 2500
                 (boot (fun _ : Z => 0, @nil (Z * Z)) (holding agon firmware)
                       (sd_with firmware) [121])).
    assert (H : match attempt_body (traced (ideal agon)) agon 0 w0 with
                | Ret _ _ => True
                | Hung _ _ => False
                end) by (vm_compute; exact I).
    destruct (attempt_body (traced (ideal agon)) agon 0 w0)
      as [ok w' | h w'] eqn:E; [| contradiction].
    destruct (Hstores 0 w0 ok w' eq_refl E) as (stored & S & Es & _ & Hlen & _).
    exists ok, w'. split; [reflexivity |].
    rewrite S. change (stores w0) with (@nil (Z * Z)). cbn [app].
    split; [exact Hlen |].
    rewrite Es. vm_compute. reflexivity.
Defined.
(** * Further properties *)

(** ** [getResponse] *)

Lemma answer_letters (c : Z) :
  0 <= c < 256 ->
  (says_yes c = true <-> c = 121 \/ c = 89)
  /\ (decisive c = true <-> c = 121 \/ c = 89 \/ c = 110 \/ c = 78).
Proof.
  intro Hc. unfold says_yes, decisive, answer, tolower.
  rewrite orb_true_iff, !Z.eqb_eq.
  destruct (Z.leb_spec 65 c); destruct (Z.leb_spec c 90); cbn [andb];
    rewrite u8_small by lia; lia.
Qed.

Section Response.
Context {F : Type}.

Lemma getResponse_loop_done (pending : list Z) (response : Z) (w : world F) :
  response = 121 \/ response = 110 ->
  getResponse_loop pending response w = Ret response w.
Proof.
  intro H. destruct pending; cbn [getResponse_loop];
    destruct H as [-> | ->]; reflexivity.
Qed.

Lemma getResponse_loop_decides (pre : list Z) :
  forall (c : Z) (rest : list Z) (response : Z) (w : world F),
    response <> 121 -> response <> 110 ->
    Forall (fun k => decisive k = false) pre ->
    decisive c = true ->
    exists w',
      getResponse_loop (pre ++ c :: rest) response w = Ret (answer c) w'
      /\ keys w' = rest
      /\ unchanged w w'
      /\ log w' = log w ++ map (At (irq w)) (map Getch (pre ++ [c])).
Proof.
  induction pre as [| k pre IH]; intros c rest response w H1 H2 Hpre Hc;
    cbn [app getResponse_loop];
    (replace (response =? 121) with false by (symmetry; apply Z.eqb_neq; exact H1));
    (replace (response =? 110) with false by (symmetry; apply Z.eqb_neq; exact H2));
    cbn [negb andb].
  - unfold decisive in Hc. apply orb_true_iff in Hc. rewrite !Z.eqb_eq in Hc.
    unfold bind, emit, modify. fold (answer c).
    rewrite getResponse_loop_done by exact Hc.
    eexists. split; [reflexivity |].
    cbn [keys log irq set_keys set_log map].
    split; [reflexivity | split; [| reflexivity]].
    repeat split.
  - inversion Hpre as [| k' pre' Hk Hpre']. subst.
    unfold decisive in Hk. apply orb_false_iff in Hk. destruct Hk as [Hk1 Hk2].
    apply Z.eqb_neq in Hk1, Hk2.
    set (w1 := set_keys (pre ++ c :: rest)
                 (set_log (log w ++ [At (irq w) (Getch k)]) w)).
    destruct (IH c rest (answer k) w1 Hk1 Hk2 Hpre' Hc) as (w' & E & K & U & Lg).
    exists w'. unfold bind at 1 2. cbn [emit modify]. fold w1. fold (answer k).
    split; [exact E | split; [exact K | split]].
    + destruct U as (S & R & Fl). split; [| split]; [| exact R | exact Fl].
      unfold steady in *. exact S.
    + rewrite Lg. subst w1. cbn [log irq set_keys set_log map].
      rewrite <- app_assoc. reflexivity.
Qed.

Lemma getResponse_loop_waits (pending : list Z) :
  forall (response : Z) (w : world F),
    response <> 121 -> response <> 110 ->
    Forall (fun k => decisive k = false) pending ->
    exists w',
      getResponse_loop pending response w = Hung AwaitKey w'
      /\ keys w' = (match pending with [] => keys w | _ => [] end)
      /\ unchanged w w'
      /\ log w' = log w ++ map (At (irq w)) (map Getch pending).
Proof.
  induction pending as [| k pending IH]; intros response w H1 H2 Hp;
    cbn [getResponse_loop];
    (replace (response =? 121) with false by (symmetry; apply Z.eqb_neq; exact H1));
    (replace (response =? 110) with false by (symmetry; apply Z.eqb_neq; exact H2));
    cbn [negb andb].
  - exists w. unfold stop. split; [reflexivity | split; [reflexivity | split]].
    + repeat split.
    + cbn [map]. symmetry. apply app_nil_r.
  - inversion Hp as [| k' p' Hk Hp']. subst.
    unfold decisive in Hk. apply orb_false_iff in Hk. destruct Hk as [Hk1 Hk2].
    apply Z.eqb_neq in Hk1, Hk2.
    set (w1 := set_keys pending (set_log (log w ++ [At (irq w) (Getch k)]) w)).
    destruct (IH (answer k) w1 Hk1 Hk2 Hp') as (w' & E & K & U & Lg).
    exists w'. unfold bind at 1 2. cbn [emit modify]. fold w1. fold (answer k).
    split; [exact E | split; [| split]].
    + rewrite K. subst w1. destruct pending; reflexivity.
    + destruct U as (S & R & Fl). split; [| split]; [| exact R | exact Fl].
      unfold steady in *. exact S.
    + rewrite Lg. subst w1. cbn [log irq set_keys set_log map].
      rewrite <- app_assoc. reflexivity.
Qed.

End Response.

Lemma op_At_map (b : bool) (evs : list event) : map op (map (At b) evs) = evs.
Proof. rewrite map_map. cbn [op]. apply map_id. Qed.

Lemma bind_Hung {F A B : Type} (m : M F A) (k : A -> M F B) w h w1 :
  m w = Hung h w1 -> bind m k w = Hung h w1.
Proof. intro E. unfold bind. rewrite E. reflexivity. Qed.

Lemma getResponse_answer {F : Type} (w : world F) (pre : list Z) (c : Z)
      (rest : list Z) :
  keys w = pre ++ c :: rest ->
  Forall (fun k => decisive k = false) pre ->
  decisive c = true ->
  exists w',
    getResponse w = Ret (says_yes c) w'
    /\ keys w' = rest
    /\ unchanged w w'
    /\ ops w'
       = ops w
         ++ [Printf "Flash firmware (y/n)?" []]
         ++ map Getch (pre ++ [c])
         ++ [Printf (if says_yes c then "\r\n\r\n"
                     else "\r\nUser abort\n\r\n\r") []].
Proof.
  intros Hkeys Hpre Hc.
  unfold getResponse.
  erewrite bind_Ret by reflexivity.
  erewrite bind_Ret by reflexivity.
  cbn [keys set_log]. rewrite Hkeys.
  set (w1 := set_log (log w ++ [At (irq w) (Printf "Flash firmware (y/n)?" [])]) w).
  destruct (getResponse_loop_decides pre c rest 0 w1 ltac:(lia) ltac:(lia) Hpre Hc)
    as (w2 & E & K & U & Lg).
  rewrite (bind_Ret _ _ _ _ _ E).
  assert (Hyn : answer c = 121 \/ answer c = 110).
  { unfold decisive in Hc. apply orb_true_iff in Hc. rewrite !Z.eqb_eq in Hc.
    exact Hc. }
  unfold says_yes.
  destruct U as ((I & Ko & P & D & Sz & M) & R & Fl).
  destruct Hyn as [Hy | Hn]; rewrite ?Hy, ?Hn; cbn [Z.eqb Pos.eqb];
    erewrite bind_Ret by reflexivity;
    (eexists; split; [reflexivity |]);
    cbn [keys log irq set_log];
    (split; [exact K | split]);
    try (split; [| split]; [repeat split; assumption | exact R | exact Fl]);
    unfold ops; cbn [log set_log]; rewrite Lg; subst w1; cbn [log irq set_log];
    rewrite !map_app, op_At_map; cbn [map op app];
    rewrite <- !app_assoc; reflexivity.
Qed.

(** X1.  [getResponse] skips every key that is neither y nor n, in
    either case, and answers on the first that is: true for y or Y,
    false for n or N.  It consumes the keys up to that one, prints the
    prompt and the closing line, and leaves the machine as it was. *)
Theorem getResponse_decides :
  forall (F : Type) (w : world F) (pre : list Z) (c : Z) (rest : list Z),
    keys w = pre ++ c :: rest ->
    Forall (fun k => decisive k = false) pre ->
    decisive c = true ->
    (exists w',
        getResponse w = Ret (says_yes c) w'
        /\ keys w' = rest
        /\ unchanged w w'
        /\ ops w'
           = ops w
             ++ [Printf "Flash firmware (y/n)?" []]
             ++ map Getch (pre ++ [c])
             ++ [Printf (if says_yes c then "\r\n\r\n"
                         else "\r\nUser abort\n\r\n\r") []])
    /\ (forall k, 0 <= k < 256 ->
                  (says_yes k = true <-> k = 121 \/ k = 89)
                  /\ (decisive k = true <-> k = 121 \/ k = 89 \/ k = 110 \/ k = 78)).
Proof.
  intros F w pre c rest Hkeys Hpre Hc. split; [| exact answer_letters].
  exact (getResponse_answer w pre c rest Hkeys Hpre Hc).
Qed.

Lemma getResponse_decides_witness :
  exists w',
    getResponse (boot tt blank sd_empty [32; 89; 110]) = Ret true w'
    /\ keys w' = [110].
Proof.
  destruct (proj1 (getResponse_decides unit (boot tt blank sd_empty [32; 89; 110])
                     [32] 89 [110] eq_refl
                     ltac:(repeat constructor) eq_refl))
    as (w' & E & K & _).
  exists w'. split; [exact E | exact K].
Defined.

Lemma getResponse_pending {F : Type} (w : world F) :
  Forall (fun k => decisive k = false) (keys w) ->
  exists w',
    getResponse w = Hung AwaitKey w'
    /\ unchanged w w'
    /\ ops w' = ops w ++ [Printf "Flash firmware (y/n)?" []] ++ map Getch (keys w).
Proof.
  intro Hk. unfold getResponse.
  erewrite bind_Ret by reflexivity.
  erewrite bind_Ret by reflexivity.
  cbn [keys set_log].
  set (w1 := set_log (log w ++ [At (irq w) (Printf "Flash firmware (y/n)?" [])]) w).
  destruct (getResponse_loop_waits (keys w) 0 w1 ltac:(lia) ltac:(lia) Hk)
    as (w2 & E & K & U & Lg).
  rewrite (bind_Hung _ _ _ _ _ E).
  exists w2. split; [reflexivity | split].
  - destruct U as (S & R & Fl). split; [| split]; [exact S | exact R | exact Fl].
  - unfold ops. rewrite Lg. subst w1. cbn [log irq set_log].
    rewrite !map_app, op_At_map. cbn [map op app].
    rewrite <- !app_assoc. reflexivity.
Qed.

(** X2.  When no key that is typed answers y or n, [getResponse] takes
    them all, never returns, and leaves the machine as it was. *)
Theorem getResponse_waits :
  forall (F : Type) (w : world F),
    Forall (fun k => decisive k = false) (keys w) ->
    exists w',
      getResponse w = Hung AwaitKey w'
      /\ unchanged w w'
      /\ ops w' = ops w ++ [Printf "Flash firmware (y/n)?" []] ++ map Getch (keys w).
Proof. intros F w. apply getResponse_pending. Qed.

Lemma getResponse_waits_witness :
  exists w', getResponse (boot tt blank sd_empty [32; 65]) = Hung AwaitKey w'.
Proof.
  destruct (getResponse_waits unit (boot tt blank sd_empty [32; 65])
              ltac:(repeat constructor))
    as (w' & E & _).
  exists w'. exact E.
Defined.

(** ** [readMemory] *)

Lemma div_2048_succ (t : Z) :
  0 <= t ->
  (t + 1) / 2048 = t / 2048 + (if (t + 1) mod 2048 =? 0 then 1 else 0).
Proof.
  intro Ht.
  pose proof (Z.div_mod t 2048 ltac:(lia)) as H1.
  pose proof (Z.mod_pos_bound t 2048 ltac:(lia)) as B1.
  pose proof (Z.div_mod (t + 1) 2048 ltac:(lia)) as H2.
  pose proof (Z.mod_pos_bound (t + 1) 2048 ltac:(lia)) as B2.
  destruct (Z.eqb_spec ((t + 1) mod 2048) 0); lia.
Qed.

Section Reading.
Context {F : Type}.
Variable dev : device F.
Variable L : layout.

(** The loop of [readMemory], entered after [t] bytes. *)
Lemma readMemory_loop_loads (n : Z) (unread : list Z) :
  forall (t ptr : Z) (w : world F),
    0 <= t -> 0 <= BUFFER1 L ->
    (unread <> [] -> ptr = BUFFER1 L + t) ->
    t + Z.of_nat (List.length unread) = n ->
    n < 2 ^ 24 -> BUFFER1 L + n <= 2 ^ 24 ->
    (forall i, 0 <= i < n -> in_flash L (BUFFER1 L + i) = false) ->
    exists w',
      readMemory_loop dev L unread ptr t w = Ret n w'
      /\ (forall j, (j < List.length unread)%nat ->
                    ram w' (BUFFER1 L + t + Z.of_nat j) = u8 (nth j unread 0))
      /\ (forall a, ~ BUFFER1 L + t <= a < BUFFER1 L + n -> ram w' a = ram w a)
      /\ flash w' = flash w /\ steady w w'
      /\ log w'
         = log w ++ map (At (irq w))
                        (repeat (Printf "." []) (Z.to_nat (n / 2048 - t / 2048)))
      /\ keys w' = keys w.
Proof.
  induction unread as [| byte rest IH]; intros t ptr w Ht HB Hp Hn Hn24 Hfit Hout;
    cbn [readMemory_loop List.length] in *.
  - exists w. assert (t = n) by lia. subst t.
    split; [reflexivity | split; [intros j Hj; lia | split; [reflexivity |]]].
    split; [reflexivity | split; [repeat split |]].
    split; [| reflexivity].
    rewrite Z.sub_diag. cbn [Z.to_nat repeat map]. symmetry. apply app_nil_r.
  - rewrite (Hp ltac:(discriminate)).
    assert (Hptr : u24 (BUFFER1 L + t) = BUFFER1 L + t) by (apply u24_small; lia).
    assert (Hsz : u24 (t + 1) = t + 1) by (apply u24_small; lia).
    assert (Hnf : in_flash L (BUFFER1 L + t) = false) by (apply Hout; lia).
    erewrite bind_Ret by reflexivity.
    set (w1 := set_ram (fun x => if x =? BUFFER1 L + t then u8 byte else ram w x)
                       (set_openfile rest w)).
    assert (Es : store dev L (BUFFER1 L + t) byte (set_openfile rest w) = Ret tt w1).
    { unfold store, modify. rewrite Hptr, Hnf. reflexivity. }
    rewrite (bind_Ret _ _ _ _ _ Es). rewrite Hsz.
    set (dot := (t + 1) mod 2048 =? 0).
    set (w2 := if dot then set_log (log w1 ++ [At (irq w1) (Printf "." [])]) w1
               else w1).
    assert (Ed : (if dot then printf "." [] else ret tt) w1 = Ret tt w2)
      by (subst w2; destruct dot; reflexivity).
    rewrite (bind_Ret _ _ _ _ _ Ed).
    destruct (IH (t + 1) (u24 (BUFFER1 L + t + 1)) w2)
      as (w' & E & Hdone & Hrest & Hfl & Hst & Lg & Ks); try lia; try assumption.
    { intro Hne. destruct rest as [| b r]; [contradiction |].
      cbn [List.length] in Hn. rewrite u24_small by lia. lia. }
    exists w'. split; [exact E |].
    assert (R2 : ram w2 = ram w1) by (subst w2; destruct dot; reflexivity).
    assert (F2 : flash w2 = flash w) by (subst w2 w1; destruct dot; reflexivity).
    assert (S2 : steady w w2) by (subst w2 w1; destruct dot; repeat split).
    split; [| split; [| split; [| split]]].
    + intros [| j] Hj.
      * cbn [nth Z.of_nat]. rewrite Z.add_0_r.
        rewrite Hrest by lia. rewrite R2. subst w1. cbn [ram set_ram].
        rewrite Z.eqb_refl. reflexivity.
      * cbn [nth]. rewrite <- (Hdone j) by lia. f_equal. lia.
    + intros a Ha. rewrite Hrest by lia. rewrite R2. subst w1. cbn [ram set_ram].
      destruct (Z.eqb_spec a (BUFFER1 L + t)); [lia | reflexivity].
    + rewrite Hfl. exact F2.
    + eapply steady_trans; eassumption.
    + split; [| rewrite Ks; subst w2 w1; destruct dot; reflexivity].
      rewrite Lg. destruct S2 as (I2 & _). rewrite I2.
      assert (Hdiv := div_2048_succ t Ht). fold dot in Hdiv.
      assert (Hmono : (t + 1) / 2048 <= n / 2048)
        by (apply Z.div_le_mono; lia).
      subst w2 w1. destruct dot; cbn [log set_log set_ram set_openfile irq].
      * replace (Z.to_nat (n / 2048 - t / 2048))
          with (S (Z.to_nat (n / 2048 - (t + 1) / 2048))) by lia.
        cbn [repeat map]. rewrite <- app_assoc. reflexivity.
      * replace (n / 2048 - t / 2048) with (n / 2048 - (t + 1) / 2048) by lia.
        reflexivity.
Qed.

Lemma readMemory_ret (filename : string) (bytes : list Z) (w : world F) :
  card w (mosfilename w) = Some bytes ->
  0 <= BUFFER1 L ->
  Z.of_nat (List.length bytes) < 2 ^ 24 ->
  BUFFER1 L + Z.of_nat (List.length bytes) <= 2 ^ 24 ->
  (forall i, 0 <= i < Z.of_nat (List.length bytes) ->
             in_flash L (BUFFER1 L + i) = false) ->
  exists w',
    readMemory dev L filename w = Ret (Z.of_nat (List.length bytes)) w'
    /\ loaded dev L w' (BUFFER1 L) (Z.of_nat (List.length bytes)) = map u8 bytes
    /\ (forall a, ~ BUFFER1 L <= a < BUFFER1 L + Z.of_nat (List.length bytes) ->
                  ram w' a = ram w a)
    /\ flash w' = flash w /\ steady w w' /\ openfile w' = []
    /\ ops w'
       = ops w
         ++ Printf ("Reading \" ++ dq ++ "MOS.bin\" ++ dq ++ " to memory") []
            :: repeat (Printf "." []) (Z.to_nat (Z.of_nat (List.length bytes) / 2048))
    /\ keys w' = keys w.
Proof.
  intros Hcard HB Hn24 Hfit Hout. set (n := Z.of_nat (List.length bytes)) in *.
  unfold readMemory.
  erewrite bind_Ret by reflexivity.
  erewrite bind_Ret by reflexivity.
  set (w1 := set_log _ w).
  assert (Eo : mos_fopen (mosfilename w1) w1 = Ret 1 (set_openfile bytes w1)).
  { unfold mos_fopen. subst w1. cbn [card mosfilename set_log]. rewrite Hcard.
    reflexivity. }
  rewrite (bind_Ret _ _ _ _ _ Eo).
  erewrite bind_Ret by reflexivity. cbn [openfile set_openfile].
  destruct (readMemory_loop_loads n bytes 0 (BUFFER1 L) (set_openfile bytes w1))
    as (w2 & E & Hdone & Hrest & Hfl & Hst & Lg & Ks); try lia; try assumption.
  rewrite (bind_Ret _ _ _ _ _ E).
  erewrite bind_Ret by reflexivity.
  eexists. split; [reflexivity |].
  cbn [ram flash openfile log set_openfile].
  split; [| split; [| split; [| split; [| split]]]].
  - unfold loaded.
    apply nth_ext with (d := 0) (d' := u8 0).
    + rewrite !length_map, range_length. subst n. lia.
    + intros k Hk. rewrite length_map, range_length in Hk.
      rewrite (map_nth u8 bytes 0 k).
      rewrite (nth_indep _ 0 (load dev L (set_openfile [] w2) (BUFFER1 L + 0)))
        by (rewrite length_map, range_length; exact Hk).
      rewrite (map_nth (fun i => load dev L (set_openfile [] w2) (BUFFER1 L + i))).
      rewrite range_nth by exact Hk.
      unfold load. rewrite u24_small by lia.
      rewrite Hout by lia. cbn [ram set_openfile].
      specialize (Hdone k ltac:(lia)). rewrite Z.add_0_r in Hdone.
      rewrite Hdone. apply u8_u8.
  - intros a Ha. rewrite Hrest by lia. reflexivity.
  - rewrite Hfl. reflexivity.
  - destruct Hst as (I & K & P & D & Sz & M). repeat split; assumption.
  - reflexivity.
  - split; [| cbn [keys set_openfile]; rewrite Ks; reflexivity].
    unfold ops. cbn [log set_openfile]. rewrite Lg. subst w1.
    cbn [log irq set_log set_openfile].
    rewrite !map_app, op_At_map. cbn [map op]. rewrite Z.sub_0_r.
    change (0 / 2048) with 0. rewrite <- app_assoc. reflexivity.
Qed.

End Reading.

(** X3.  [readMemory] reads the file that [mosfilename] names, whatever
    its argument: for a file that fits between [BUFFER1] and the end of
    the 24-bit address space without touching the flash, it returns the
    number of bytes, leaves them at [BUFFER1] in file order, changes no
    other memory and nothing of the flash, closes the file, and prints
    one dot for every 2048 bytes. *)
Theorem readMemory_loads :
  forall (F : Type) (dev : device F) (L : layout) (w : world F)
         (filename : string) (bytes : list Z),
    card w (mosfilename w) = Some bytes ->
    0 <= BUFFER1 L ->
    Z.of_nat (List.length bytes) < 2 ^ 24 ->
    BUFFER1 L + Z.of_nat (List.length bytes) <= 2 ^ 24 ->
    (forall i, 0 <= i < Z.of_nat (List.length bytes) ->
               in_flash L (BUFFER1 L + i) = false) ->
    exists w',
      readMemory dev L filename w = Ret (Z.of_nat (List.length bytes)) w'
      /\ loaded dev L w' (BUFFER1 L) (Z.of_nat (List.length bytes)) = map u8 bytes
      /\ (forall a, ~ BUFFER1 L <= a < BUFFER1 L + Z.of_nat (List.length bytes) ->
                    ram w' a = ram w a)
      /\ flash w' = flash w /\ steady w w' /\ openfile w' = []
      /\ ops w'
         = ops w
           ++ Printf ("Reading \" ++ dq ++ "MOS.bin\" ++ dq ++ " to memory") []
              :: repeat (Printf "." [])
                        (Z.to_nat (Z.of_nat (List.length bytes) / 2048)).
Proof.
  intros F dev L w filename bytes Hcard HB Hn24 Hfit Hout.
  destruct (readMemory_ret dev L filename bytes w Hcard HB Hn24 Hfit Hout)
    as (w' & E & Hl & Hr & Hf & Hs & Ho & Lg & _).
  exists w'. repeat (split; [assumption |]). exact Lg.
Qed.

Lemma agon_buffer_outside_flash (n i : Z) :
  0 <= i < n -> in_flash agon (BUFFER1 agon + i) = false.
Proof.
  intro Hi. unfold in_flash. apply andb_false_iff. right. apply Z.ltb_ge.
  cbn [FLASHSTART FLASHSIZE BUFFER1 agon]. lia.
Qed.

Lemma readMemory_loads_witness :
  exists w',
    readMemory (ideal agon) agon "other.bin"
               (set_mosfilename "MOS.bin" (started agon (Some garbage)))
    = Ret 8 w'
    /\ loaded (ideal agon) agon w' (BUFFER1 agon) 8 = garbage.
Proof.
  destruct (readMemory_loads _ (ideal agon) agon
              (set_mosfilename "MOS.bin" (started agon (Some garbage)))
              "other.bin" garbage eq_refl)
    as (w' & E & Hl & _).
  - cbn [BUFFER1 agon]. lia.
  - cbn [List.length garbage Z.of_nat]. lia.
  - cbn [BUFFER1 agon List.length garbage]. lia.
  - apply agon_buffer_outside_flash.
  - exists w'. split; [exact E | exact Hl].
Defined.
(** ** [validFirmware] *)

(** X4.  [validFirmware] makes both checks whatever the first gives: it
    prints one message for a buffer without the header and one for a
    size above the flash, both when both fail, returns true exactly
    when it printed none, and changes nothing but the log. *)
Theorem validFirmware_reports :
  forall (F : Type) (dev : device F) (L : layout) (w : world F),
  exists w',
    validFirmware dev L w
    = Ret (containsMosHeader (load dev L w) (BUFFER1 L)
           && (filesize w <=? FLASHSIZE L)) w'
    /\ unchanged w w' /\ keys w' = keys w /\ openfile w' = openfile w
    /\ ops w'
       = ops w
         ++ (if containsMosHeader (load dev L w) (BUFFER1 L) then []
             else [PrintfS ("\" ++ dq ++ "%s\" ++ dq
                            ++ " does not contain valid MOS ez80 startup code\r\n")
                           (mosfilename w)])
         ++ (if filesize w <=? FLASHSIZE L then []
             else [PrintfS ("\" ++ dq ++ "%s\" ++ dq
                            ++ " too large for 128KB embedded flash\r\n")
                           (mosfilename w)]).
Proof.
  intros F dev L w.
  rewrite (Z.leb_antisym (FLASHSIZE L) (filesize w)).
  unfold validFirmware.
  erewrite bind_Ret by reflexivity.
  erewrite bind_Ret by reflexivity.
  destruct (containsMosHeader (load dev L w) (BUFFER1 L)); cbn [negb andb];
    repeat (erewrite bind_Ret by reflexivity);
    cbn [filesize set_log];
    destruct (FLASHSIZE L <? filesize w); cbn [negb andb];
    repeat (erewrite bind_Ret by reflexivity);
    (eexists; split; [reflexivity |]);
    unfold unchanged, steady, ops;
    cbn [irq key_open prot fdiv filesize moscrc ram flash keys openfile log set_log
         mosfilename map op app];
    rewrite ?map_app, ?app_nil_r; cbn [map op]; rewrite <- ?app_assoc;
    repeat split; reflexivity.
Qed.
(** ** Where [update_mos] can stop *)

Section Stalls.
Context {F : Type}.
Variable dev : device F.
Variable L : layout.

Lemma stalls_only_total {A : Type} (m : M F A) :
  (forall w, exists a w', m w = Ret a w') -> stalls_only dev m.
Proof.
  intros Hm w h w' H. destruct (Hm w) as (a & w1 & E). rewrite E in H. discriminate H.
Qed.

Lemma stalls_only_bind {A B : Type} (m : M F A) (k : A -> M F B) :
  stalls_only dev m -> (forall a, stalls_only dev (k a)) -> stalls_only dev (bind m k).
Proof.
  intros Hm Hk w h w' H. unfold bind in H.
  destruct (m w) as [a w1 | h1 w1] eqn:E.
  - exact (Hk a w1 h w' H).
  - injection H as <- <-. exact (Hm w h1 w1 E).
Qed.

Lemma returns_bind {A B : Type} (m : M F A) (k : A -> M F B) :
  returns m -> (forall a, returns (k a)) -> returns (bind m k).
Proof.
  intros Hm Hk w. destruct (Hm w) as (a & w1 & E).
  destruct (Hk a w1) as (b & w2 & E2).
  exists b, w2. unfold bind. rewrite E. exact E2.
Qed.

Lemma returns_ret {A : Type} (a : A) : returns (@ret F A a).
Proof. intro w. exists a, w. reflexivity. Qed.

Lemma returns_emit (e : event) : returns (@emit F e).
Proof. intro w. eexists. eexists. reflexivity. Qed.

Lemma returns_modify (f : world F -> world F) : returns (modify f).
Proof. intro w. eexists. eexists. reflexivity. Qed.

Lemma returns_gets {A : Type} (f : world F -> A) : returns (gets f).
Proof. intro w. eexists. eexists. reflexivity. Qed.

Lemma returns_for_each (l : list Z) (body : Z -> M F unit) :
  (forall i, returns (body i)) -> returns (for_each l body).
Proof.
  intro Hb. induction l as [| i l IH]; cbn [for_each].
  - apply returns_ret.
  - apply returns_bind; [apply Hb | intros _; exact IH].
Qed.

Lemma stalls_only_for_each (l : list Z) (body : Z -> M F unit) :
  (forall i, stalls_only dev (body i)) -> stalls_only dev (for_each l body).
Proof.
  intro Hb. induction l as [| i l IH]; cbn [for_each].
  - apply stalls_only_total, returns_ret.
  - apply stalls_only_bind; [apply Hb | intros _; exact IH].
Qed.

Lemma returns_store (a v : Z) : returns (store dev L a v).
Proof. apply returns_modify. Qed.

Lemma returns_fastmemcpy (dst src len : Z) : returns (fastmemcpy dev L dst src len).
Proof.
  apply returns_bind; [apply returns_emit | intros _].
  apply returns_for_each. intro i.
  apply returns_bind; [apply returns_gets | intro b; apply returns_store].
Qed.

Lemma returns_write_pages (pagemax lastpagebytes : Z) (counters : list Z) :
  forall addressto addressfrom,
    returns (write_pages dev L counters pagemax lastpagebytes addressto addressfrom).
Proof.
  induction counters as [| c counters IH]; intros addressto addressfrom;
    cbn [write_pages].
  - apply returns_ret.
  - apply returns_bind; [apply returns_emit | intros _].
    apply returns_bind; [| intros _; apply IH].
    destruct (c =? u24 (pagemax - 1)); apply returns_fastmemcpy.
Qed.

Lemma stalls_only_erase_and_poll : stalls_only dev (erase_and_poll dev).
Proof.
  intros w h w' H. unfold erase_and_poll, bind, emit in H.
  cbn [prot page flash set_log] in H.
  destruct (dev_erase dev (prot w) (page w) (flash w)) eqn:E; [discriminate H |].
  injection H as <- <-. cbn [prot page flash irq log set_log].
  split; [reflexivity | split; [exact E |]].
  exists (log w). reflexivity.
Qed.

Lemma stalls_only_erase_pages : stalls_only dev (erase_pages dev L).
Proof.
  apply stalls_only_for_each. intro i.
  apply stalls_only_bind; [| intros _; apply stalls_only_erase_and_poll].
  apply stalls_only_total. unfold out_page.
  apply returns_bind; [apply returns_emit | intros _; apply returns_modify].
Qed.

Ltac returns_step :=
  first [apply returns_ret | apply returns_emit | apply returns_modify
        | apply returns_gets
        | apply returns_bind; [| intro]].

(** An attempt is the erase between two parts that always return. *)
Lemma attempt_body_stalls_only (attempt : Z) :
  stalls_only dev (attempt_body dev L attempt).
Proof.
  assert (Htail : forall size : Z, returns
            (write_pages dev L (range (pagemax_of L size)) (pagemax_of L size)
                         (lastpagebytes_of L size) (u24 (FLASHSTART L))
                         (u24 (BUFFER1 L)) ;;
             lockFlashKeyRegister ;;
             printf "\r\nChecking CRC... " [] ;;
             crc32_initialize ;;
             crc32 dev L (FLASHSTART L) size ;;
             crcresult <- crc32_finalize ;;
             expected <- gets moscrc ;;
             if crcresult =? expected
             then printf "OK\r\n" [] ;; ret true
             else printf "ERROR\r\n" [] ;; ret false)).
  { intro size.
    apply returns_bind; [apply returns_write_pages | intros _].
    unfold lockFlashKeyRegister, printf, crc32_initialize, crc32, crc32_finalize.
    repeat returns_step.
    match goal with |- returns (if ?c then _ else _) => destruct c end;
      repeat returns_step. }
  assert (Hhead : returns
            ((if 0 <? attempt then printf "Retry attempt #%d\r\n" [attempt]
              else ret tt) : M F unit)).
  { destruct (0 <? attempt); [apply returns_emit | apply returns_ret]. }
  unfold attempt_body, enableFlashKeyRegister, out_prot, out_fdiv, printf.
  apply stalls_only_bind; [apply stalls_only_total, Hhead | intros _].
  do 5 (apply stalls_only_bind;
        [apply stalls_only_total; repeat returns_step | intros _]).
  apply stalls_only_bind; [apply stalls_only_erase_pages | intros _].
  apply stalls_only_total.
  apply returns_bind; [apply returns_emit | intros _].
  apply returns_bind; [apply returns_gets | intro size]. apply Htail.
Qed.

Lemma attempts_stalls_only (budget : nat) :
  forall (success : bool) (attempt : Z),
    stalls_only dev (attempts dev L budget success attempt).
Proof.
  induction budget as [| budget IH]; intros success attempt; cbn [attempts].
  - apply stalls_only_total. intros; apply returns_ret.
  - destruct (negb success && (attempt <? 3)).
    + apply stalls_only_bind; [apply attempt_body_stalls_only | intro ok; apply IH].
    + apply stalls_only_total. intros; apply returns_ret.
Qed.

Lemma update_mos_stalls_only : stalls_only dev (update_mos dev L).
Proof.
  unfold update_mos, update_mos_prologue, di, printf.
  apply stalls_only_bind; [apply stalls_only_total; repeat returns_step | intros _].
  apply stalls_only_bind; [apply attempts_stalls_only | intro b].
  apply stalls_only_total; repeat returns_step.
Qed.

End Stalls.

(** X5.  [update_mos] has one place where it can stop without
    returning, the poll loop of an erase; its other loops are counted,
    and console output, [fastmemcpy] and the checksum unit are taken to
    return.  A run that does not return has just issued the erase
    command, the device has left that erase pending, and interrupts are
    disabled. *)
Theorem update_mos_stops_only_in_erase :
  forall (F : Type) (dev : device F) (L : layout) (w : world F) (h : hang)
         (w' : world F),
    update_mos dev L w = Hung h w' ->
    h = EraseStall
    /\ dev_erase dev (prot w') (page w') (flash w') = None
    /\ irq w' = false
    /\ exists before, ops w' = before ++ [Out FLASH_PGCTL 0x02].
Proof.
  intros F dev L w h w' H.
  destruct (update_mos_stalls_only dev L w h w' H) as (Eh & Ee & before & Lg).
  pose proof (proj1 (update_mos_masked dev L w)) as I. rewrite H in I.
  cbn [final] in I.
  split; [exact Eh | split; [exact Ee | split; [exact I |]]].
  exists (map op before). unfold ops. rewrite Lg, map_app. reflexivity.
Qed.

Lemma update_mos_stops_only_in_erase_witness :
  exists w',
    update_mos (stuck agon 3) agon confirmed = Hung EraseStall w'
    /\ page w' = 3 /\ irq w' = false.
Proof.
  destruct erase_stall_hangs as [w' E].
  destruct (update_mos_stops_only_in_erase _ (stuck agon 3) agon confirmed
              EraseStall w' E) as (_ & Ee & I & _).
  exists w'. split; [exact E | split; [| exact I]].
  cbn [dev_erase stuck] in Ee.
  destruct (Z.eqb_spec (page w') 3) as [Ep | Ep]; [exact Ep | discriminate Ee].
Defined.

(** ** What the verification verifies *)

Section Verdict.
Context {F : Type}.
Variable dev : device F.
Variable L : layout.

(** The value of an attempt is the comparison it ends with: the
    checksum of the flash as it then reads against [moscrc]. *)
Lemma attempt_body_verdict (attempt : Z) (w : world F) (ok : bool) (w' : world F) :
  attempt_body dev L attempt w = Ret ok w' ->
  ok = (crc32_bitwise (loaded dev L w' (FLASHSTART L) (filesize w')) =? moscrc w').
Proof.
  intro H. unfold attempt_body in H.
  do 8 (apply bind_ret_inv in H; destruct H as ([] & ? & _ & H)).
  apply bind_ret_inv in H. destruct H as (size & w8 & H8 & H).
  injection H8 as <- <-.
  apply bind_ret_inv in H. destruct H as ([] & w9 & H9 & H).
  match type of H9 with
  | write_pages _ _ ?cs ?pm ?lb ?ato ?afrom ?x = _ =>
      destruct (yields_write_pages dev L pm lb cs ato afrom x) as [w9' Y9];
      pose proof (yields_det _ _ _ _ _ _ _ Y9 H9) as (_ & S9 & _)
  end.
  destruct S9 as (_ & _ & _ & _ & Esize & _). rewrite <- Esize in H.
  clear H9 Y9 Esize.
  unfold lockFlashKeyRegister, printf, crc32_initialize, crc32, crc32_finalize,
    emit, modify, gets, bind in H.
  cbn [irq log crc moscrc set_log set_key_open set_crc] in H.
  match type of H with
  | (if ?c then _ else _) _ = _ => destruct c eqn:E
  end; injection H as <- <-;
    cbn [filesize moscrc set_log set_crc set_key_open];
    rewrite <- E; f_equal; unfold crc32_bitwise; f_equal;
    rewrite <- (crc32_fold_bitwise _ (loaded_bytes dev L _ _ _)); reflexivity.
Qed.

Lemma attempts_verdict (budget : nat) :
  forall (attempt : Z) (w : world F) (b : bool) (w' : world F),
    attempt < 3 ->
    attempts dev L (S budget) false attempt w = Ret b w' ->
    b = (crc32_bitwise (loaded dev L w' (FLASHSTART L) (filesize w')) =? moscrc w').
Proof.
  induction budget as [| budget IH]; intros attempt w b w' Ha H;
    rewrite attempts_step in H by exact Ha;
    apply bind_ret_inv in H; destruct H as (ok & w1 & H1 & H);
    apply attempt_body_verdict in H1.
  - cbn [attempts] in H. injection H as <- <-. exact H1.
  - destruct ok.
    + rewrite attempts_done in H. injection H as <- <-. exact H1.
    + destruct (Z.ltb_spec (attempt + 1) 3) as [Hlt | Hge].
      * exact (IH _ _ _ _ Hlt H).
      * cbn [attempts negb andb] in H.
        replace (attempt + 1 <? 3) with false in H
          by (symmetry; apply Z.ltb_ge; exact Hge).
        injection H as <- <-. exact H1.
Qed.

Lemma update_mos_ret_verdict (w : world F) (b : bool) (w' : world F) :
  update_mos dev L w = Ret b w' ->
  b = (crc32_bitwise (loaded dev L w' (FLASHSTART L) (filesize w)) =? moscrc w).
Proof.
  intro H.
  destruct (update_mos_ret dev L w b w' H) as (_ & _ & _ & _ & Es & Em & _).
  rewrite <- Es, <- Em. clear Es Em.
  unfold update_mos in H.
  apply bind_ret_inv in H. destruct H as ([] & w1 & _ & H).
  apply bind_ret_inv in H. destruct H as (b' & w2 & H2 & H).
  apply attempts_verdict in H2; [| lia].
  unfold printf, emit, ret, bind in H. injection H as <- <-. exact H2.
Qed.

End Verdict.

(** X7.  The value [update_mos] returns is the verdict of its last
    check: true exactly when the checksum of the first [filesize] bytes
    of the flash, as the flash reads when [update_mos] returns, equals
    [moscrc].  This holds for every device, whatever its erases and
    stores did. *)
Theorem update_mos_verdict :
  forall (F : Type) (dev : device F) (L : layout) (w : world F) (b : bool)
         (w' : world F),
    update_mos dev L w = Ret b w' ->
    b = (crc32_bitwise (loaded dev L w' (FLASHSTART L) (filesize w)) =? moscrc w).
Proof. intros F dev L. apply update_mos_ret_verdict. Qed.

Lemma update_mos_verdict_witness :
  exists w',
    update_mos (flaky agon) agon (confirmed_flaky 9) = Ret false w'
    /\ crc32_bitwise (loaded (flaky agon) agon w' (FLASHSTART agon)
                             (filesize (confirmed_flaky 9)))
       <> moscrc (confirmed_flaky 9).
Proof.
  destruct confirmed_flaky_fails as [w' E].
  exists w'. split; [exact E |].
  apply Z.eqb_neq. symmetry.
  exact (update_mos_verdict _ (flaky agon) agon (confirmed_flaky 9) false w' E).
Defined.
(** ** What a working flash holds after [update_mos] *)

Section Programmed.
Variable L : layout.

(** One attempt on a flash that works: the checksum matches, and the
    flash holds the image, the rest of it erased. *)
Lemma attempt_body_programs (size attempt : Z) (w : world (Z -> Z)) :
  sane L size ->
  filesize w = size ->
  moscrc w = crc32_bitwise (loaded (ideal L) L w (BUFFER1 L) size) ->
  exists w',
    attempt_body (ideal L) L attempt w = Ret true w'
    /\ programmed L (ram w) size w'
    /\ key_open w' = false /\ fdiv w' = 0x5F.
Proof.
  intros Hsane Hsize Hcrc.
  rewrite (loaded_buffer L size w Hsane) in Hcrc.
  pose proof Hsane as (HP & HN & HF & HS & HS' & HB & HB' & Hd & Hsz).
  unfold attempt_body.
  set (r := ram w).
  assert (Hstart : exists w0 : world (Z -> Z),
             (if 0 <? attempt then printf "Retry attempt #%d\r\n" [attempt]
              else ret tt) w = Ret tt w0
             /\ ram w0 = r /\ filesize w0 = size /\ moscrc w0 = moscrc w).
  { destruct (0 <? attempt); eexists; (split; [reflexivity |]);
      repeat split; assumption. }
  destruct Hstart as (w0 & E0 & R0 & S0 & M0).
  rewrite (bind_Ret _ _ _ _ _ E0). clear E0.
  do 5 (erewrite bind_Ret by reflexivity).
  match goal with
  | |- exists w', bind _ _ ?x = _ /\ _ => set (w5 := x)
  end.
  assert (P5 : prot w5 = 0) by reflexivity.
  assert (R5 : ram w5 = r) by exact R0.
  assert (S5 : filesize w5 = size) by exact S0.
  assert (M5 : moscrc w5 = moscrc w) by exact M0.
  assert (K5 : key_open w5 = false) by reflexivity.
  assert (D5 : fdiv w5 = 0x5F) by reflexivity.
  clearbody w5.
  pose proof (yields_erase_pages (ideal L) (range (FLASHPAGES L)) w5) as Y6.
  destruct (erase_pages_ideal L (range (FLASHPAGES L)) w5 P5)
    as (w6 & E6 & R6 & P6 & S6 & M6 & _ & Herased).
  { intros c Hc. apply In_range in Hc. lia. }
  specialize (Y6 w6 E6). destruct Y6 as (_ & St6 & _).
  destruct St6 as (_ & K6 & _ & D6 & _).
  unfold erase_pages. rewrite (bind_Ret _ _ _ _ _ E6).
  do 2 (erewrite bind_Ret by reflexivity).
  match goal with
  | |- exists w', bind _ _ ?x = _ /\ _ => set (w7 := x)
  end.
  assert (R7 : ram w7 = r) by (rewrite <- R5, <- R6; reflexivity).
  assert (P7' : prot w7 = 0) by exact P6.
  assert (S7 : filesize w7 = size) by (rewrite <- S5, <- S6; reflexivity).
  assert (M7 : moscrc w7 = moscrc w) by (rewrite <- M5, <- M6; reflexivity).
  assert (K7 : key_open w7 = false) by (rewrite <- K5, <- K6; reflexivity).
  assert (D7 : fdiv w7 = 0x5F) by (rewrite <- D5, <- D6; reflexivity).
  assert (F7 : flash w7 = flash w6) by reflexivity.
  clearbody w7. rewrite S7.
  assert (P7 : programmed L r (Z.min (Z.of_nat 0 * PAGESIZE L) size) w7).
  { replace (Z.min (Z.of_nat 0 * PAGESIZE L) size) with 0 by (cbn [Z.of_nat]; lia).
    unfold programmed. rewrite F7.
    split; [exact R7 | split; [exact P7' | split]].
    - intros j Hj. lia.
    - intros j Hj. apply Herased. apply In_range.
      replace (FLASHSTART L + j - FLASHSTART L) with j by lia.
      split; [apply Z.div_pos; lia | apply Z.div_lt_upper_bound; lia]. }
  pose proof (yields_write_pages (ideal L) L (pagemax_of L size)
                (lastpagebytes_of L size) (range (pagemax_of L size))
                (u24 (FLASHSTART L)) (u24 (BUFFER1 L)) w7) as [w8' Y8].
  destruct (write_pages_ideal L r size Hsane (Z.to_nat (pagemax_of L size)) 0
              (u24 (FLASHSTART L)) (u24 (BUFFER1 L)) w7)
    as (w8 & E8 & P8 & S8 & M8).
  { pose proof (page_arith L size Hsane) as (_ & _ & Hpm). cbn [Z.of_nat]. lia. }
  { exact P7. }
  { intros _. cbn [Z.of_nat]. rewrite !u24_small by lia. lia. }
  fold (range (pagemax_of L size)) in E8.
  destruct (yields_det _ _ _ _ _ _ _ Y8 E8) as (_ & St8 & _).
  destruct St8 as (_ & K8 & _ & D8 & _). clear Y8 w8'.
  rewrite (bind_Ret _ _ _ _ _ E8).
  do 3 (erewrite bind_Ret by reflexivity).
  match goal with
  | |- exists w', bind _ _ ?x = _ /\ _ => set (w9 := x)
  end.
  assert (P9 : programmed L r size w9) by exact P8.
  assert (M9 : moscrc w9 = moscrc w) by (rewrite <- M7, <- M8; reflexivity).
  assert (C9 : crc w9 = crc32_seed) by reflexivity.
  assert (K9 : key_open w9 = false) by reflexivity.
  assert (D9 : fdiv w9 = 0x5F) by (rewrite <- D7, <- D8; reflexivity).
  clearbody w9.
  do 3 (erewrite bind_Ret by reflexivity).
  match goal with
  | |- exists w', (if ?c =? ?m then _ else _) ?x = _ /\ _ =>
      assert (Eq : c = m)
  end.
  { cbn [moscrc crc set_crc set_log log]. rewrite M9, C9, Hcrc.
    unfold crc32_bitwise. f_equal.
    rewrite <- (crc32_fold_bitwise _ (image_bytes L r size)).
    f_equal.
    exact (loaded_flash L r size _ Hsane P9). }
  rewrite Eq, Z.eqb_refl.
  erewrite bind_Ret by reflexivity.
  eexists. split; [reflexivity |].
  split; [exact P9 | split; [exact K9 | exact D9]].
Qed.

Lemma update_mos_programs (w : world (Z -> Z)) :
  sane L (filesize w) ->
  moscrc w = crc32_bitwise (loaded (ideal L) L w (BUFFER1 L) (filesize w)) ->
  exists w',
    update_mos (ideal L) L w = Ret true w'
    /\ programmed L (ram w) (filesize w) w'
    /\ irq w' = false /\ key_open w' = false /\ fdiv w' = 0x5F.
Proof.
  intros Hsane Hcrc.
  unfold update_mos. unfold bind at 1. rewrite update_mos_prologue_ret.
  match goal with
  | |- exists w', bind _ _ ?x = _ /\ _ => set (w1 := x)
  end.
  destruct (attempt_body_programs (filesize w) 0 w1 Hsane eq_refl Hcrc)
    as (w2 & E2 & P2 & K2 & D2).
  assert (I2 : irq w2 = false).
  { apply attempt_body_ret in E2. destruct E2 as (I & _). exact I. }
  change (ram w1) with (ram w) in P2. clearbody w1.
  unfold bind at 1. rewrite attempts_step by lia.
  unfold bind at 1. rewrite E2, attempts_done.
  unfold printf, emit, ret, bind.
  eexists. split; [reflexivity |].
  split; [exact P2 | split; [exact I2 | split; [exact K2 | exact D2]]].
Qed.

End Programmed.

(** X8.  On a flash that works, for an image that fits, lies in a
    buffer outside the flash and has its checksum in [moscrc],
    [update_mos] returns true and the flash holds the image byte for
    byte from [FLASHSTART], the rest of the flash erased to [0xFF];
    memory is as it was.  The flash is left unprotected ([FLASH_PROT]
    is 0), the key register locked and interrupts disabled. *)
Theorem update_mos_programs_flash :
  forall (L : layout) (w : world (Z -> Z)),
    sane L (filesize w) ->
    moscrc w = crc32_bitwise (loaded (ideal L) L w (BUFFER1 L) (filesize w)) ->
    exists w',
      update_mos (ideal L) L w = Ret true w'
      /\ (forall j, 0 <= j < filesize w ->
                    flash w' (FLASHSTART L + j) = u8 (ram w (BUFFER1 L + j)))
      /\ (forall j, filesize w <= j < FLASHSIZE L ->
                    flash w' (FLASHSTART L + j) = 0xFF)
      /\ ram w' = ram w
      /\ prot w' = 0 /\ key_open w' = false /\ irq w' = false.
Proof.
  intros L w Hsane Hcrc.
  destruct (update_mos_programs L w Hsane Hcrc)
    as (w' & E & (R & P & Hdone & Hrest) & I & K & _).
  exists w'. repeat split; assumption.
Qed.

Lemma update_mos_programs_flash_witness :
  exists w',
    update_mos (ideal agon) agon confirmed = Ret true w'
    /\ flash w' (FLASHSTART agon + 0) = 0xF3
    /\ flash w' (FLASHSTART agon + 7) = 0x40
    /\ flash w' (FLASHSTART agon + 8) = 0xFF.
Proof.
  assert (Hs : filesize confirmed = 8) by (vm_compute; reflexivity).
  assert (Hm : moscrc confirmed
               = crc32_bitwise (loaded (ideal agon) agon confirmed (BUFFER1 agon)
                                       (filesize confirmed))).
  { vm_compute. reflexivity. }
  destruct (update_mos_programs_flash agon confirmed) as (w' & E & Hd & He & _).
  - rewrite Hs. apply sane_agon. cbn [FLASHSIZE agon]. lia.
  - exact Hm.
  - exists w'. split; [exact E |]. rewrite Hs in Hd, He.
    split; [| split].
    + rewrite (Hd 0) by lia. vm_compute. reflexivity.
    + rewrite (Hd 7) by lia. vm_compute. reflexivity.
    + apply He. cbn [FLASHSIZE agon]. lia.
Defined.
(** ** [main] from the start to the prompt *)

Section Preflight.
Context {F : Type}.
Variable dev : device F.
Variable L : layout.

Lemma calculateCRC32_run (w : world F) :
  exists w',
    calculateCRC32 dev L w = Ret tt w'
    /\ moscrc w' = crc32_bitwise (loaded dev L w (BUFFER1 L) (filesize w))
    /\ irq w' = irq w /\ key_open w' = key_open w /\ prot w' = prot w
    /\ fdiv w' = fdiv w /\ flash w' = flash w /\ ram w' = ram w
    /\ filesize w' = filesize w /\ keys w' = keys w
    /\ log w'
       = log w ++ map (At (irq w))
                      [Printf "\r\nCalculating CRC...\r\n" [];
                       Crc32 (BUFFER1 L) (filesize w);
                       Printf "\r\n\r\n" []].
Proof.
  unfold calculateCRC32, crc32, crc32_initialize, crc32_finalize, printf,
    emit, modify, gets, bind.
  cbn [set_moscrc set_log set_crc log irq crc filesize moscrc].
  eexists. split; [reflexivity |].
  cbn [irq key_open prot fdiv flash ram filesize moscrc keys log
       set_moscrc set_log map].
  split; [| repeat split; rewrite <- ?app_assoc; reflexivity].
  unfold crc32_bitwise. f_equal.
  apply (crc32_fold_bitwise _ (loaded_bytes dev L w (BUFFER1 L) (filesize w))).
Qed.

Lemma preflight_prompt (w : world F) (bytes : list Z) :
  card w "MOS.bin" = Some bytes ->
  bytes <> [] ->
  buffer_holds L (Z.of_nat (List.length bytes)) ->
  containsMosHeader (load dev L w) (BUFFER1 L) = true ->
  filesize w <= FLASHSIZE L ->
  exists w0,
    preflight dev L w
    = (go <- getResponse ;; if negb go then ret (Some 0) else ret None) w0
    /\ irq w0 = irq w /\ key_open w0 = key_open w /\ prot w0 = prot w
    /\ fdiv w0 = fdiv w /\ flash w0 = flash w
    /\ filesize w0 = Z.of_nat (List.length bytes)
    /\ loaded dev L w0 (BUFFER1 L) (Z.of_nat (List.length bytes)) = map u8 bytes
    /\ moscrc w0 = crc32_bitwise (map u8 bytes)
    /\ keys w0 = keys w
    /\ ops w0
       = ops w ++ preamble L (Z.of_nat (List.length bytes))
                           (crc32_bitwise (map u8 bytes)).
Proof.
  intros Hcard Hne (HB & Hn24 & Hfit & Hout) Hh Hs.
  remember (Z.of_nat (List.length bytes)) as n eqn:En.
  assert (Hn0 : (n =? 0) = false)
    by (apply Z.eqb_neq; subst n; destruct bytes;
        [contradiction | cbn [List.length]; lia]).
  unfold preflight.
  erewrite bind_Ret by reflexivity.
  set (w1 := set_mosfilename DEFAULT_MOSFIRMWARE w).
  assert (E1 : filesExist w1 = Ret true (set_openfile [] (set_openfile bytes w1))).
  { unfold filesExist, mos_fopen, mos_fclose, gets, modify, bind, ret.
    subst w1. cbn [card mosfilename set_mosfilename]. unfold DEFAULT_MOSFIRMWARE.
    rewrite Hcard. reflexivity. }
  rewrite (bind_Ret _ _ _ _ _ E1). clear E1. cbn [negb].
  set (w2 := set_openfile [] (set_openfile bytes w1)).
  assert (E2 : validFirmware dev L w2 = Ret true w2).
  { unfold validFirmware, gets, bind, ret.
    change (load dev L w2) with (load dev L w). rewrite Hh. cbn [negb].
    change (filesize w2) with (filesize w).
    replace (FLASHSIZE L <? filesize w) with false
      by (symmetry; apply Z.ltb_ge; exact Hs).
    reflexivity. }
  rewrite (bind_Ret _ _ _ _ _ E2). clear E2. cbn [negb].
  do 3 (erewrite bind_Ret by reflexivity).
  rewrite En in Hn24, Hfit, Hout.
  match goal with
  | |- context [bind (readMemory dev L ?name) _ ?x] =>
      destruct (readMemory_ret dev L name bytes x Hcard HB Hn24 Hfit Hout)
        as (w5 & E5 & Hl & _ & Hf & Hst & _ & Lg & Ks)
  end.
  rewrite <- En in *.
  rewrite (bind_Ret _ _ _ _ _ E5). clear E5.
  destruct Hst as (I5 & K5 & P5 & D5 & _ & _).
  subst w2 w1.
  cbn [irq key_open prot fdiv flash keys log set_log set_openfile set_mosfilename]
    in I5, K5, P5, D5, Hf, Ks.
  unfold ops in Lg. cbn [log irq set_log set_openfile set_mosfilename] in Lg.
  erewrite bind_Ret by reflexivity. rewrite Hn0.
  set (w6 := set_filesize n w5).
  assert (Hl6 : loaded dev L w6 (BUFFER1 L) (filesize w6) = map u8 bytes)
    by exact Hl.
  destruct (calculateCRC32_run w6)
    as (w7 & E7 & M7 & I7 & K7 & P7 & D7 & F7 & R7 & S7 & Ks7 & Lg7).
  rewrite (bind_Ret _ _ _ _ _ E7). clear E7.
  rewrite Hl6 in M7.
  assert (Hl7 : loaded dev L w7 (BUFFER1 L) n = map u8 bytes).
  { rewrite <- Hl. unfold loaded, load. rewrite R7, F7. reflexivity. }
  subst w6. cbn [irq key_open prot fdiv flash keys filesize log set_filesize]
    in I7, K7, P7, D7, F7, S7, Ks7, Lg7.
  clear Hl6 R7.
  erewrite bind_Ret by reflexivity.
  eexists. split; [reflexivity |].
  cbn [irq key_open prot fdiv flash keys filesize moscrc log set_log].
  split; [congruence |]. split; [congruence |]. split; [congruence |].
  split; [congruence |]. split; [congruence |]. split; [exact S7 |].
  split; [exact Hl7 |]. split; [exact M7 |]. split; [congruence |].
  unfold ops. cbn [log set_log]. rewrite Lg7, !map_app, Lg, M7.
  rewrite !map_app. cbn [map op].
  unfold preamble. rewrite <- !app_assoc. cbn [app]. reflexivity.
Qed.

End Preflight.
(** ** [main] from start to end *)

Lemma loaded_frame {F : Type} (dev : device F) (L : layout) (w w' : world F)
      (ptr len : Z) :
  ram w' = ram w -> flash w' = flash w ->
  loaded dev L w' ptr len = loaded dev L w ptr len.
Proof. intros R Fl. unfold loaded, load. rewrite R, Fl. reflexivity. Qed.

(** X9.  When the first key that answers the prompt says no, [main]
    returns 0 with the flash, its registers and the interrupt mask as
    they were: a file that is on the card, is not empty and fits the
    buffer has been read to [BUFFER1] and its checksum shown, and
    nothing else has happened.  The log is the whole of the dialogue. *)
Theorem main_user_abort :
  forall (F : Type) (dev : device F) (L : layout) (w : world F)
         (bytes pre : list Z) (c : Z) (rest : list Z),
    card w "MOS.bin" = Some bytes ->
    bytes <> [] ->
    buffer_holds L (Z.of_nat (List.length bytes)) ->
    containsMosHeader (load dev L w) (BUFFER1 L) = true ->
    filesize w <= FLASHSIZE L ->
    keys w = pre ++ c :: rest ->
    Forall (fun k => decisive k = false) pre ->
    decisive c = true ->
    says_yes c = false ->
    exists w',
      main dev L w = Ret 0 w'
      /\ flash w' = flash w /\ prot w' = prot w /\ fdiv w' = fdiv w
      /\ key_open w' = key_open w /\ irq w' = irq w
      /\ loaded dev L w' (BUFFER1 L) (Z.of_nat (List.length bytes)) = map u8 bytes
      /\ keys w' = rest
      /\ ops w'
         = ops w
           ++ preamble L (Z.of_nat (List.length bytes))
                       (crc32_bitwise (map u8 bytes))
           ++ [Printf "Flash firmware (y/n)?" []]
           ++ map Getch (pre ++ [c])
           ++ [Printf "\r\nUser abort\n\r\n\r" []].
Proof.
  intros F dev L w bytes pre c rest Hcard Hne Hbuf Hh Hs Hkeys Hpre Hc Hno.
  destruct (preflight_prompt dev L w bytes Hcard Hne Hbuf Hh Hs)
    as (w0 & E0 & I0 & K0 & P0 & D0 & F0 & S0 & Hl0 & M0 & Ks0 & Lg0).
  rewrite <- Ks0 in Hkeys.
  destruct (getResponse_answer w0 pre c rest Hkeys Hpre Hc)
    as (w1 & E1 & Ks1 & ((I1 & K1 & P1 & D1 & S1 & M1) & R1 & F1) & Lg1).
  rewrite Hno in E1, Lg1.
  exists w1. split.
  - unfold main. unfold bind at 1. rewrite E0.
    rewrite (bind_Ret _ _ _ _ _ E1). reflexivity.
  - split; [congruence |]. split; [congruence |]. split; [congruence |].
    split; [congruence |]. split; [congruence |].
    split; [rewrite (loaded_frame dev L w0 w1) by assumption; exact Hl0 |].
    split; [exact Ks1 |].
    rewrite Lg1, Lg0, <- !app_assoc. reflexivity.
Qed.

Lemma agon_buffer_holds (n : Z) : n <= 2 ^ 24 - BUFFER1 agon -> buffer_holds agon n.
Proof.
  intro Hn. unfold buffer_holds. cbn [BUFFER1 agon] in *.
  split; [lia | split; [lia | split; [lia |]]].
  intros i Hi. exact (agon_buffer_outside_flash n i Hi).
Qed.

Lemma main_user_abort_witness :
  exists w',
    main (ideal agon) agon
         (boot (fun _ => 0) (holding agon firmware) (sd_with garbage) [32; 78])
    = Ret 0 w'
    /\ flash w' = (fun _ => 0) /\ prot w' = 0xFF
    /\ loaded (ideal agon) agon w' (BUFFER1 agon) 8 = garbage.
Proof.
  destruct (main_user_abort _ (ideal agon) agon
              (boot (fun _ => 0) (holding agon firmware) (sd_with garbage) [32; 78])
              garbage [32] 78 [] eq_refl)
    as (w' & E & Hf & Hp & _ & _ & _ & Hl & _).
  - discriminate.
  - apply agon_buffer_holds. cbn [List.length garbage Z.of_nat BUFFER1 agon]. lia.
  - vm_compute. reflexivity.
  - cbn [filesize boot FLASHSIZE agon]. lia.
  - reflexivity.
  - repeat constructor.
  - reflexivity.
  - reflexivity.
  - exists w'. split; [exact E | split; [exact Hf | split; [exact Hp | exact Hl]]].
Defined.

(** X10.  While no key answers the prompt, [main] waits: it has read
    the file and shown its checksum, taken every key typed, and the
    flash, its registers and the interrupt mask are as they were. *)
Theorem main_awaits_answer :
  forall (F : Type) (dev : device F) (L : layout) (w : world F) (bytes : list Z),
    card w "MOS.bin" = Some bytes ->
    bytes <> [] ->
    buffer_holds L (Z.of_nat (List.length bytes)) ->
    containsMosHeader (load dev L w) (BUFFER1 L) = true ->
    filesize w <= FLASHSIZE L ->
    Forall (fun k => decisive k = false) (keys w) ->
    exists w',
      main dev L w = Hung AwaitKey w'
      /\ flash w' = flash w /\ prot w' = prot w /\ fdiv w' = fdiv w
      /\ key_open w' = key_open w /\ irq w' = irq w
      /\ ops w'
         = ops w
           ++ preamble L (Z.of_nat (List.length bytes))
                       (crc32_bitwise (map u8 bytes))
           ++ [Printf "Flash firmware (y/n)?" []]
           ++ map Getch (keys w).
Proof.
  intros F dev L w bytes Hcard Hne Hbuf Hh Hs Hkeys.
  destruct (preflight_prompt dev L w bytes Hcard Hne Hbuf Hh Hs)
    as (w0 & E0 & I0 & K0 & P0 & D0 & F0 & S0 & Hl0 & M0 & Ks0 & Lg0).
  rewrite <- Ks0 in Hkeys.
  destruct (getResponse_pending w0 Hkeys)
    as (w1 & E1 & ((I1 & K1 & P1 & D1 & S1 & M1) & R1 & F1) & Lg1).
  exists w1. split.
  - unfold main. unfold bind at 1. rewrite E0.
    rewrite (bind_Hung _ _ _ _ _ E1). reflexivity.
  - split; [congruence |]. split; [congruence |]. split; [congruence |].
    split; [congruence |]. split; [congruence |].
    rewrite Lg1, Lg0, Ks0, <- !app_assoc. reflexivity.
Qed.

Lemma main_awaits_answer_witness :
  exists w',
    main (ideal agon) agon
         (boot (fun _ => 0) (holding agon firmware) (sd_with firmware) [])
    = Hung AwaitKey w'
    /\ flash w' = (fun _ => 0) /\ irq w' = true.
Proof.
  destruct (main_awaits_answer _ (ideal agon) agon
              (boot (fun _ => 0) (holding agon firmware) (sd_with firmware) [])
              firmware eq_refl)
    as (w' & E & Hf & _ & _ & _ & Hi & _).
  - discriminate.
  - apply agon_buffer_holds. cbn [List.length firmware Z.of_nat BUFFER1 agon]. lia.
  - vm_compute. reflexivity.
  - cbn [filesize boot FLASHSIZE agon]. lia.
  - constructor.
  - exists w'. split; [exact E | split; [exact Hf | exact Hi]].
Defined.

Lemma sane_buffer_holds (L : layout) (size : Z) :
  sane L size -> buffer_holds L size.
Proof.
  intro Hsane. pose proof Hsane as (HP & HN & HF & HS & HS' & HB & HB' & Hd & Hsz).
  split; [exact HB | split; [lia | split; [exact HB' |]]].
  intros i Hi. exact (in_flash_buffer L size i Hsane Hi).
Qed.

Lemma main_flash_run (L : layout) (w : world (Z -> Z)) (bytes pre : list Z)
      (c : Z) (rest : list Z) :
  card w "MOS.bin" = Some bytes ->
  sane L (Z.of_nat (List.length bytes)) ->
  containsMosHeader (load (ideal L) L w) (BUFFER1 L) = true ->
  filesize w <= FLASHSIZE L ->
  keys w = pre ++ c :: rest ->
  Forall (fun k => decisive k = false) pre ->
  says_yes c = true ->
  exists w',
    main (ideal L) L w = Hung AwaitReset w'
    /\ (forall j, (j < List.length bytes)%nat ->
                  flash w' (FLASHSTART L + Z.of_nat j) = u8 (nth j bytes 0))
    /\ (forall j, Z.of_nat (List.length bytes) <= j < FLASHSIZE L ->
                  flash w' (FLASHSTART L + j) = 0xFF)
    /\ prot w' = 0 /\ key_open w' = false /\ irq w' = false.
Proof.
  intros Hcard Hsane Hh Hs Hkeys Hpre Hyes.
  set (n := Z.of_nat (List.length bytes)) in *.
  assert (Hne : bytes <> []).
  { intro E. subst bytes. destruct Hsane as (_ & _ & _ & _ & _ & _ & _ & _ & Hsz).
    subst n. cbn [List.length Z.of_nat] in Hsz. lia. }
  assert (Hc : decisive c = true).
  { unfold decisive. unfold says_yes in Hyes. rewrite Hyes. reflexivity. }
  destruct (preflight_prompt (ideal L) L w bytes Hcard Hne
              (sane_buffer_holds L n Hsane) Hh Hs)
    as (w0 & E0 & I0 & K0 & P0 & D0 & F0 & S0 & Hl0 & M0 & Ks0 & Lg0).
  fold n in S0, Hl0.
  rewrite <- Ks0 in Hkeys.
  destruct (getResponse_answer w0 pre c rest Hkeys Hpre Hc)
    as (w1 & E1 & Ks1 & ((I1 & K1 & P1 & D1 & S1 & M1) & R1 & F1) & Lg1).
  rewrite Hyes in E1.
  assert (Hl1 : loaded (ideal L) L w1 (BUFFER1 L) n = map u8 bytes)
    by (rewrite (loaded_frame (ideal L) L w0 w1) by assumption; exact Hl0).
  assert (Sz1 : filesize w1 = n) by congruence.
  destruct (update_mos_programs L w1)
    as (w2 & E2 & (R2 & P2 & Hdone & Herased) & I2 & K2 & _).
  { rewrite Sz1. exact Hsane. }
  { rewrite Sz1, Hl1, M1. exact M0. }
  rewrite Sz1 in Hdone, Herased.
  eexists. split.
  - unfold main. unfold bind at 1. rewrite E0.
    rewrite (bind_Ret _ _ _ _ _ E1). cbn [negb]. unfold ret at 1.
    rewrite (bind_Ret _ _ _ _ _ E2).
    unfold printf, emit, stop, bind. reflexivity.
  - cbn [flash prot key_open irq set_log].
    split; [| split; [exact Herased | split; [exact P2 | split; assumption]]].
    intros j Hj. rewrite Hdone by lia.
    rewrite (loaded_buffer L n w1 Hsane) in Hl1.
    apply (f_equal (fun l => nth j l 0)) in Hl1.
    rewrite (nth_indep _ 0 (u8 (ram w1 (BUFFER1 L + 0)))) in Hl1
      by (rewrite length_map, range_length; lia).
    rewrite (map_nth (fun i => u8 (ram w1 (BUFFER1 L + i)))) in Hl1.
    rewrite range_nth in Hl1 by lia.
    rewrite Hl1.
    rewrite (nth_indep _ 0 (u8 0)) by (rewrite length_map; exact Hj).
    apply map_nth.
Qed.

(** X11.  From the card to the flash: on a flash that works, with a
    file that is not empty and no larger than the flash, an earlier
    image in memory that passes [validFirmware], and y the first key
    that answers the prompt, [main] ends waiting for the reset with the
    bytes of the file in the flash from [FLASHSTART], in file order, the
    rest of the flash erased, [FLASH_PROT] at 0, the key register
    locked and interrupts disabled.  Nothing is asked of the bytes of
    the file themselves. *)
Theorem main_flashes_file :
  forall (L : layout) (w : world (Z -> Z)) (bytes pre : list Z) (c : Z)
         (rest : list Z),
    card w "MOS.bin" = Some bytes ->
    sane L (Z.of_nat (List.length bytes)) ->
    containsMosHeader (load (ideal L) L w) (BUFFER1 L) = true ->
    filesize w <= FLASHSIZE L ->
    keys w = pre ++ c :: rest ->
    Forall (fun k => decisive k = false) pre ->
    says_yes c = true ->
    exists w',
      main (ideal L) L w = Hung AwaitReset w'
      /\ (forall j, (j < List.length bytes)%nat ->
                    flash w' (FLASHSTART L + Z.of_nat j) = u8 (nth j bytes 0))
      /\ (forall j, Z.of_nat (List.length bytes) <= j < FLASHSIZE L ->
                    flash w' (FLASHSTART L + j) = 0xFF)
      /\ prot w' = 0 /\ key_open w' = false /\ irq w' = false.
Proof. intros L w bytes pre c rest. apply main_flash_run. Qed.

Lemma main_flashes_file_witness :
  exists w',
    main (ideal agon) agon (started agon (Some garbage)) = Hung AwaitReset w'
    /\ flash w' (FLASHSTART agon + 0) = 0x47
    /\ flash w' (FLASHSTART agon + 8) = 0xFF.
Proof.
  destruct (main_flashes_file agon (started agon (Some garbage)) garbage [] 121 []
              eq_refl)
    as (w' & E & Hd & He & _).
  - apply sane_agon. cbn [List.length garbage Z.of_nat FLASHSIZE agon]. lia.
  - vm_compute. reflexivity.
  - cbn [filesize started boot FLASHSIZE agon]. lia.
  - reflexivity.
  - constructor.
  - reflexivity.
  - exists w'. split; [exact E | split].
    + exact (Hd 0%nat ltac:(cbn [List.length garbage]; lia)).
    + apply He. cbn [List.length garbage Z.of_nat FLASHSIZE agon]. lia.
Defined.

(** X12.  What [main] returns, when it returns: 4 only when [MOS.bin]
    is not on the card, 19 only when it is and the buffer lacks the
    header or [filesize] exceeds the flash, in both cases with the
    flash untouched; every other return is with status 0, the file on
    the card and the validation passed. *)
Theorem main_exit_status :
  forall (F : Type) (dev : device F) (L : layout) (w : world F) (s : Z)
         (w' : world F),
    main dev L w = Ret s w' ->
    (s = 4 /\ card w "MOS.bin" = None /\ untouched w w')
    \/ (s = 19 /\ card w "MOS.bin" <> None
        /\ (containsMosHeader (load dev L w) (BUFFER1 L) = false
            \/ FLASHSIZE L < filesize w)
        /\ untouched w w')
    \/ (s = 0 /\ card w "MOS.bin" <> None
        /\ containsMosHeader (load dev L w) (BUFFER1 L) = true
        /\ filesize w <= FLASHSIZE L).
Proof.
  intros F dev L w s w' H.
  destruct (card w "MOS.bin") as [bytes |] eqn:Hcard.
  - destruct (containsMosHeader (load dev L w) (BUFFER1 L)) eqn:Hh;
      [destruct (Z.ltb_spec (FLASHSIZE L) (filesize w)) as [Hlt | Hge] |].
    + destruct (main_invalid_image dev L w bytes Hcard (or_intror Hlt))
        as (w1 & E & U).
      rewrite E in H. injection H as <- <-.
      right. left.
      split; [reflexivity | split; [discriminate | split; [right; exact Hlt | exact U]]].
    + right. right.
      split; [| split; [discriminate | split; [reflexivity | exact Hge]]].
      unfold main, preflight in H.
      apply bind_ret_inv in H. destruct H as (early & w1 & H1 & H).
      apply bind_ret_inv in H1. destruct H1 as ([] & w2 & H2 & H1).
      injection H2 as <-.
      set (w2 := set_mosfilename DEFAULT_MOSFIRMWARE w) in *.
      assert (E1 : filesExist w2 = Ret true (set_openfile [] (set_openfile bytes w2))).
      { unfold filesExist, mos_fopen, mos_fclose, gets, modify, bind, ret.
        subst w2. cbn [card mosfilename set_mosfilename].
        unfold DEFAULT_MOSFIRMWARE. rewrite Hcard. reflexivity. }
      rewrite (bind_Ret _ _ _ _ _ E1) in H1. clear E1. cbn [negb] in H1.
      set (w3 := set_openfile [] (set_openfile bytes w2)) in *.
      assert (E2 : validFirmware dev L w3 = Ret true w3).
      { unfold validFirmware, gets, bind, ret.
        change (load dev L w3) with (load dev L w). rewrite Hh. cbn [negb].
        change (filesize w3) with (filesize w).
        replace (FLASHSIZE L <? filesize w) with false
          by (symmetry; apply Z.ltb_ge; exact Hge).
        reflexivity. }
      rewrite (bind_Ret _ _ _ _ _ E2) in H1. clear E2. cbn [negb] in H1.
      clearbody w3. clear w2.
      do 5 (apply bind_ret_inv in H1; destruct H1 as (? & ? & _ & H1)).
      assert (He : early = Some 0 \/ early = None).
      { match type of H1 with
        | (if ?c then _ else _) _ = _ => destruct c
        end.
        - apply bind_ret_inv in H1. destruct H1 as (? & ? & _ & H1).
          injection H1 as <- _. left. reflexivity.
        - do 3 (apply bind_ret_inv in H1; destruct H1 as (? & ? & _ & H1)).
          match type of H1 with
          | (if ?c then _ else _) _ = _ => destruct c
          end; injection H1 as <- _; [left | right]; reflexivity. }
      destruct He as [-> | ->].
      * injection H as <- _. reflexivity.
      * apply bind_ret_inv in H. destruct H as (flashed & w4 & _ & H).
        destruct flashed.
        -- unfold printf, emit, stop, bind in H. discriminate H.
        -- injection H as <- _. reflexivity.
    + destruct (main_invalid_image dev L w bytes Hcard (or_introl Hh))
        as (w1 & E & U).
      rewrite E in H. injection H as <- <-.
      right. left.
      split; [reflexivity | split; [discriminate | split; [left; reflexivity | exact U]]].
  - destruct (main_file_not_found dev L w Hcard) as (w1 & E & U).
    rewrite E in H. injection H as <- <-.
    left. split; [reflexivity | split; [reflexivity | exact U]].
Qed.

Lemma main_exit_status_witness :
  exists w',
    main (ideal agon) agon (started agon None) = Ret 4 w'
    /\ untouched (started agon None) w'.
Proof.
  destruct (main_file_not_found (ideal agon) agon (started agon None) eq_refl)
    as (w' & E & _).
  exists w'. split; [exact E |].
  destruct (main_exit_status _ (ideal agon) agon (started agon None) 4 w' E)
    as [(_ & _ & U) | [(Hs & _) | (Hs & _)]];
    [exact U | discriminate Hs | discriminate Hs].
Defined.
(** ** What [update_mos] leaves alone *)

Section Spares.
Context {F : Type}.
Variable dev : device F.
Variable L : layout.
Variable P : Z -> Prop.

Lemma bystanders_filesize (w w' : world F) :
  bystanders w' = bystanders w -> filesize w' = filesize w.
Proof. unfold bystanders. intro H. injection H. intros. assumption. Qed.

Lemma spares_ret {A : Type} (a : A) : spares P (@ret F A a).
Proof. intros w _. reflexivity. Qed.

Lemma spares_bind {A B : Type} (m : M F A) (k : A -> M F B) :
  spares P m -> (forall a, spares P (k a)) -> spares P (bind m k).
Proof.
  intros Hm Hk w Hw. specialize (Hm w Hw). unfold bind.
  destruct (m w) as [a w1 | h w1]; cbn [final] in *; [| exact Hm].
  rewrite <- Hm. apply Hk. rewrite (bystanders_filesize _ _ Hm). exact Hw.
Qed.

Lemma spares_modify (f : world F -> world F) :
  (forall w, bystanders (f w) = bystanders w) -> spares P (modify f).
Proof. intros Hf w _. apply Hf. Qed.

Lemma spares_emit (e : event) : spares P (@emit F e).
Proof. intros w _. reflexivity. Qed.

Lemma spares_gets {A : Type} (f : world F -> A) : spares P (gets f).
Proof. intros w _. reflexivity. Qed.

Lemma spares_for_each (l : list Z) (body : Z -> M F unit) :
  (forall i, In i l -> spares P (body i)) -> spares P (for_each l body).
Proof.
  induction l as [| i l IH]; intro Hb; cbn [for_each].
  - apply spares_ret.
  - apply spares_bind; [apply Hb; left; reflexivity | intros _].
    apply IH. intros j Hj. apply Hb. right. exact Hj.
Qed.

(** A store to an address of the flash goes to the device. *)
Lemma spares_store (a v : Z) :
  in_flash L (u24 a) = true -> spares P (store dev L a v).
Proof. intros Ha w _. unfold store, modify. rewrite Ha. reflexivity. Qed.

Lemma spares_fastmemcpy (dst src len : Z) :
  (forall i, 0 <= i < len -> in_flash L (u24 (dst + i)) = true) ->
  spares P (fastmemcpy dev L dst src len).
Proof.
  intro Hdst. unfold fastmemcpy.
  apply spares_bind; [apply spares_emit | intros _].
  apply spares_for_each. intros i Hi. apply In_range in Hi.
  apply spares_bind; [apply spares_gets | intro b].
  apply spares_store, Hdst, Hi.
Qed.

Lemma spares_erase_pages : spares P (erase_pages dev L).
Proof.
  apply spares_for_each. intros i _.
  apply spares_bind.
  - unfold out_page. apply spares_bind; [apply spares_emit | intros _].
    apply spares_modify. reflexivity.
  - intros _. unfold erase_and_poll.
    apply spares_bind; [apply spares_emit | intros _].
    intros w _.
    destruct (dev_erase dev (prot w) (page w) (flash w)); reflexivity.
Qed.

Lemma pagemax_of_fits (size : Z) : sane L size -> pagemax_of L size <= FLASHPAGES L.
Proof.
  intro Hsane. pose proof (page_arith L size Hsane) as (Hsz & Hlast & Hpm).
  destruct Hsane as (HP & HN & HF & HS & HS' & HB & HB' & Hd & Hsize).
  destruct (Z.le_gt_cases (pagemax_of L size) (FLASHPAGES L)) as [H | H];
    [exact H | exfalso].
  assert (FLASHPAGES L * PAGESIZE L <= (pagemax_of L size - 1) * PAGESIZE L)
    by (apply Z.mul_le_mono_nonneg_r; lia).
  lia.
Qed.

(** Every page of the image is written inside the flash. *)
Lemma spares_write_pages (size : Z) :
  sane L size ->
  forall (n c : nat) (ato afrom : Z),
    Z.of_nat c + Z.of_nat n = pagemax_of L size ->
    ((0 < n)%nat -> ato = FLASHSTART L + Z.of_nat c * PAGESIZE L) ->
    spares P (write_pages dev L (map Z.of_nat (seq c n)) (pagemax_of L size)
                          (lastpagebytes_of L size) ato afrom).
Proof.
  intro Hsane.
  pose proof (page_arith L size Hsane) as (Hsz & Hlast & Hpm).
  pose proof (pagemax_of_fits size Hsane) as Hfits.
  pose proof Hsane as (HP & HN & HF & HS & HS' & HB & HB' & Hd & Hsize).
  induction n as [| n IH]; intros c ato afrom Hc Hato; cbn [seq map write_pages].
  - apply spares_ret.
  - rewrite (Hato ltac:(lia)).
    assert (Hc1 : (Z.of_nat c + 1) * PAGESIZE L <= FLASHPAGES L * PAGESIZE L)
      by (apply Z.mul_le_mono_nonneg_r; lia).
    assert (Hc0 : 0 <= Z.of_nat c * PAGESIZE L) by (apply Z.mul_nonneg_nonneg; lia).
    assert (Hin : forall len, len <= PAGESIZE L ->
                   forall i, 0 <= i < len ->
                     in_flash L (u24 (FLASHSTART L + Z.of_nat c * PAGESIZE L + i))
                     = true).
    { intros len Hlen i Hi. rewrite u24_small by lia.
      unfold in_flash. apply andb_true_iff.
      split; [apply Z.leb_le | apply Z.ltb_lt]; lia. }
    apply spares_bind; [apply spares_emit | intros _].
    apply spares_bind.
    + destruct (Z.of_nat c =? u24 (pagemax_of L size - 1));
        apply spares_fastmemcpy; [apply (Hin _ (proj2 Hlast)) | apply (Hin _ (Z.le_refl _))].
    + intros _. apply IH; [lia |].
      intro Hn.
      assert (Hc2 : (Z.of_nat c + 2) * PAGESIZE L <= FLASHPAGES L * PAGESIZE L)
        by (apply Z.mul_le_mono_nonneg_r; lia).
      replace (Z.of_nat (S c)) with (Z.of_nat c + 1) by lia.
      rewrite !Z.mul_add_distr_r in *.
      rewrite u24_small by lia. lia.
Qed.

End Spares.

Section SparesUpdate.
Context {F : Type}.
Variable dev : device F.
Variable L : layout.
Variable size : Z.
Hypothesis Hsane : sane L size.

Ltac spares_step :=
  lazymatch goal with
  | |- spares _ (ret _) => apply spares_ret
  | |- spares _ (emit _) => apply spares_emit
  | |- spares _ (gets _) => apply spares_gets
  | |- spares _ (modify _) =>
      apply spares_modify; intro;
      try match goal with |- context [if ?c then _ else _] => destruct c end;
      reflexivity
  | |- spares _ (bind _ _) => apply spares_bind; [| intro]
  end.

Lemma spares_read_filesize {A : Type} (k : Z -> M F A) :
  spares (fun s => s = size) (k size) ->
  spares (fun s => s = size) (bind (gets filesize) k).
Proof. intros Hk w Hw. unfold bind, gets. rewrite Hw. apply Hk. exact Hw. Qed.

Lemma spares_attempt_body (attempt : Z) :
  spares (fun s => s = size) (attempt_body dev L attempt).
Proof.
  pose proof Hsane as (HP & HN & HF & HS & HS' & HB & HB' & Hd & Hsize).
  unfold attempt_body, enableFlashKeyRegister, lockFlashKeyRegister, out_prot,
    out_fdiv, printf, crc32_initialize, crc32, crc32_finalize.
  apply spares_bind; [destruct (0 <? attempt); spares_step | intros _].
  do 5 (apply spares_bind; [repeat spares_step | intros _]).
  apply spares_bind; [apply spares_erase_pages | intros _].
  apply spares_bind; [apply spares_emit | intros _].
  apply spares_read_filesize.
  apply spares_bind.
  + apply (spares_write_pages dev L _ size Hsane (Z.to_nat (pagemax_of L size)) 0).
    * pose proof (page_arith L size Hsane) as (_ & _ & Hpm). cbn [Z.of_nat]. lia.
    * intros _. cbn [Z.of_nat]. rewrite u24_small by lia. lia.
  + intros _. repeat spares_step.
    match goal with |- spares _ (if ?c then _ else _) => destruct c end;
      repeat spares_step.
Qed.

Lemma spares_attempts (budget : nat) :
  forall (success : bool) (attempt : Z),
    spares (fun s => s = size) (attempts dev L budget success attempt).
Proof.
  induction budget as [| budget IH]; intros success attempt; cbn [attempts].
  - apply spares_ret.
  - destruct (negb success && (attempt <? 3)); [| apply spares_ret].
    apply spares_bind; [apply spares_attempt_body | intro ok; apply IH].
Qed.

Lemma spares_update_mos : spares (fun s => s = size) (update_mos dev L).
Proof.
  unfold update_mos, update_mos_prologue, di, printf.
  apply spares_bind; [repeat spares_step | intros _].
  apply spares_bind; [apply spares_attempts | intro b].
  repeat spares_step.
Qed.

End SparesUpdate.

(** X13.  [update_mos] stores nowhere but in the flash: every byte
    that [fastmemcpy] is asked to copy lands between [FLASHSTART] and
    the end of the flash.  For an image that fits, in a buffer outside
    the flash, and on any device, memory with the image in it, the
    globals of [main.c], the card and the keys not yet read are as they
    were where the run ends, whether it returns or stalls. *)
Theorem update_mos_spares_memory :
  forall (F : Type) (dev : device F) (L : layout) (w : world F),
    sane L (filesize w) ->
    ram (final (update_mos dev L w)) = ram w
    /\ filesize (final (update_mos dev L w)) = filesize w
    /\ moscrc (final (update_mos dev L w)) = moscrc w
    /\ mosfilename (final (update_mos dev L w)) = mosfilename w
    /\ card (final (update_mos dev L w)) = card w
    /\ openfile (final (update_mos dev L w)) = openfile w
    /\ keys (final (update_mos dev L w)) = keys w.
Proof.
  intros F dev L w Hsane.
  pose proof (spares_update_mos dev L (filesize w) Hsane w eq_refl) as H.
  unfold bystanders in H. injection H. intros. repeat split; assumption.
Qed.

Lemma update_mos_spares_memory_witness :
  ram (final (update_mos (stuck agon 3) agon confirmed)) = ram confirmed
  /\ keys (final (update_mos (stuck agon 3) agon confirmed)) = keys confirmed.
Proof.
  assert (Hs : filesize confirmed = 8) by (vm_compute; reflexivity).
  destruct (update_mos_spares_memory _ (stuck agon 3) agon confirmed)
    as (Hr & _ & _ & _ & _ & _ & Hk).
  - rewrite Hs. apply sane_agon. cbn [FLASHSIZE agon]. lia.
  - split; [exact Hr | exact Hk].
Defined.
(** ** What the closing message of [main] is worth *)

Lemma keys_split (l : list Z) :
  Forall (fun k => decisive k = false) l
  \/ exists pre c rest,
      l = pre ++ c :: rest
      /\ Forall (fun k => decisive k = false) pre
      /\ decisive c = true.
Proof.
  induction l as [| k l IH].
  - left. constructor.
  - destruct (decisive k) eqn:Hk.
    + right. exists [], k, l. split; [reflexivity | split; [constructor | exact Hk]].
    + destruct IH as [Hall | (pre & c & rest & -> & Hpre & Hc)].
      * left. constructor; assumption.
      * right. exists (k :: pre), c, rest.
        split; [reflexivity | split; [constructor; assumption | exact Hc]].
Qed.

(** X14.  [main] announces success only over a flash that verifies: on
    any device, when a run on a file that fits the buffer ends waiting
    for the reset, the checksum of the flash as it reads then, over the
    length of the file, is the checksum of the file. *)
Theorem main_success_means_verified :
  forall (F : Type) (dev : device F) (L : layout) (w : world F)
         (bytes : list Z) (w' : world F),
    card w "MOS.bin" = Some bytes ->
    buffer_holds L (Z.of_nat (List.length bytes)) ->
    main dev L w = Hung AwaitReset w' ->
    crc32_bitwise (loaded dev L w' (FLASHSTART L) (Z.of_nat (List.length bytes)))
    = crc32_bitwise (map u8 bytes).
Proof.
  intros F dev L w bytes w' Hcard Hbuf H.
  destruct (containsMosHeader (load dev L w) (BUFFER1 L)) eqn:Hh.
  2:{ destruct (main_invalid_image dev L w bytes Hcard (or_introl Hh))
        as (w1 & E & _).
      rewrite E in H. discriminate H. }
  destruct (Z.ltb_spec (FLASHSIZE L) (filesize w)) as [Hlt | Hge].
  { destruct (main_invalid_image dev L w bytes Hcard (or_intror Hlt))
      as (w1 & E & _).
    rewrite E in H. discriminate H. }
  assert (Hne : bytes <> []).
  { intros ->. destruct (main_read_error dev L w Hcard Hh Hge) as (w1 & E & _).
    rewrite E in H. discriminate H. }
  destruct (preflight_prompt dev L w bytes Hcard Hne Hbuf Hh Hge)
    as (w0 & E0 & _ & _ & _ & _ & _ & S0 & _ & M0 & _ & _).
  unfold main in H. unfold bind at 1 in H. rewrite E0 in H. clear E0.
  destruct (keys_split (keys w0)) as [Hall | (pre & c & rest & Hk & Hpre & Hc)].
  - destruct (getResponse_pending w0 Hall) as (w1 & E1 & _).
    rewrite (bind_Hung _ _ _ _ _ E1) in H. discriminate H.
  - destruct (getResponse_answer w0 pre c rest Hk Hpre Hc)
      as (w1 & E1 & _ & ((_ & _ & _ & _ & S1 & M1) & _ & _) & _).
    rewrite (bind_Ret _ _ _ _ _ E1) in H. clear E1.
    destruct (says_yes c); cbn [negb] in H; [| discriminate H].
    unfold ret at 1 in H.
    destruct (update_mos dev L w1) as [b w2 | h w2] eqn:E2.
    + rewrite (bind_Ret _ _ _ _ _ E2) in H.
      pose proof (update_mos_ret_verdict dev L w1 b w2 E2) as V.
      destruct b; [| discriminate H].
      unfold printf, emit, stop, bind in H. injection H as <-.
      symmetry in V. apply Z.eqb_eq in V.
      rewrite S1, S0 in V. rewrite M1, M0 in V. exact V.
    + rewrite (bind_Hung _ _ _ _ _ E2) in H. injection H as -> _.
      destruct (update_mos_stalls_only dev L w1 AwaitReset w2 E2) as (Eh & _).
      discriminate Eh.
Qed.

Lemma main_success_means_verified_witness :
  exists w',
    main (ideal agon) agon (started agon (Some firmware)) = Hung AwaitReset w'
    /\ crc32_bitwise (loaded (ideal agon) agon w' (FLASHSTART agon) 8)
       = crc32_bitwise firmware.
Proof.
  destruct (main_flash_run agon (started agon (Some firmware)) firmware [] 121 []
              eq_refl)
    as (w' & E & _).
  - apply sane_agon. cbn [List.length firmware Z.of_nat FLASHSIZE agon]. lia.
  - vm_compute. reflexivity.
  - cbn [filesize started boot FLASHSIZE agon]. lia.
  - reflexivity.
  - constructor.
  - reflexivity.
  - exists w'. split; [exact E |].
    apply (main_success_means_verified _ (ideal agon) agon
             (started agon (Some firmware)) firmware w' eq_refl).
    + apply agon_buffer_holds.
      cbn [List.length firmware Z.of_nat BUFFER1 agon]. lia.
    + exact E.
Defined.

(** ** The ways a confirmed run ends *)

(** X15.  A run the user confirms ends in one of three ways, on any
    device: waiting for the reset, over a flash whose checksum is that
    of the file; returned with status 0 after [update_mos] gave up, the
    checksum of the flash not that of the file, [FLASH_PROT] at 0 and
    interrupts disabled; or stalled in an erase, interrupts disabled. *)
Theorem main_confirmed_outcomes :
  forall (F : Type) (dev : device F) (L : layout) (w : world F)
         (bytes pre : list Z) (c : Z) (rest : list Z),
    card w "MOS.bin" = Some bytes ->
    bytes <> [] ->
    buffer_holds L (Z.of_nat (List.length bytes)) ->
    containsMosHeader (load dev L w) (BUFFER1 L) = true ->
    filesize w <= FLASHSIZE L ->
    keys w = pre ++ c :: rest ->
    Forall (fun k => decisive k = false) pre ->
    says_yes c = true ->
    (exists w',
        main dev L w = Hung AwaitReset w'
        /\ crc32_bitwise (loaded dev L w' (FLASHSTART L)
                                 (Z.of_nat (List.length bytes)))
           = crc32_bitwise (map u8 bytes))
    \/ (exists w',
           main dev L w = Ret 0 w'
           /\ crc32_bitwise (loaded dev L w' (FLASHSTART L)
                                    (Z.of_nat (List.length bytes)))
              <> crc32_bitwise (map u8 bytes)
           /\ prot w' = 0 /\ irq w' = false)
    \/ (exists w', main dev L w = Hung EraseStall w' /\ irq w' = false).
Proof.
  intros F dev L w bytes pre c rest Hcard Hne Hbuf Hh Hs Hkeys Hpre Hyes.
  assert (Hc : decisive c = true).
  { unfold decisive. unfold says_yes in Hyes. rewrite Hyes. reflexivity. }
  destruct (preflight_prompt dev L w bytes Hcard Hne Hbuf Hh Hs)
    as (w0 & E0 & _ & _ & _ & _ & _ & S0 & _ & M0 & Ks0 & _).
  rewrite <- Ks0 in Hkeys.
  destruct (getResponse_answer w0 pre c rest Hkeys Hpre Hc)
    as (w1 & E1 & _ & ((_ & _ & _ & _ & S1 & M1) & _ & _) & _).
  rewrite Hyes in E1.
  assert (E : main dev L w
              = (flashed <- update_mos dev L ;;
                 if flashed
                 then printf "Done\r\n\r\n" [] ;;
                      printf "Please don't forget to update the VDP\r\n" [] ;;
                      printf "It is OK to reset or shut down the system now " [] ;;
                      stop AwaitReset
                 else ret 0) w1).
  { unfold main. unfold bind at 1. rewrite E0.
    rewrite (bind_Ret _ _ _ _ _ E1). reflexivity. }
  rewrite E. clear E E0 E1.
  pose proof (proj1 (update_mos_masked dev L w1)) as Hirq.
  destruct (update_mos dev L w1) as [b w2 | h w2] eqn:E2; cbn [final] in Hirq.
  - rewrite (bind_Ret _ _ _ _ _ E2).
    pose proof (update_mos_ret_verdict dev L w1 b w2 E2) as V.
    rewrite S1, S0, M1, M0 in V.
    destruct b.
    + left. unfold printf, emit, stop, bind. eexists. split; [reflexivity |].
      symmetry in V. apply Z.eqb_eq in V. exact V.
    + right. left. exists w2. split; [reflexivity |].
      symmetry in V. apply Z.eqb_neq in V.
      destruct (update_mos_ret dev L w1 false w2 E2)
        as (_ & _ & _ & _ & _ & _ & _ & P2 & _).
      split; [exact V | split; [exact P2 | exact Hirq]].
  - right. right. exists w2. rewrite (bind_Hung _ _ _ _ _ E2).
    destruct (update_mos_stalls_only dev L w1 h w2 E2) as (-> & _).
    split; [reflexivity | exact Hirq].
Qed.

Lemma main_confirmed_outcomes_witness :
  (exists w',
      main (flaky agon) agon
           (boot (9%nat, fun _ => 0) (holding agon firmware) (sd_with firmware) [121])
      = Hung AwaitReset w')
  \/ (exists w',
         main (flaky agon) agon
              (boot (9%nat, fun _ => 0) (holding agon firmware) (sd_with firmware)
                    [121])
         = Ret 0 w'
         /\ prot w' = 0 /\ irq w' = false)
  \/ (exists w',
         main (flaky agon) agon
              (boot (9%nat, fun _ => 0) (holding agon firmware) (sd_with firmware)
                    [121])
         = Hung EraseStall w').
Proof.
  destruct (main_confirmed_outcomes _ (flaky agon) agon
              (boot (9%nat, fun _ => 0) (holding agon firmware) (sd_with firmware)
                    [121])
              firmware [] 121 [] eq_refl)
    as [(w' & E & _) | [(w' & E & _ & P & I) | (w' & E & _)]].
  - discriminate.
  - apply agon_buffer_holds. cbn [List.length firmware Z.of_nat BUFFER1 agon]. lia.
  - vm_compute. reflexivity.
  - cbn [filesize boot FLASHSIZE agon]. lia.
  - reflexivity.
  - constructor.
  - reflexivity.
  - left. exists w'. exact E.
  - right. left. exists w'. split; [exact E | split; [exact P | exact I]].
  - right. right. exists w'. exact E.
Defined.
